(** * atri: rank fusion and multi-query evaluation

    A shallow embedding of the metric library
    ([atri/core/metrics/defaults.py], [atri/core/metrics/ndcg.py]), the rank
    aggregators ([atri/core/ranking/aggregation.py]), the multi-query
    evaluator ([SearchManager] in [atri/manager/filesystem.py]), the keywords
    of a query file ([QueryManager.keywords_query], same file) and the
    aggregation step of a search ([ASearcher] in
    [atri/core/ranking/search.py]).

    Conventions of the embedding.
    - Python [int] is [Z].  Python [float] and the entries of numpy float
      arrays are exact rationals [Qc]: rounding of IEEE doubles is not
      modelled, so [0.15] is [15/100] and [1e-7] is [1/10^7].
    - A raised exception is the [Raise] branch of [result].
    - A Python list that is mutated in place is a piece of state that is
      threaded through the calls that share it (monad [M]).
    - Iteration order of a Python [set], numpy's [argsort], numpy's [log2]
      and [power], and the metric registry [get_metric] (whose module is not
      part of the sources at hand) are operations of type classes. *)

From Stdlib Require Import Ascii DecimalString DecimalNat QArith Qcanon.
From stdpp Require Import base decidable option numbers strings gmap sorting list.

Open Scope Z_scope.

(** ** Python values, exceptions and slices *)

Inductive exn : Type :=
| ZeroDivisionError
| KeyError
| IndexError
| ValueError (msg : string)
| Exception (msg : string)
| FileSystemError (msg : string).

Inductive result (A : Type) : Type :=
| Ok (a : A)
| Raise (e : exn).
Arguments Ok {A} a.
Arguments Raise {A} e.

#[global] Instance result_ret : MRet result := fun A a => Ok a.
#[global] Instance result_bind : MBind result := fun A B f m =>
  match m with
  | Ok a => f a
  | Raise e => Raise e
  end.
#[global] Instance result_fmap : FMap result := fun A B f m =>
  match m with
  | Ok a => Ok (f a)
  | Raise e => Raise e
  end.

#[global] Instance exn_eq_dec : EqDecision exn.
Proof. solve_decision. Defined.

#[global] Instance result_eq_dec `{EqDecision A} : EqDecision (result A).
Proof. solve_decision. Defined.

(** A [for] loop over [l] that updates the loop state [a] and stops at the
    first exception. *)
Fixpoint foldlM {A B} (f : A -> B -> result A) (a : A) (l : list B) : result A :=
  match l with
  | [] => Ok a
  | x :: l' =>
      match f a x with
      | Ok a' => foldlM f a' l'
      | Raise e => Raise e
      end
  end.

Module Py.

(** [float(z)] for an int [z]. *)
Definition float (z : Z) : Qc := Qc_of_Z z.

(** [len(l)]. *)
Definition len {A} (l : list A) : Z := Z.of_nat (length l).

(** [l[:stop]]: a negative [stop] counts from the end, and the bound is
    clipped to the list. *)
Definition slice_stop {A} (l : list A) (stop : Z) : list A :=
  let stop' := if decide (stop < 0) then Z.max 0 (stop + len l) else stop in
  take (Z.to_nat stop') l.

(** [l[start:]] for [start >= 0]. *)
Definition slice_start {A} (l : list A) (start : nat) : list A := drop start l.

(** [[x] * k]: empty when [k <= 0]. *)
Definition repeat_list {A} (x : A) (k : Z) : list A := replicate (Z.to_nat k) x.

(** [a / b] on floats: raises on a zero divisor. *)
Definition truediv (a b : Qc) : result Qc :=
  if decide (b = 0%Qc) then Raise ZeroDivisionError else Ok (a / b)%Qc.

(** [d.get(k, default)] for a keyword argument. *)
Definition get {A} (o : option A) (dflt : A) : A := default dflt o.

(** A stable sort by insertion: [le x y] reads "x may stand before y".
    Python's [sorted] and [list.sort] are stable, and so is
    [sorted(..., reverse=True)]. *)
Fixpoint insert_by {A} (le : A -> A -> bool) (x : A) (l : list A) : list A :=
  match l with
  | [] => [x]
  | y :: l' => if le x y then x :: y :: l' else y :: insert_by le x l'
  end.

Definition stable_sort {A} (le : A -> A -> bool) (l : list A) : list A :=
  foldr (insert_by le) [] l.

(** An insertion-ordered [dict] as an association list: assignment to an
    existing key keeps the key's place. *)
Fixpoint dict_set {K V} `{EqDecision K} (k : K) (v : V) (d : list (K * V))
  : list (K * V) :=
  match d with
  | [] => [(k, v)]
  | (k', v') :: d' =>
      if decide (k = k') then (k, v) :: d' else (k', v') :: dict_set k v d'
  end.

Fixpoint dict_get {K V} `{EqDecision K} (k : K) (d : list (K * V)) : option V :=
  match d with
  | [] => None
  | (k', v') :: d' => if decide (k = k') then Some v' else dict_get k d'
  end.

End Py.

(** ** The mutable list a metric function receives

    [M A] is a computation over the one list object that the caller hands to
    a metric function: it yields a value or an exception, and the contents of
    that object afterwards. *)

Definition M (A : Type) : Type := list Qc -> result A * list Qc.

#[global] Instance M_ret : MRet M := fun A a st => (Ok a, st).
#[global] Instance M_bind : MBind M := fun A B k m st =>
  match m st with
  | (Ok a, st') => k a st'
  | (Raise e, st') => (Raise e, st')
  end.

(** A call that does not touch the object. *)
Definition M_lift {A} (r : result A) : M A := fun st => (r, st).

(** Reading the object, [len(obj)], and [obj += xs] (in-place extension). *)
Definition obj_read : M (list Qc) := fun st => (Ok st, st).
Definition obj_len : M Z := fun st => (Ok (Py.len st), st).
Definition obj_iadd (xs : list Qc) : M unit := fun st => (Ok tt, st ++ xs).

(** Keyword arguments of the metric functions. *)
Record kwargs : Type := Kwargs {
  kw_limit : option Z;
  kw_nrel : option Z;
  kw_alternate : option bool
}.

Definition set_limit (k : Z) (kw : kwargs) : kwargs :=
  {| kw_limit := Some k; kw_nrel := kw_nrel kw; kw_alternate := kw_alternate kw |}.
Definition set_nrel (n : Z) (kw : kwargs) : kwargs :=
  {| kw_limit := kw_limit kw; kw_nrel := Some n; kw_alternate := kw_alternate kw |}.

Definition no_kwargs : kwargs :=
  {| kw_limit := None; kw_nrel := None; kw_alternate := None |}.

Definition metric_fn : Type := kwargs -> M Qc.

(** ** atri/core/metrics/defaults.py *)

Module Defaults.

(** The loop [for hit in window: if hit > 0: acc += hit]. *)
Definition recall_loop (window : list Qc) : Qc :=
  foldl (fun acc hit => if decide (0 < hit)%Qc then (acc + hit)%Qc else acc) 0%Qc window.

(** The loop [for hit in window: if hit > 0: acc += 1.0]. *)
Definition precision_loop (window : list Qc) : Qc :=
  foldl (fun acc hit => if decide (0 < hit)%Qc then (acc + 1)%Qc else acc) 0%Qc window.

(** The shared step [if len(rank) < limit: rank += [0] * (limit - len(rank))];
    [rank] is another name of the argument object. *)
Definition zero_padding (limit : Z) : M unit :=
  n ← obj_len;
  if decide (n < limit) then obj_iadd (Py.repeat_list 0%Qc (limit - n)) else mret tt.

Definition recall (kw : kwargs) : M Qc :=
  n0 ← obj_len;
  let limit := Py.get (kw_limit kw) n0 in
  let nrel := Py.float (Py.get (kw_nrel kw) n0) in
  n1 ← obj_len;
  let nrel := if decide (Py.float n1 < nrel)%Qc then Py.float n1 else nrel in
  zero_padding limit;;
  rank ← obj_read;
  let recall := recall_loop (Py.slice_stop rank (limit + 1)) in
  mret (if decide (0 < nrel)%Qc then (recall / nrel)%Qc else 0%Qc).

Definition precision (kw : kwargs) : M Qc :=
  n0 ← obj_len;
  let limit := Py.get (kw_limit kw) n0 in
  zero_padding limit;;
  rank ← obj_read;
  let prec := precision_loop (Py.slice_stop rank (limit + 1)) in
  mret (if decide (0 < limit) then (prec / Py.float limit)%Qc else 0%Qc).

Definition f1 (kw : kwargs) : M Qc :=
  prec ← precision kw;
  rec ← recall kw;
  mret (if decide (0 < prec + rec)%Qc then (2 * (prec * rec / (prec + rec)))%Qc else 0%Qc).

End Defaults.

(** ** atri/core/metrics/ndcg.py *)

(** numpy's elementary functions on doubles, kept abstract. *)
Class NumpyFloat : Type := {
  np_log2 : Z -> Qc;          (* [np.log2(i)] for an int [i] *)
  np_power2 : Qc -> Qc        (* [np.power(2, x)] *)
}.

Module Ndcg.
Section with_numpy.
Context `{NumpyFloat}.

(** [a.sum()] of a float array. *)
Definition np_sum (a : list Qc) : Qc := foldl Qcplus 0%Qc a.

Definition cum_gain (relevance : list Qc) : Qc :=
  if decide (Py.len relevance < 1) then 0%Qc else np_sum relevance.

(** [range(a, a + len(l))] zipped with [l]. *)
Definition enumerate_from {A} (a : Z) (l : list A) : list (Z * A) :=
  imap (fun i x => (a + Z.of_nat i, x)) l.

Definition dcg (relevance : list Qc) (alternate : bool) : Qc :=
  if decide (Py.len relevance < 1) then 0%Qc
  else
    let rel := relevance in
    if alternate then
      (* log2i = np.log2(np.asarray(range(1, p + 1)) + 1) *)
      np_sum (fmap (fun '(i, r) => ((np_power2 r - 1) / np_log2 (i + 1))%Qc)
                  (enumerate_from 1 rel))
    else
      (* log2i = np.log2(range(2, p + 1)) *)
      match rel with
      | [] => 0%Qc
      | rel0 :: rel1 =>
          (rel0 + np_sum (fmap (fun '(i, r) => (r / np_log2 i)%Qc)
                              (enumerate_from 2 rel1)))%Qc
      end.

(** [rel = np.asarray(relevance).copy(); rel.sort(); rel[::-1]]. *)
Definition sorted_descending (relevance : list Qc) : list Qc :=
  reverse (Py.stable_sort (fun x y => bool_decide (x <= y)%Qc) relevance).

Definition idcg (relevance : list Qc) (alternate : bool) : Qc :=
  if decide (Py.len relevance < 1) then 0%Qc
  else dcg (sorted_descending relevance) alternate.

Definition ndcg (relevance : list Qc) (nranks : Z) (alternate : bool) : result Qc :=
  if decide (Py.len relevance < 1) then Ok 0%Qc
  else if decide (nranks < 1) then Raise (Exception "nranks < 1")
  else
    let rel := relevance in
    let pad := Z.max 0 (nranks - Py.len rel) in
    let rel := rel ++ Py.repeat_list 0%Qc pad in
    let rel := Py.slice_stop rel (Z.min nranks (Py.len rel)) in
    let ideal_dcg := idcg rel alternate in
    if decide (ideal_dcg = 0%Qc) then Ok 0%Qc
    else Ok (dcg rel alternate / ideal_dcg)%Qc.

(** The wrapper registered as a metric.  The second read of [limit] comes
    after the padding, as in the source. *)
Definition NDCG (kw : kwargs) : M Qc :=
  n0 ← obj_len;
  let limit := Py.get (kw_limit kw) n0 in
  Defaults.zero_padding limit;;
  rank ← obj_read;
  n1 ← obj_len;
  M_lift (ndcg rank (Py.get (kw_limit kw) n1) (Py.get (kw_alternate kw) true)).

End with_numpy.
End Ndcg.

(** ** numpy arrays and Python sets *)

Module Np.

(** Resolving an index into an axis of length [n]: negative indices count
    from the end, anything else out of range raises. *)
Definition index (n : Z) (i : Z) : result nat :=
  if decide (0 <= i < n) then Ok (Z.to_nat i)
  else if decide (- n <= i < 0) then Ok (Z.to_nat (i + n))
  else Raise IndexError.

(** [a[i]]. *)
Definition get {A} (a : list A) (i : Z) : result A :=
  k ← index (Py.len a) i;
  match a !! k with
  | Some x => Ok x
  | None => Raise IndexError
  end.

(** [a[i] = v]. *)
Definition set {A} (a : list A) (i : Z) (v : A) : result (list A) :=
  k ← index (Py.len a) i;
  Ok (<[k := v]> a).

(** [m[i, j] = v] on a matrix stored by rows. *)
Definition set2 {A} (m : list (list A)) (i j : Z) (v : A) : result (list (list A)) :=
  row ← get m i;
  row' ← set row j v;
  set m i row'.

(** [np.zeros(n)] and [np.zeros((r, c))]. *)
Definition zeros (n : Z) : list Z := Py.repeat_list 0 n.
Definition zeros2 (r c : Z) : list (list Z) := Py.repeat_list (zeros c) r.

(** [m.sum(axis=0)] for a matrix with [c] columns. *)
Definition sum_axis0 (c : Z) (m : list (list Z)) : list Z :=
  foldl (zip_with Z.add) (zeros c) m.

(** [range(n)]. *)
Definition range (n : Z) : list Z := seqZ 0 n.

End Np.

(** [data.argsort()] with numpy's default sort kind: the indices that put
    [data] in ascending order.  The default kind does not promise an order
    among equal keys, so the function is an operation of a class, with the
    guarantees numpy documents as laws. *)
Class Argsort : Type := { argsort : list Z -> list Z }.

Class ArgsortLaws `{Argsort} : Prop := {
  argsort_perm data : argsort data ≡ₚ seqZ 0 (Py.len data);
  argsort_sorted data i j a b x y :
    (i < j)%nat ->
    argsort data !! i = Some a -> argsort data !! j = Some b ->
    data !! Z.to_nat a = Some x -> data !! Z.to_nat b = Some y ->
    x <= y
}.

(** A stable argsort keeps equal keys in index order (what numpy's insertion
    sort does on short arrays). *)
Class ArgsortStable `{Argsort} : Prop := {
  argsort_stable data i j a b x :
    (i < j)%nat ->
    argsort data !! i = Some a -> argsort data !! j = Some b ->
    data !! Z.to_nat a = Some x -> data !! Z.to_nat b = Some x ->
    a < b
}.

(** Iteration order of Python sets.  [set_iter l] is the order in which the
    set built by adding the elements of [l] one after the other is visited;
    [set_diff_iter l r] is [list(s - t)] for the sets [s], [t] built from
    [l] and [r]. *)
Class PySet (A : Type) : Type := {
  set_iter : list A -> list A;
  set_diff_iter : list A -> list A -> list A
}.

Class PySetLaws (A : Type) `{PySet A} : Prop := {
  set_iter_NoDup l : NoDup (set_iter l);
  set_iter_elem x l : x ∈ set_iter l <-> x ∈ l;
  set_diff_iter_NoDup l r : NoDup (set_diff_iter l r);
  set_diff_iter_elem x l r : x ∈ set_diff_iter l r <-> x ∈ l /\ x ∉ r
}.

(** ** atri/core/ranking/aggregation.py *)

Module Aggregator.
Section with_docid.
Context {DocId : Type} `{Countable DocId} `{PySet DocId}.

(** The set [docs], given by the sequence of its [add] calls. *)
Definition get_unique_doc_ids (rankings : list (list DocId)) : list DocId :=
  concat rankings.

(** [enumerate(docs, start=1)]. *)
Definition enumerate_docs (docs : list DocId) : list (Z * DocId) :=
  imap (fun i docid => (1 + Z.of_nat i, docid)) (set_iter docs).

(** The two dictionaries filled by
    [for i, docid in enumerate(docs, start=1)]. *)
Definition index_docs (docs : list DocId) : gmap DocId Z * gmap Z DocId :=
  foldl (fun '(map_doc_ids, map_ids_doc) '(i, docid) =>
           (<[docid := i]> map_doc_ids, <[i := docid]> map_ids_doc))
        (∅, ∅) (enumerate_docs docs).

(** [d[k]] on a dictionary. *)
Definition dict_lookup {K V} `{Countable K} (d : gmap K V) (k : K) : result V :=
  match d !! k with
  | Some v => Ok v
  | None => Raise KeyError
  end.

(** [row[:] = np.asarray(l)] into a row of length [n]. *)
Definition assign_row (n : Z) (l : list Z) : result (list Z) :=
  if decide (Py.len l = n) then Ok l
  else Raise (ValueError "could not broadcast input array").

End with_docid.
End Aggregator.

Module BordaCount.
Section with_runtime.
Context {DocId : Type} `{Countable DocId} `{PySet DocId} `{PySet Z} `{Argsort}.

Definition _rank_score (num_documents : Z) (rank : list Z) : result (list Z) :=
  let n_rows := num_documents in
  '(error, borda_rank) ←
    foldlM (fun '(error, borda_rank) i =>
              r ← Np.get rank i;
              if decide (r - 1 < 0) then Ok (1, borda_rank)
              else
                borda_rank' ← Np.set borda_rank (r - 1) (n_rows - (i + 1));
                Ok (error, borda_rank'))
           (0, Np.zeros n_rows) (Np.range n_rows);
  if decide (error = 1)
  then Raise (ValueError "Error in BordaCount::rank : Doc id's must be higher than 1")
  else Ok borda_rank.

Definition _fit (num_rankings num_documents : Z) (rankings : list (list Z))
  : result (list Z * list Z) :=
  let ndocs := num_documents in
  let nranks := num_rankings in
  scores ←
    foldlM (fun scores i =>
              row ← Np.get rankings i;
              s ← _rank_score num_documents row;
              s' ← Aggregator.assign_row ndocs s;
              Np.set scores i s')
           (Np.zeros2 nranks ndocs) (Np.range nranks);
  let data := Np.sum_axis0 ndocs scores in
  Ok (reverse (fmap (Z.add 1) (argsort data)), data).

(** [rankings.shape] is passed along with the rows. *)
Definition _rank (shape : Z * Z) (rankings : list (list Z)) : result (list Z * list Z) :=
  let '(num_rankings, num_documents) := shape in
  _fit num_rankings num_documents rankings.

Definition rank_by_id (rankings : list (list DocId)) : result (list (Qc * DocId)) :=
  let docs := Aggregator.get_unique_doc_ids rankings in
  let nrank := Py.len rankings in
  let ndoc := Py.len (set_iter docs) in
  if decide (0 < Py.len rankings) then
    let '(map_doc_ids, map_ids_doc) := Aggregator.index_docs docs in
    let set_doc_ids := fmap fst (Aggregator.enumerate_docs docs) in
    ndranks ←
      mapM (fun rank =>
              rank_ids ← mapM (Aggregator.dict_lookup map_doc_ids) rank;
              let padding := set_diff_iter set_doc_ids rank_ids in
              Aggregator.assign_row ndoc (rank_ids ++ padding))
           rankings;
    '(idx, scores) ← _rank (nrank, ndoc) ndranks;
    mapM (fun i =>
            id ← Np.get idx i;
            s ← Np.get scores (id - 1);
            d ← Aggregator.dict_lookup map_ids_doc id;
            Ok (Py.float s, d))
         (Np.range ndoc)
  else Raise (ValueError "Error in BordaCount::rank : You must provide some ranking").

End with_runtime.
End BordaCount.

Module MarkovChain.

Inductive algo : Type := mc4 | mct.

(** A [pandas.DataFrame] of positions: one row per document, one column
    per ranking. *)
Record DataFrame : Type := {
  df_rows : Z;
  df_cols : Z;
  df_data : list (list Z)
}.

Definition get_matrix_shape (df : DataFrame) : Z * Z := (df_rows df, df_cols df).

(** [df.iloc[i]]. *)
Definition iloc (df : DataFrame) (i : Z) : result (list Z) := Np.get (df_data df) i.

(** [len(df.columns[df.iloc[i] < df.iloc[j]])]. *)
Definition count_less (ri rj : list Z) : Z :=
  Py.len (filter (fun '(a, b) => a < b) (zip ri rj)).

Definition get_partial_transition_matrix (df : DataFrame) (a : algo) (items lists : Z)
  : result (list (list Qc)) :=
  mapM (fun i =>
          mapM (fun j =>
                  ri ← iloc df i;
                  rj ← iloc df j;
                  let result := count_less ri rj in
                  if decide (result = 0 /\ i = j) then Ok (-1)%Qc
                  else if decide (Py.float lists / 2 < Py.float result)%Qc then Ok 0%Qc
                  else
                    match a with
                    | mc4 => Ok 1%Qc
                    | mct => Py.truediv (Py.float (lists - result)) (Py.float lists)
                    end)
               (Np.range items))
       (Np.range items).

(** Python's [sum] over a slice of a float array. *)
Definition py_sum (l : list Qc) : Qc := foldl Qcplus 0%Qc l.

(** The division is numpy's and applies to the entries only; the loop
    rewrites the diagonal of each row from the rest of that row. *)
Definition get_normalized_transition_matrix (p_matrix : list (list Qc)) (items : Z)
  : list (list Qc) :=
  let p_matrix : list (list Qc) :=
    fmap (fun row : list Qc => fmap (fun x => x / Py.float items)%Qc row) p_matrix in
  imap (fun i row =>
          let result1 := py_sum (drop (S i) (take (Z.to_nat items) row)) in
          let result2 := py_sum (take i row) in
          let result := (result1 + result2)%Qc in
          <[i := (1 - result)%Qc]> row)
       p_matrix.

Definition get_ergodic_transition_matrix (n_matrix : list (list Qc)) (items : Z)
  (erg_number : Qc) : result (list (list Qc)) :=
  let scaled : list (list Qc) :=
    fmap (fun row : list Qc => fmap (fun x => x * (1 - erg_number))%Qc row) n_matrix in
  shift ← Py.truediv erg_number (Py.float items);
  Ok (fmap (fun row : list Qc => fmap (fun x => x + shift)%Qc row) scaled).

Definition get_initial_distribution_matrix (items : Z) : result (list Qc) :=
  p ← Py.truediv 1%Qc (Py.float items);
  Ok (Py.repeat_list p items).

(** [v.dot(m)] for a vector and a matrix stored by rows. *)
Definition dot (v : list Qc) (m : list (list Qc)) : list Qc :=
  foldl (fun acc '(x, row) => zip_with Qcplus acc (fmap (Qcmult x) row))
        (replicate (length v) 0%Qc) (zip v m).

Definition Qcabs (x : Qc) : Qc := if decide (x < 0)%Qc then (- x)%Qc else x.

(** The [while counter <= iterations] loop; [fuel] is the number of
    iterations that remain. *)
Fixpoint stationary_loop (fuel : nat) (state_matrix : list Qc)
  (transition_matrix : list (list Qc)) (precision : Qc) : list Qc :=
  match fuel with
  | O => state_matrix
  | S fuel' =>
      let current_state_matrix := state_matrix in
      let new_state_matrix := dot state_matrix transition_matrix in
      let error := zip_with Qcminus new_state_matrix current_state_matrix in
      if forallb (fun e => bool_decide (Qcabs e < precision)%Qc) error
      then state_matrix
      else stationary_loop fuel' new_state_matrix transition_matrix precision
  end.

Definition get_stationary_distribution_matrix (state_matrix : list Qc)
  (transition_matrix : list (list Qc)) (precision : Qc) (iterations : Z) : list Qc :=
  stationary_loop (Z.to_nat iterations) state_matrix transition_matrix precision.

Definition get_aggregated_ranks (matrix : list Qc) : result (list Z) :=
  let '(a, _) :=
    foldl (fun '(a, rank) num =>
             match Py.dict_get num a with
             | Some _ => (a, rank)
             | None => (Py.dict_set num rank a, rank + 1)
             end)
          ([], 1)
          (Py.stable_sort (fun x y => bool_decide (y <= x)%Qc) matrix) in
  mapM (fun i => match Py.dict_get i a with
                 | Some r => Ok r
                 | None => Raise KeyError
                 end) matrix.

(** [index_col] is [None] at the only call site: the keys are
    [np.arange(0, len(df.index) + 1)], cut by [zip] to the ranks. *)
Definition get_mapped_final_ranks (df : DataFrame) (final_ranks : list Z)
  : list (Z * Z) :=
  let items := seqZ 0 (df_rows df + 1) in
  foldl (fun ranks '(item, rank) => Py.dict_set item rank ranks) [] (zip items final_ranks).

Definition mc4_aggregator (df : DataFrame) (a : algo) (precision : Qc)
  (iterations : Z) (erg_number : Qc) : result (list (Z * Z)) :=
  let '(rows, cols) := get_matrix_shape df in
  partial_transition_matrix ← get_partial_transition_matrix df a rows cols;
  let normalized_transition_matrix :=
    get_normalized_transition_matrix partial_transition_matrix rows in
  ergodic_transition_matrix ←
    get_ergodic_transition_matrix normalized_transition_matrix rows erg_number;
  initial_distribution_matrix ← get_initial_distribution_matrix rows;
  let stationary_distribution_matrix :=
    get_stationary_distribution_matrix initial_distribution_matrix
      ergodic_transition_matrix precision iterations in
  final_ranks ← get_aggregated_ranks stationary_distribution_matrix;
  Ok (get_mapped_final_ranks df final_ranks).

(** The defaults of [mc4_aggregator]. *)
Definition default_precision : Qc := Q2Qc (1 # 10000000).
Definition default_iterations : Z := 200.
Definition default_erg_number : Qc := Q2Qc (15 # 100).

Section with_runtime.
Context {DocId : Type} `{Countable DocId} `{PySet DocId}.

Definition rank_by_id (rankings : list (list DocId)) : result (list (Qc * DocId)) :=
  let docs := Aggregator.get_unique_doc_ids rankings in
  let nrank := Py.len rankings in
  let ndoc := Py.len (set_iter docs) in
  if decide (0 < Py.len rankings) then
    let '(map_doc_ids, map_ids_doc) := Aggregator.index_docs docs in
    let paddings := fmap (fun rank => set_diff_iter docs rank) rankings in
    ndranks ←
      mapM (fun '(rank, padding) =>
              ids ← mapM (Aggregator.dict_lookup map_doc_ids) rank;
              pad_ids ← mapM (Aggregator.dict_lookup map_doc_ids) padding;
              Aggregator.assign_row ndoc (ids ++ pad_ids))
           (zip rankings paddings);
    ndpos ←
      foldlM (fun ndpos '(i, rank) =>
                foldlM (fun ndpos '(pos, doc) =>
                          Np.set2 ndpos (doc - 1) i (pos + 1))
                       ndpos (imap (fun pos doc => (Z.of_nat pos, doc)) rank))
             (Np.zeros2 ndoc nrank)
             (imap (fun i rank => (Z.of_nat i, rank)) ndranks);
    mc4 ← mc4_aggregator {| df_rows := ndoc; df_cols := nrank; df_data := ndpos |}
             mc4 default_precision default_iterations default_erg_number;
    let size := ndoc in
    rank ← mapM (fun '(item, rank) =>
                   d ← Aggregator.dict_lookup map_ids_doc (item + 1);
                   Ok (Py.float (size - rank), d))
                mc4;
    Ok (Py.stable_sort (fun x y => bool_decide (- x.1 <= - y.1)%Qc) rank)
  else Raise (ValueError "Error in MarkovChain::rank : You must provide some ranking").

End with_runtime.
End MarkovChain.

(** ** Reference implementations of the runtime classes

    One admissible behaviour of each class, used to run the model: sets that
    keep each element at the place of its last insertion, and an argsort by
    stable insertion. *)

Definition list_set_ops (A : Type) `{EqDecision A} : PySet A :=
  {| set_iter := remove_dups;
     set_diff_iter := fun l r => list_difference (remove_dups l) r |}.

Definition stable_argsort (data : list Z) : list Z :=
  fmap fst (Py.stable_sort (fun p q => bool_decide (p.2 <= q.2))
                          (imap (fun i x => (Z.of_nat i, x)) data)).

Definition insertion_argsort : Argsort := {| argsort := stable_argsort |}.

(** ** Strings: [in], [split] and [int] *)

Module PyStr.

(** [sep in s] for a one-character [sep]. *)
Fixpoint contains (sep : ascii) (s : string) : bool :=
  match s with
  | EmptyString => false
  | String c s' => if decide (c = sep) then true else contains sep s'
  end.

(** [s.split(sep)] for a one-character [sep]. *)
Fixpoint split (sep : ascii) (s : string) : list string :=
  match s with
  | EmptyString => [EmptyString]
  | String c s' =>
      if decide (c = sep) then EmptyString :: split sep s'
      else match split sep s' with
           | [] => [String c EmptyString]
           | h :: t => String c h :: t
           end
  end.

(** ASCII whitespace as [int] skips it: tab to carriage return, the four
    separators 28 to 31, and space. *)
Definition is_space (c : ascii) : bool :=
  let n := nat_of_ascii c in
  bool_decide (9 <= n <= 13)%nat || bool_decide (28 <= n <= 31)%nat || bool_decide (n = 32)%nat.

Fixpoint lstrip (s : list ascii) : list ascii :=
  match s with
  | [] => []
  | c :: s' => if is_space c then lstrip s' else s
  end.

Definition strip (s : list ascii) : list ascii :=
  reverse (lstrip (reverse (lstrip s))).

Definition digit_value (c : ascii) : option Z :=
  let n := nat_of_ascii c in
  if decide (48 <= n <= 57)%nat then Some (Z.of_nat n - 48) else None.

(** Decimal digits, with single underscores allowed between digits. *)
Fixpoint parse_digits (acc : Z) (after_digit : bool) (s : list ascii) : option Z :=
  match s with
  | [] => if after_digit then Some acc else None
  | c :: s' =>
      if decide (c = "_"%char) then
        if after_digit then parse_digits acc false s' else None
      else
        match digit_value c with
        | Some d => parse_digits (10 * acc + d) true s'
        | None => None
        end
  end.

(** [int(s)] in base 10, on ASCII text: surrounding whitespace, an
    optional sign, digits.  Bytes above 127 are rejected. *)
Definition int (s : string) : result Z :=
  let invalid := Raise (ValueError "invalid literal for int() with base 10") in
  match strip (String.list_ascii_of_string s) with
  | c :: body =>
      if decide (c = "-"%char) then
        match parse_digits 0 false body with Some z => Ok (- z) | None => invalid end
      else if decide (c = "+"%char) then
        match parse_digits 0 false body with Some z => Ok z | None => invalid end
      else
        match parse_digits 0 false (c :: body) with Some z => Ok z | None => invalid end
  | [] => invalid
  end.

(** [str(n)] for a natural number. *)
Definition str (n : nat) : string := NilZero.string_of_uint (Nat.to_uint n).

End PyStr.

(** ** atri/manager/filesystem.py: [SearchManager] *)

(** [atri.core.metrics.get_metric]: the registry that maps a metric name to
    its function.  Its module is not among the sources, so the registry is an
    operation of a class. *)
Class MetricRegistry : Type := { get_metric : string -> result metric_fn }.

(** A hit of the search engine, and the engine itself. *)
Record Hit : Type := { hit_name : string; hit_score : Qc; hit_pos : Z }.

Class Searcher : Type := { searcher_search : string -> kwargs -> result (list Hit) }.

(** A relevance judgment: a [dict] from document name to grade, or a
    collection of relevant names. *)
Inductive Qrel : Type :=
| QrelDict (d : gmap string Qc)
| QrelSet (s : gset string).

Module SearchManager.
Section with_env.
Context `{MetricRegistry} `{Searcher}.

Definition DEFAULT_METRIC_LIST : list string :=
  ["ndcg@3"; "ndcg@5"; "ndcg@10"; "ndcg@20"; "precision@3"; "precision@5";
   "precision@10"; "recall@3"; "recall@5"; "recall@10"]%string.

Definition split_limit (metric : string) : result (string * option Z) :=
  if PyStr.contains "@" metric then
    let metric_and_k := PyStr.split "@" metric in
    name ← Np.get metric_and_k 0;
    k_text ← Np.get metric_and_k 1;
    k ← PyStr.int k_text;
    Ok (name, Some k)
  else Ok (metric, None).

(** [if k:] holds for an int other than zero. *)
Definition __metric_handle (metric : string) (kw : kwargs) : result (metric_fn * kwargs) :=
  '(metric_name, k) ← split_limit metric;
  let kw :=
    match k with
    | Some k => if decide (k = 0) then kw else set_limit k kw
    | None => kw
    end in
  fn ← get_metric metric_name;
  Ok (fn, kw).

Definition evaluate (metric : string) (ground_truth : list Qc) (kw : kwargs)
  : result Qc * list Qc :=
  match __metric_handle metric kw with
  | Ok (metric_func, kw) => metric_func kw ground_truth
  | Raise e => (Raise e, ground_truth)
  end.

(** [hits_json], an insertion-ordered dictionary from name to the pair of
    score and position. *)
Definition __extract_hits (hits : list Hit) : list (string * (Qc * Z)) :=
  foldl (fun hits_json hit =>
           Py.dict_set (hit_name hit) (hit_score hit, hit_pos hit + 1) hits_json)
        [] hits.

Definition truth (qrel : Qrel) (x : string) : result Qc :=
  match qrel with
  | QrelDict d => match d !! x with Some g => Ok g | None => Raise KeyError end
  | QrelSet s => Ok (if decide (x ∈ s) then 1%Qc else 0%Qc)
  end.

Definition qrel_len (qrel : Qrel) : Z :=
  match qrel with
  | QrelDict d => Z.of_nat (size d)
  | QrelSet s => Z.of_nat (size s)
  end.

(** The loop [for metric in metrics] of one query; its state is the table
    of handles, the running sums, and the list [hits_evaluated] that every
    metric function receives. *)
Definition metrics_loop (qrel : Qrel) (metrics : list string)
  (st : gmap string (metric_fn * kwargs) * gmap string Qc * list Qc)
  : result (gmap string (metric_fn * kwargs) * gmap string Qc * list Qc) :=
  foldlM (fun '(metrics_handle, evaluation, hits_evaluated) metric =>
            '(fn, params) ← Aggregator.dict_lookup metrics_handle metric;
            let params := set_nrel (qrel_len qrel) params in
            let metrics_handle := <[metric := (fn, params)]> metrics_handle in
            acc ← Aggregator.dict_lookup evaluation metric;
            let '(r, hits_evaluated) := fn params hits_evaluated in
            v ← r;
            Ok (metrics_handle, <[metric := (acc + v)%Qc]> evaluation, hits_evaluated))
         st metrics.

(** The body of the loop [for qry, qrel in query_generator]; its state is
    the table of handles, the running sums and [ratio]. *)
Definition query_body (metrics : list string) (kw : kwargs)
  (st : gmap string (metric_fn * kwargs) * gmap string Qc * Qc) (q : string * Qrel)
  : result (gmap string (metric_fn * kwargs) * gmap string Qc * Qc) :=
  let '(metrics_handle, evaluation, ratio) := st in
  let '(qry, qrel) := q in
  hits ← match searcher_search qry kw with
          | Ok hits => Ok hits
          | Raise e => Raise (FileSystemError "Search failed.")
          end;
  let response := __extract_hits hits in
  hits_evaluated ← mapM (fun '(name, _) => truth qrel name) response;
  '(metrics_handle, evaluation, _) ←
    metrics_loop qrel metrics (metrics_handle, evaluation, hits_evaluated);
  Ok (metrics_handle, evaluation, (ratio + 1)%Qc).

(** The body of the closing loop: [evaluation[metric] /= ratio]. *)
Definition mean_body (ratio : Qc) (evaluation : gmap string Qc) (metric : string)
  : result (gmap string Qc) :=
  acc ← Aggregator.dict_lookup evaluation metric;
  q ← Py.truediv acc ratio;
  Ok (<[metric := q]> evaluation).

Definition multiquery_search (query_generator : list (string * Qrel))
  (metrics : option (list string)) (kw : kwargs) : result (gmap string Qc) :=
  let metrics :=
    match metrics with
    | Some (m :: ms) => m :: ms
    | _ => DEFAULT_METRIC_LIST
    end in
  metrics_handle ←
    foldlM (fun handles metric =>
              h ← __metric_handle metric kw;
              Ok (<[metric := h]> handles))
           ∅ metrics;
  let evaluation : gmap string Qc :=
    foldl (fun ev metric => <[metric := 0%Qc]> ev) ∅ metrics in
  let ratio := 0%Qc in
  '(metrics_handle, evaluation, ratio) ←
    foldlM (query_body metrics kw) (metrics_handle, evaluation, ratio) query_generator;
  foldlM (mean_body ratio) evaluation metrics.

End with_env.
End SearchManager.

(** ** Stand-ins for the parts of the environment that are not at hand *)

(** Rational stand-ins for numpy's [log2] and [power]: exact on powers of
    two and on integer exponents, which is all the examples below use. *)
Definition dyadic_numpy : NumpyFloat :=
  {| np_log2 := fun i => Py.float (Z.log2 i);
     np_power2 := fun x => Py.float (2 ^ (Qnum (this x) / Z.pos (Qden (this x)))) |}.

(** Modelled from the spec: the registry of [atri/core/metrics/__init__.py],
    which is not among the sources; the spec names the metrics precision,
    recall, f1 and ndcg. *)
Definition spec_registry `{NumpyFloat} : MetricRegistry :=
  {| get_metric := fun name =>
       if decide (name = "precision"%string) then Ok Defaults.precision
       else if decide (name = "recall"%string) then Ok Defaults.recall
       else if decide (name = "f1"%string) then Ok Defaults.f1
       else if decide (name = "ndcg"%string) then Ok Ndcg.NDCG
       else Raise KeyError |}.

(** A search engine that answers every query with the hits listed for it. *)
Definition table_searcher (table : list (string * list Hit)) : Searcher :=
  {| searcher_search := fun qry _ =>
       match Py.dict_get qry table with
       | Some hits => Ok hits
       | None => Ok []
       end |}.

(** ** atri/core/primitives/document.py and [QueryManager.keywords_query] *)

(** An [ADoc]: its name and its fields, a dictionary from field name to
    text, given by its items in insertion order. *)
Record ADoc : Type := { adoc_name : string; adoc_fields : list (string * string) }.

Module QueryManager.

(** [sep.join(parts)]. *)
Definition join (sep : string) (parts : list string) : string :=
  match parts with
  | [] => ""%string
  | x :: parts' => foldl (fun acc y => acc +:+ sep +:+ y)%string x parts'
  end.

(** [fields if fields else doc.fields.keys()].  The argument [fields] is
    [None] or a set of names; [None], the empty set and the key view of a
    document without fields are all false, and are written [[]]. *)
Definition choose_fields (fields : list string) (doc : ADoc) : list string :=
  match fields with
  | [] => (adoc_fields doc).*1
  | _ :: _ => fields
  end.

(** ['\n'.join([value for field, value in doc.fields.items() if field in fields])]. *)
Definition doc_keywords (fields : list string) (doc : ADoc) : string :=
  join (String "010" "")
       ((filter (fun '(field, _) => field ∈ fields) (adoc_fields doc)).*2).

(** The argument is one document or a generator of documents. *)
Definition keywords_query (atri_docs : ADoc + list ADoc) (fields : list string) : string :=
  match atri_docs with
  | inl doc =>
      let fields := choose_fields fields doc in
      doc_keywords fields doc
  | inr docs =>
      snd (foldl (fun '(fields, keywords) atri_doc =>
                    let fields := choose_fields fields atri_doc in
                    (fields, keywords +:+ doc_keywords fields atri_doc)%string)
                 (fields, ""%string) docs)
  end.

End QueryManager.

(** ** atri/core/ranking/search.py: the aggregation step of [ASearcher] *)

(** A hit of a whoosh result list, as far as the aggregation reads it. *)
Record RankedHit : Type := { docnum : Z; score : Qc }.

Module ASearcher.

(** The objects [BordaCount()] and [MarkovChain()]. *)
Inductive aggregator : Type := a_BordaCount | a_MarkovChain.

Section with_runtime.
Context `{PySet Z} `{Argsort}.

Definition _get_aggregation_method (aggr : string) : result aggregator :=
  if decide (aggr = "borda_count"%string) then Ok a_BordaCount
  else if decide (aggr = "markov_chain"%string) then Ok a_MarkovChain
  else Raise (ValueError "Invalid aggregation method").

(** [aggregator.rank_by_id(rankings)], by the class of [aggregator]. *)
Definition rank_by_id (a : aggregator) (rankings : list (list Z)) : result (list (Qc * Z)) :=
  match a with
  | a_BordaCount => BordaCount.rank_by_id rankings
  | a_MarkovChain => MarkovChain.rank_by_id rankings
  end.

(** The value is the list [new_rank] that is handed to whoosh's
    [Results]. *)
Definition _rank_aggregation (results : list (list RankedHit)) (a : aggregator)
  : result (list (Qc * Z)) :=
  let rankings := fmap (fun rank : list RankedHit => fmap docnum rank) results in
  rank_by_id a rankings.

End with_runtime.
End ASearcher.

(** ** More stand-ins *)

(** A search engine whose every search fails. *)
Definition failing_searcher : Searcher :=
  {| searcher_search := fun _ _ => Raise (Exception "index not found") |}.


(** * Closed forms used in the statements *)

(** ** Metrics *)

(** What the padding step leaves in the argument object. *)
Definition padded (v : list Qc) (limit : Z) : list Qc :=
  v ++ replicate (Z.to_nat (limit - Py.len v)) 0%Qc.

(** Sum and number of the entries above zero. *)
Definition positive_sum (w : list Qc) : Qc :=
  foldr Qcplus 0%Qc (filter (fun x => 0 < x)%Qc w).

Definition positive_count (w : list Qc) : Z :=
  Py.len (filter (fun x => 0 < x)%Qc w).

(** The value of [recall], read off the source. *)
Definition recall_value (v : list Qc) (limit nrel : option Z) : Qc :=
  let n := Py.len v in
  let L := default n limit in
  let nr := Z.min (default n nrel) n in
  let window := Py.slice_stop (padded v L) (L + 1) in
  if decide (0 < nr) then (positive_sum window / Py.float nr)%Qc else 0%Qc.

(** The value of [recall] as the specification words it: the default and
    the clamp of [nrel] refer to the padded vector, and zero is returned
    exactly when [nrel] is zero. *)
Definition recall_as_claimed (v : list Qc) (limit nrel : option Z) : Qc :=
  let L := default (Py.len v) limit in
  let rank := padded v L in
  let nr := Z.min (default (Py.len rank) nrel) (Py.len rank) in
  let window := Py.slice_stop rank (L + 1) in
  if decide (nr = 0) then 0%Qc else (positive_sum window / Py.float nr)%Qc.

(** The value of [precision], read off the source. *)
Definition precision_value (v : list Qc) (limit : option Z) : Qc :=
  let L := default (Py.len v) limit in
  let window := Py.slice_stop (padded v L) (L + 1) in
  if decide (0 < L) then (Py.float (positive_count window) / Py.float L)%Qc else 0%Qc.


(** ** Metric specifications *)

(** The characters [str] produces: decimal digits only. *)
Definition is_digit (c : ascii) : Prop := (48 <= nat_of_ascii c <= 57)%nat.

(** ** Multi-query evaluation *)

(** The metrics that are evaluated: the caller's list, or the default list
    when none or an empty one is given. *)
Definition effective_metrics (metrics : option (list string)) : list string :=
  match metrics with
  | Some (m :: ms) => m :: ms
  | _ => SearchManager.DEFAULT_METRIC_LIST
  end.

(** The relevance vector of one query: [truth] applied to the names of the
    hits in rank order. *)
Definition relevance_vector `{Searcher} (kw : kwargs) (q : string * Qrel) : result (list Qc) :=
  hits ← match searcher_search q.1 kw with
          | Ok hits => Ok hits
          | Raise e => Raise (FileSystemError "Search failed.")
          end;
  mapM (SearchManager.truth q.2) (SearchManager.__extract_hits hits).*1.

(** The values of the metrics on one relevance vector, in the order of the
    handles; every metric function receives the list its predecessor left. *)
Fixpoint metric_values (handles : list (metric_fn * kwargs)) (nrel : Z) (obj : list Qc)
  : result (list Qc) :=
  match handles with
  | [] => Ok []
  | (fn, params) :: handles' =>
      match fn (set_nrel nrel params) obj with
      | (Ok v, obj') => vs ← metric_values handles' nrel obj'; Ok (v :: vs)
      | (Raise e, _) => Raise e
      end
  end.

Definition query_values `{Searcher} (handles : list (metric_fn * kwargs)) (kw : kwargs)
  (q : string * Qrel) : result (list Qc) :=
  rv ← relevance_vector kw q;
  metric_values handles (SearchManager.qrel_len q.2) rv.

(** The sum over the queries of the [j]-th metric's value. *)
Definition metric_sum (j : nat) (vals : list (list Qc)) : Qc :=
  foldr Qcplus 0%Qc (fmap (fun row => default 0%Qc (row !! j)) vals).

(** Keyword arguments that differ in [nrel] at most. *)
Definition same_options (p q : kwargs) : Prop :=
  kw_limit p = kw_limit q /\ kw_alternate p = kw_alternate q.

(** Two hits, of which a graded judgment knows the first only. *)
Definition two_hits : list Hit :=
  [ {| hit_name := "d1"; hit_score := Py.float 3; hit_pos := 0 |};
    {| hit_name := "d2"; hit_score := Py.float 2; hit_pos := 1 |} ].


(** ** Rank aggregation *)

(** The universe of a list of rankings, in the order in which the set
    [docs] is iterated. *)
Definition universe {DocId} `{PySet DocId} (rankings : list (list DocId)) : list DocId :=
  set_iter (Aggregator.get_unique_doc_ids rankings).

(** The 1-based index that [enumerate(docs, start=1)] gives a document of
    the universe [U]; 0 for a stranger. *)
Definition doc_id {DocId} `{EqDecision DocId} (U : list DocId) (d : DocId) : Z :=
  match list_find (fun x => x = d) U with
  | Some (i, _) => 1 + Z.of_nat i
  | None => 0
  end.
(** The dictionaries after the loop over a universe [U]. *)
Definition index_list {DocId} `{Countable DocId} (U : list DocId) : gmap DocId Z * gmap Z DocId :=
  foldl (fun '(map_doc_ids, map_ids_doc) '(i, docid) =>
           (<[docid := i]> map_doc_ids, <[i := docid]> map_ids_doc))
        (∅, ∅) (imap (fun i docid => (1 + Z.of_nat i, docid)) U).


(** The points a row of ids gives to the id [k]: [n - (i + 1)] at the
    0-based place [i]. *)
Definition points (n : Z) (row : list Z) (k : Z) : Z :=
  match list_find (fun x => x = k) row with
  | Some (i, _) => n - (Z.of_nat i + 1)
  | None => 0
  end.

(** The Borda scores of one row, indexed by id minus one. *)
Definition borda_row (n : Z) (row : list Z) : list Z := points n row <$> seqZ 1 n.

(** A ranking as a row of ids: the ids of its documents, then the ids it
    misses in the order the set difference yields them. *)
Definition id_row {DocId} `{EqDecision DocId} `{PySet Z} (U : list DocId) (rank : list DocId)
  : list Z :=
  let ids := doc_id U <$> rank in
  ids ++ set_diff_iter (seqZ 1 (Py.len U)) ids.

(** The total Borda score of the id [k]. *)
Definition borda_total {DocId} `{EqDecision DocId} `{PySet Z} (U : list DocId)
  (rankings : list (list DocId)) (k : Z) : Z :=
  foldr (fun rank acc => points (Py.len U) (id_row U rank) k + acc) 0 rankings.

(** The array [borda_rank] after [t] rounds of the loop of [_rank_score]. *)
Definition partial_row (n : Z) (row : list Z) (t : nat) : list Z :=
  (fun k => if decide (k ∈ take t row) then points n row k else 0) <$> seqZ 1 n.

(** The total of the points that the rows give to the id [k], and the
    array [data] of these totals. *)
Definition row_total (n : Z) (rows : list (list Z)) (k : Z) : Z :=
  foldr (fun row acc => points n row k + acc) 0 rows.

Definition totals (n : Z) (rows : list (list Z)) : list Z := row_total n rows <$> seqZ 1 n.

(** The pairs of index and key that the reference argsort sorts. *)
Definition indexed (data : list Z) : list (Z * Z) := imap (fun i x => (Z.of_nat i, x)) data.

(** Ascending keys, and ascending indices among equal keys. *)
Definition key_then_index (p q : Z * Z) : Prop := p.2 <= q.2 /\ (p.2 = q.2 -> p.1 < q.1).


(** A matrix stored by rows has [r] rows of [c] entries each. *)
Definition has_shape {A} (r c : nat) (m : list (list A)) : Prop :=
  length m = r /\ Forall (fun row => length row = c) m.


(** ** Discounted gain *)

(** What the statements on NDCG use of numpy's [log2] and [power] on
    doubles: [log2(2)] is at least 1, [2 ** 0] is 1, and both functions are
    monotone. *)
Class NumpyFloatLaws `{NumpyFloat} : Prop := {
  np_log2_2 : (1 <= np_log2 2)%Qc;
  np_log2_mono i j : 2 <= i <= j -> (np_log2 i <= np_log2 j)%Qc;
  np_power2_0 : np_power2 0%Qc = 1%Qc;
  np_power2_mono x y : (x <= y)%Qc -> (np_power2 x <= np_power2 y)%Qc
}.

(** The gain [dcg] takes from a grade, and the discount of the 0-based
    place [p]. *)
Definition gain `{NumpyFloat} (alternate : bool) (r : Qc) : Qc :=
  if alternate then (np_power2 r - 1)%Qc else r.

Definition discount `{NumpyFloat} (alternate : bool) (p : nat) : Qc :=
  if alternate then (/ np_log2 (Z.of_nat p + 2))%Qc
  else match p with
       | O => 1%Qc
       | S _ => (/ np_log2 (Z.of_nat p + 1))%Qc
       end.

(** The sum of the gains [g], the entry at place [i] weighted by
    [w (p + i)]. *)
Fixpoint discounted_sum (w : nat -> Qc) (p : nat) (g : list Qc) : Qc :=
  match g with
  | [] => 0%Qc
  | x :: g' => (x * w p + discounted_sum w (S p) g')%Qc
  end.

(** The vector [ndcg] works on: [rel] padded with zeros up to [nranks],
    then cut to [nranks] entries. *)
Definition ndcg_window (rel : list Qc) (nranks : Z) : list Qc :=
  take (Z.to_nat nranks) (rel ++ replicate (Z.to_nat (nranks - Py.len rel)) 0%Qc).

(** ** Sums and ranks *)

(** The sum of a list of ints. *)
Definition zsum (l : list Z) : Z := foldr Z.add 0 l.

(** The dense rank of a value among the entries of [matrix]: one more
    than the number of distinct entries above it. *)
Definition dense_rank (matrix : list Qc) (x : Qc) : Z :=
  1 + Py.len (remove_dups (filter (fun y => x < y)%Qc matrix)).


(** * Facts about the Python and numpy primitives *)

Section primitives.

Lemma np_get_lookup {A} (l : list A) (i : nat) x :
  l !! i = Some x -> Np.get l (Z.of_nat i) = Ok x.
Proof.
  intros Hi. pose proof (lookup_lt_Some _ _ _ Hi).
  unfold Np.get, Np.index, Py.len.
  rewrite decide_True by lia. cbn. by rewrite Nat2Z.id, Hi.
Qed.

End primitives.

Section list_relations.
Context {A B : Type}.

Lemma Forall2_impl_elem (P Q : A -> B -> Prop) l k :
  Forall2 P l k -> (forall x y, x ∈ l -> P x y -> Q x y) -> Forall2 Q l k.
Proof.
  induction 1 as [|x y l k Hxy _ IH]; intros HPQ; constructor.
  - apply HPQ; [left|done].
  - apply IH. intros x' y' Hin. apply HPQ. by right.
Qed.

Lemma Forall_impl_elem (P Q : A -> Prop) l :
  Forall P l -> (forall x, x ∈ l -> P x -> Q x) -> Forall Q l.
Proof. rewrite !Forall_forall. auto. Qed.

Lemma Forall2_zip_with_r {C D} (P : A -> B -> Prop) (Q : A -> C -> Prop)
  (R : A -> D -> Prop) (f : B -> C -> D) l k1 k2 :
  Forall2 P l k1 -> Forall2 Q l k2 ->
  (forall x y z, P x y -> Q x z -> R x (f y z)) ->
  Forall2 R l (zip_with f k1 k2).
Proof.
  intros HP. revert k2. induction HP as [|x y l k1 Hxy _ IH]; intros k2 HQ HR.
  - apply Forall2_nil_inv_l in HQ as ->. constructor.
  - apply Forall2_cons_inv_l in HQ as (z & k2' & Hxz & HQ & ->).
    cbn. constructor; eauto.
Qed.

End list_relations.

Section result_lists.
Context {A B : Type}.
Implicit Types (f : A -> result B).

Lemma mapM_result_nil f : mapM f [] = Ok [].
Proof. done. Qed.

Lemma mapM_result_cons f x l :
  mapM f (x :: l) = (y ← f x; ys ← mapM f l; Ok (y :: ys)).
Proof. done. Qed.

Lemma mapM_result_Ok f l ys :
  mapM f l = Ok ys <-> Forall2 (fun x y => f x = Ok y) l ys.
Proof.
  revert ys. induction l as [|x l IH]; intros ys.
  - rewrite mapM_result_nil. split.
    + intros [= <-]. constructor.
    + by inversion 1.
  - rewrite mapM_result_cons. split.
    + destruct (f x) as [y|e] eqn:Hx; [|done]. cbn.
      destruct (mapM f l) as [ys'|e] eqn:Hl; [|done]. cbn.
      intros [= <-]. constructor; [done|]. by apply IH.
    + inversion 1 as [|? y ? ys' Hx Hl]; subst. rewrite Hx. cbn.
      apply IH in Hl. by rewrite Hl.
Qed.

Lemma mapM_result_length f l ys : mapM f l = Ok ys -> length ys = length l.
Proof. intros Hl%mapM_result_Ok. symmetry. by eapply Forall2_length. Qed.

Lemma mapM_result_ext f g l : (forall x, f x = g x) -> mapM f l = mapM g l.
Proof.
  intros Hfg. induction l as [|x l IH]; [done|].
  by rewrite !mapM_result_cons, Hfg, IH.
Qed.

Lemma mapM_result_fmap {C} (g : C -> A) f l : mapM f (g <$> l) = mapM (f ∘ g) l.
Proof.
  induction l as [|x l IH]; [done|].
  rewrite fmap_cons, !mapM_result_cons, IH. done.
Qed.

End result_lists.



(** * Facts about the metric library *)

Section metric_facts.
Implicit Types (v w : list Qc) (kw : kwargs) (limit : Z).

Lemma float_lt a b : (Py.float a < Py.float b)%Qc <-> a < b.
Proof. unfold Py.float. by rewrite <-Z2Qc_inj_lt. Qed.

Lemma float_pos a : (0 < Py.float a)%Qc <-> 0 < a.
Proof. rewrite <-Z2Qc_inj_0. apply float_lt. Qed.

Lemma padded_ge v limit : limit <= Py.len v -> padded v limit = v.
Proof.
  intros Hle. unfold padded.
  replace (Z.to_nat (limit - Py.len v)) with 0%nat by lia.
  apply app_nil_r.
Qed.

Lemma zero_padding_run limit v :
  Defaults.zero_padding limit v = (Ok (), padded v limit).
Proof.
  unfold Defaults.zero_padding, mbind, M_bind, obj_len, obj_iadd, mret, M_ret.
  case_decide as Hlt; [done|].
  by rewrite padded_ge by lia.
Qed.

End metric_facts.

Section metric_runs.
Implicit Types (v w : list Qc) (kw : kwargs) (limit : Z).

Lemma recall_loop_sum w : Defaults.recall_loop w = positive_sum w.
Proof.
  unfold Defaults.recall_loop, positive_sum.
  assert (forall a, foldl (fun acc hit => if decide (0 < hit)%Qc then (acc + hit)%Qc else acc) a w
                    = (a + foldr Qcplus 0%Qc (filter (fun x => 0 < x)%Qc w))%Qc) as Hgen.
  { induction w as [|x w IH]; intros a; simpl.
    - by rewrite Qcplus_0_r.
    - rewrite IH, filter_cons. case_decide; simpl; [|done].
      by rewrite Qcplus_assoc. }
  by rewrite Hgen, Qcplus_0_l.
Qed.

Lemma precision_loop_count w :
  Defaults.precision_loop w = Py.float (positive_count w).
Proof.
  unfold Defaults.precision_loop, positive_count.
  assert (forall a, foldl (fun acc hit => if decide (0 < hit)%Qc then (acc + 1)%Qc else acc)
                      (Py.float a) w
                    = Py.float (a + Py.len (filter (fun x => 0 < x)%Qc w))) as Hgen.
  { induction w as [|x w IH]; intros a; simpl.
    - f_equal. unfold Py.len. simpl. lia.
    - rewrite filter_cons. case_decide; simpl.
      + unfold Py.float at 1. rewrite <-Z2Qc_inj_1, <-Z2Qc_inj_add.
        fold (Py.float (a + 1)). rewrite IH. f_equal. unfold Py.len. simpl. lia.
      + apply IH. }
  specialize (Hgen 0). unfold Py.float at 1 in Hgen. rewrite Z2Qc_inj_0 in Hgen.
  rewrite Hgen. f_equal.
Qed.

Lemma recall_run kw v :
  Defaults.recall kw v =
    (Ok (recall_value v (kw_limit kw) (kw_nrel kw)),
     padded v (default (Py.len v) (kw_limit kw))).
Proof.
  unfold Defaults.recall, mbind, M_bind, obj_len, obj_read, mret, M_ret, Py.get.
  rewrite zero_padding_run. f_equal. f_equal.
  unfold recall_value. rewrite recall_loop_sum.
  set (n := Py.len v). set (nr0 := default n (kw_nrel kw)).
  assert ((if decide (Py.float n < Py.float nr0)%Qc then Py.float n else Py.float nr0)
          = Py.float (Z.min nr0 n)) as ->.
  { case_decide as Hlt; rewrite float_lt in Hlt; f_equal; lia. }
  destruct (decide (0 < Py.float (Z.min nr0 n))%Qc) as [Hpos|Hpos];
    rewrite float_pos in Hpos; by case_decide.
Qed.

End metric_runs.

Section metric_runs2.
Implicit Types (v w : list Qc) (kw : kwargs) (limit : Z).

Lemma precision_run kw v :
  Defaults.precision kw v =
    (Ok (precision_value v (kw_limit kw)),
     padded v (default (Py.len v) (kw_limit kw))).
Proof.
  unfold Defaults.precision, mbind, M_bind, obj_len, obj_read, mret, M_ret, Py.get.
  rewrite zero_padding_run. f_equal. f_equal.
  unfold precision_value. by rewrite precision_loop_count.
Qed.

Lemma NDCG_run `{NumpyFloat} kw v :
  let rank := padded v (default (Py.len v) (kw_limit kw)) in
  Ndcg.NDCG kw v =
    (Ndcg.ndcg rank (default (Py.len rank) (kw_limit kw)) (default true (kw_alternate kw)),
     rank).
Proof.
  unfold Ndcg.NDCG, mbind, M_bind, obj_len, obj_read, M_lift, Py.get.
  by rewrite zero_padding_run.
Qed.

Lemma positive_count_bounds w : 0 <= positive_count w <= Py.len w.
Proof.
  unfold positive_count, Py.len.
  pose proof (length_filter (fun x => 0 < x)%Qc w). lia.
Qed.

Lemma slice_stop_all {A} (l : list A) stop : Py.len l <= stop -> Py.slice_stop l stop = l.
Proof.
  intros Hle. unfold Py.slice_stop, Py.len in *.
  case_decide; [lia|]. apply take_ge. lia.
Qed.

Lemma Qc_ratio_unit (c n : Z) :
  0 <= c <= n -> 0 < n -> (0 <= Py.float c / Py.float n <= 1)%Qc.
Proof.
  intros [Hc Hn] Hpos.
  assert (0 < Py.float n)%Qc as Hfn by by apply float_pos.
  assert (Py.float n <> 0%Qc) as Hne by (intros E; rewrite E in Hfn; by destruct (Qclt_not_eq _ _ Hfn)).
  split.
  - apply (Qcmult_le_mono_pos_r _ _ (Py.float n)); [done|].
    rewrite Qcmult_0_l. unfold Qcdiv. rewrite <-Qcmult_assoc, Qcmult_inv_l, Qcmult_1_r by done.
    rewrite <-Z2Qc_inj_0. unfold Py.float. by rewrite <-Z2Qc_inj_le.
  - apply (Qcmult_le_mono_pos_r _ _ (Py.float n)); [done|].
    rewrite Qcmult_1_l. unfold Qcdiv. rewrite <-Qcmult_assoc, Qcmult_inv_l, Qcmult_1_r by done.
    unfold Py.float. by rewrite <-Z2Qc_inj_le.
Qed.

End metric_runs2.

(** C1 (the code departs from the claim).  The claim says that recall,
    precision and NDCG leave their input vector as it was, also when padding
    is needed.  On the vector [[1]] with [limit = 3] each of the three leaves
    the caller's list as [[1; 0; 0]]: [rank] is the argument itself, and
    [rank += ...] extends it in place. *)
Theorem metrics_extend_short_input `{NumpyFloat} :
  let v := [1%Qc] in
  let kw := {| kw_limit := Some 3; kw_nrel := None; kw_alternate := None |} in
  (Defaults.recall kw v).2 = [1; 0; 0]%Qc /\
  (Defaults.precision kw v).2 = [1; 0; 0]%Qc /\
  (Ndcg.NDCG kw v).2 = [1; 0; 0]%Qc.
Proof. intros v kw. by rewrite recall_run, precision_run, NDCG_run. Qed.

(** A consequence of C1 for the evaluator, where one list serves all the
    metrics of a query: with [nrel = 5], [recall@3] of [[1]] is [1] on the
    fresh list and [1/5] once [ndcg@20] has padded the same list to twenty
    entries. *)
Lemma recall_after_padding_differs :
  let kw := {| kw_limit := Some 3; kw_nrel := Some 5; kw_alternate := None |} in
  (Defaults.recall kw [1%Qc]).1 = Ok 1%Qc /\
  (Defaults.recall kw (padded [1%Qc] 20)).1 = Ok (Q2Qc (1 # 5)).
Proof. split; rewrite recall_run; simpl; f_equal; by apply Qc_is_canon. Qed.

(** C3, counterexample.  On [[1]] with [limit = 3] and no [nrel], [recall]
    returns [1]: [nrel] was taken from the vector before the padding.  The
    claim's wording (default and clamp from the padded vector) gives [1/3]. *)
Lemma recall_nrel_default_counterexample :
  (Defaults.recall {| kw_limit := Some 3; kw_nrel := None; kw_alternate := None |} [1%Qc]).1
    = Ok 1%Qc /\
  recall_as_claimed [1%Qc] (Some 3) None = Q2Qc (1 # 3) /\
  (Defaults.recall {| kw_limit := Some 3; kw_nrel := None; kw_alternate := None |} [1%Qc]).1
    <> Ok (recall_as_claimed [1%Qc] (Some 3) None).
Proof.
  rewrite recall_run. simpl.
  assert (recall_value [1%Qc] (Some 3) None = 1%Qc) as -> by by apply Qc_is_canon.
  assert (recall_as_claimed [1%Qc] (Some 3) None = Q2Qc (1 # 3)) as -> by by apply Qc_is_canon.
  split_and!; [done..|]. intros [=].
Qed.

(** C3, as amended.  For every vector [v] and all keyword arguments,
    [recall] returns a value: [limit] defaults to [len(v)]; [nrel] defaults
    to [len(v)] and is clamped to [len(v)], both taken before any padding;
    [v] is padded on the right with zeros up to [limit]; the numerator is the
    sum of the entries above zero in the slice [rank[:limit + 1]]; the result
    is the numerator over [nrel], or zero when [nrel] is not above zero. *)
Theorem recall_value_spec kw v :
  (Defaults.recall kw v).1 =
    Ok (let n := Py.len v in
        let limit := default n (kw_limit kw) in
        let nrel := Z.min (default n (kw_nrel kw)) n in
        let rank := v ++ replicate (Z.to_nat (limit - n)) 0%Qc in
        let numerator := positive_sum (Py.slice_stop rank (limit + 1)) in
        if decide (0 < nrel) then (numerator / Py.float nrel)%Qc else 0%Qc).
Proof. by rewrite recall_run. Qed.

(** C7.  For every non-empty vector [v], [precision] called with [limit]
    equal to [len(v)], given or by default, returns a value between 0 and 1. *)
Theorem precision_unit_interval kw v :
  v <> [] ->
  kw_limit kw = None \/ kw_limit kw = Some (Py.len v) ->
  exists p, (Defaults.precision kw v).1 = Ok p /\ (0 <= p <= 1)%Qc.
Proof.
  intros Hv Hlimit. rewrite precision_run. eexists; split; [done|].
  assert (default (Py.len v) (kw_limit kw) = Py.len v) as HL by (by destruct Hlimit as [-> | ->]).
  unfold precision_value. rewrite HL, padded_ge, slice_stop_all by lia.
  assert (0 < Py.len v) by (unfold Py.len; destruct v; [done|simpl; lia]).
  rewrite decide_True by done.
  apply Qc_ratio_unit; [apply positive_count_bounds|done].
Qed.

Lemma precision_unit_interval_witness :
  exists p, (Defaults.precision no_kwargs [1%Qc; 0%Qc]).1 = Ok p /\ (0 <= p <= 1)%Qc.
Proof. apply precision_unit_interval; [done|by left]. Defined.

(** C5, counterexample.  On the empty vector [ndcg] returns [0.0] before it
    looks at [nranks]: with [nranks = 0] nothing is raised. *)
Lemma ndcg_empty_counterexample :
  @Ndcg.ndcg dyadic_numpy [] 0 true = Ok 0%Qc.
Proof. reflexivity. Qed.

(** C5, as amended.  For every [nranks < 1], [ndcg] raises the exception
    ["nranks < 1"] on every non-empty vector, and returns [0.0] on the empty
    one; on the empty vector it returns [0.0] whatever [nranks] is. *)
Theorem ndcg_nranks_guard `{NumpyFloat} rel nranks alternate :
  nranks < 1 ->
  Ndcg.ndcg rel nranks alternate =
    (if decide (rel = []) then Ok 0%Qc else Raise (Exception "nranks < 1")) /\
  (forall nranks' alternate', Ndcg.ndcg [] nranks' alternate' = Ok 0%Qc).
Proof.
  intros Hn. split; [|done]. unfold Ndcg.ndcg.
  destruct rel as [|x rel]; [done|].
  rewrite decide_False by (unfold Py.len; simpl; lia).
  by rewrite decide_True, decide_False by done.
Qed.

Lemma ndcg_nranks_guard_witness :
  @Ndcg.ndcg dyadic_numpy [1%Qc] 0 true = Raise (Exception "nranks < 1") /\
  (forall nranks' alternate', @Ndcg.ndcg dyadic_numpy [] nranks' alternate' = Ok 0%Qc).
Proof. apply (@ndcg_nranks_guard dyadic_numpy [1%Qc] 0 true). lia. Defined.


(** * Facts about metric specifications *)

Section metric_spec_strings.

Lemma contains_append sep s t :
  PyStr.contains sep (s +:+ String sep t) = true.
Proof. induction s as [|c s IH]; simpl; [by rewrite decide_True|by case_decide]. Qed.

Lemma split_no_sep sep s : PyStr.contains sep s = false -> PyStr.split sep s = [s].
Proof.
  induction s as [|c s IH]; simpl; [done|].
  case_decide; [done|]. intros Hs. by rewrite IH.
Qed.

Lemma split_append sep s t :
  PyStr.contains sep s = false ->
  PyStr.split sep (s +:+ String sep t) = s :: PyStr.split sep t.
Proof.
  induction s as [|c s IH]; simpl.
  - intros _. by rewrite decide_True.
  - case_decide; [done|]. intros Hs. by rewrite IH.
Qed.

Lemma digits_of_uint d :
  Forall is_digit (String.list_ascii_of_string (NilEmpty.string_of_uint d)).
Proof.
  induction d; simpl; [constructor|..];
    (constructor; [unfold is_digit; vm_compute; lia|done]).
Qed.

Lemma digits_of_str n : Forall is_digit (String.list_ascii_of_string (PyStr.str n)).
Proof.
  unfold PyStr.str, NilZero.string_of_uint.
  destruct (Nat.to_uint n) eqn:E; try (rewrite <-E; apply digits_of_uint).
  repeat constructor; unfold is_digit; vm_compute; lia.
Qed.

Lemma is_digit_not_space c : is_digit c -> PyStr.is_space c = false.
Proof.
  unfold is_digit, PyStr.is_space. intros Hc.
  rewrite !bool_decide_eq_false_2 by lia. done.
Qed.

Lemma lstrip_digits l : Forall is_digit l -> PyStr.lstrip l = l.
Proof. destruct 1 as [|c l Hc _]; simpl; [done|]. by rewrite is_digit_not_space. Qed.

Lemma strip_digits l : Forall is_digit l -> PyStr.strip l = l.
Proof.
  intros Hl. unfold PyStr.strip.
  rewrite (lstrip_digits l), lstrip_digits, reverse_involutive; [done| |done].
  by apply Forall_reverse.
Qed.

Lemma contains_digits sep s :
  ~ is_digit sep -> Forall is_digit (String.list_ascii_of_string s) ->
  PyStr.contains sep s = false.
Proof.
  intros Hsep. induction s as [|c s IH]; simpl; [done|].
  intros Hall. inversion Hall as [|? ? Hc Hs]; subst.
  case_decide; [by subst|auto].
Qed.

Lemma parse_digits_uint d acc b :
  d <> Decimal.Nil \/ b = true ->
  PyStr.parse_digits (Z.of_nat acc) b (String.list_ascii_of_string (NilEmpty.string_of_uint d))
  = Some (Z.of_nat (Nat.of_uint_acc d acc)).
Proof.
  revert acc b.
  induction d as [|d IH|d IH|d IH|d IH|d IH|d IH|d IH|d IH|d IH|d IH]; intros acc b Hb;
    [destruct Hb as [?| ->]; done|..];
    cbn [NilEmpty.string_of_uint String.list_ascii_of_string PyStr.parse_digits Nat.of_uint_acc];
    rewrite decide_False by done;
    match goal with
    | |- context [PyStr.digit_value ?c] =>
        let v := eval vm_compute in (PyStr.digit_value c) in
        change (PyStr.digit_value c) with v
    end;
    cbv iota beta;
    rewrite <-(IH _ true) by (by right); f_equal; rewrite Nat.tail_mul_spec; lia.
Qed.

Lemma int_str n : PyStr.int (PyStr.str n) = Ok (Z.of_nat n).
Proof.
  unfold PyStr.int. rewrite strip_digits by apply digits_of_str.
  pose proof (DecimalNat.Unsigned.of_to n) as Hn. unfold Nat.of_uint in Hn.
  pose proof (parse_digits_uint (Nat.to_uint n) 0 false) as Hp.
  change (Z.of_nat 0) with 0 in Hp.
  unfold PyStr.str, NilZero.string_of_uint.
  destruct (Nat.to_uint n) as [|d|d|d|d|d|d|d|d|d|d] eqn:E;
    [simpl in Hn; by subst n|..];
    cbn [NilEmpty.string_of_uint String.list_ascii_of_string] in *;
    rewrite !decide_False by done; rewrite Hp by (by left); by rewrite Hn.
Qed.

End metric_spec_strings.

Section metric_handle.
Context `{NumpyFloat} `{MetricRegistry}.

Lemma split_limit_at name (k : nat) :
  PyStr.contains "@" name = false ->
  SearchManager.split_limit (name +:+ "@" +:+ PyStr.str k) = Ok (name, Some (Z.of_nat k)).
Proof.
  intros Hname. unfold SearchManager.split_limit.
  change ("@" +:+ PyStr.str k)%string with (String "@" (PyStr.str k)).
  rewrite contains_append, split_append by done.
  rewrite split_no_sep.
  2:{ apply contains_digits; [|apply digits_of_str]. unfold is_digit. vm_compute. lia. }
  rewrite (np_get_lookup _ 0 name), (np_get_lookup _ 1 (PyStr.str k)) by done.
  cbn [mbind result_bind]. by rewrite int_str.
Qed.

Lemma split_limit_plain name :
  PyStr.contains "@" name = false -> SearchManager.split_limit name = Ok (name, None).
Proof. intros Hname. unfold SearchManager.split_limit. by rewrite Hname. Qed.

(** Without a [limit] the metric functions work with [limit = len(v)]. *)
Lemma default_limit_is_length kw v :
  kw_limit kw = None ->
  Defaults.precision kw v = Defaults.precision (set_limit (Py.len v) kw) v /\
  Defaults.recall kw v = Defaults.recall (set_limit (Py.len v) kw) v /\
  Defaults.f1 kw v = Defaults.f1 (set_limit (Py.len v) kw) v /\
  Ndcg.NDCG kw v = Ndcg.NDCG (set_limit (Py.len v) kw) v.
Proof.
  intros Hlim. split_and!.
  - rewrite !precision_run. cbn. by rewrite Hlim.
  - rewrite !recall_run. cbn. by rewrite Hlim.
  - unfold Defaults.f1, mbind, M_bind. rewrite !precision_run. cbn. rewrite Hlim. cbn.
    rewrite padded_ge by lia. rewrite !recall_run. cbn. by rewrite Hlim.
  - rewrite !NDCG_run. cbn. rewrite Hlim. cbn. by rewrite padded_ge by lia.
Qed.

(** The keyword arguments [name@k] hands to the metric, field by field. *)
Lemma metric_handle_fields name kw (k : nat) fn kw' :
  PyStr.contains "@" name = false ->
  SearchManager.__metric_handle (name +:+ "@" +:+ PyStr.str k) kw = Ok (fn, kw') ->
  get_metric name = Ok fn /\
  kw_limit kw' = (if decide (k = 0%nat) then kw_limit kw else Some (Z.of_nat k)) /\
  kw_nrel kw' = kw_nrel kw /\
  kw_alternate kw' = kw_alternate kw.
Proof.
  intros Hname. unfold SearchManager.__metric_handle.
  rewrite split_limit_at by done. cbn [mbind result_bind].
  destruct (get_metric name) as [g|e] eqn:Hg; cbn [mbind result_bind]; [|done].
  intros [= -> <-]. split; [done|].
  destruct (decide (k = 0%nat)) as [->|Hk].
  - by rewrite decide_True by done.
  - by rewrite decide_False by lia.
Qed.

(** [precision] with the default limit and with [limit = 0]. *)
Lemma precision_default_and_zero kw v :
  kw_limit kw = None -> v <> [] ->
  (Defaults.precision kw v).1
    = Ok (Py.float (positive_count v) / Py.float (Py.len v))%Qc /\
  (Defaults.precision
     {| kw_limit := Some 0; kw_nrel := kw_nrel kw; kw_alternate := kw_alternate kw |} v).1
    = Ok 0%Qc.
Proof.
  intros Hlim Hv. rewrite !precision_run. cbn [fst kw_limit]. rewrite Hlim.
  unfold precision_value. cbn [default from_option id].
  split.
  - rewrite padded_ge by lia. rewrite slice_stop_all by lia.
    rewrite decide_True; [done|]. unfold Py.len. destruct v; [done|]. cbn [length]. lia.
  - by rewrite decide_False by lia.
Qed.

(** C9.  For a metric name without ["@"]: the specification [name@0]
    leaves the keyword arguments as they were, so the [limit] the metric
    reads is the caller's (none, if the caller gave none); for every
    [k >= 1], [name@k] makes the [limit] the metric reads equal to [k] and
    leaves [nrel] and [alternate] alone; [evaluate] runs the metric on
    exactly these keyword arguments; and without a [limit], precision,
    recall, f1 and NDCG work with [limit = len(v)], so that [precision@0]
    of a non-empty vector is the fraction of positive judgments and not
    the [0.0] that [limit = 0] gives. *)
Theorem metric_handle_limit name kw :
  PyStr.contains "@" name = false ->
  SearchManager.__metric_handle (name +:+ "@" +:+ PyStr.str 0) kw
    = (fn ← get_metric name; Ok (fn, kw)) /\
  (forall k : nat, (1 <= k)%nat ->
     SearchManager.__metric_handle (name +:+ "@" +:+ PyStr.str k) kw
     = (fn ← get_metric name; Ok (fn, set_limit (Z.of_nat k) kw))) /\
  (forall fn kw',
     SearchManager.__metric_handle (name +:+ "@" +:+ PyStr.str 0) kw = Ok (fn, kw') ->
     kw_limit kw' = kw_limit kw /\
     kw_nrel kw' = kw_nrel kw /\
     kw_alternate kw' = kw_alternate kw) /\
  (forall (k : nat) fn kw', (1 <= k)%nat ->
     SearchManager.__metric_handle (name +:+ "@" +:+ PyStr.str k) kw = Ok (fn, kw') ->
     kw_limit kw' = Some (Z.of_nat k) /\
     kw_nrel kw' = kw_nrel kw /\
     kw_alternate kw' = kw_alternate kw) /\
  (forall fn v, get_metric name = Ok fn ->
     SearchManager.evaluate (name +:+ "@" +:+ PyStr.str 0) v kw = fn kw v /\
     forall k : nat, (1 <= k)%nat ->
       SearchManager.evaluate (name +:+ "@" +:+ PyStr.str k) v kw
       = fn {| kw_limit := Some (Z.of_nat k);
               kw_nrel := kw_nrel kw;
               kw_alternate := kw_alternate kw |} v) /\
  (kw_limit kw = None -> forall v,
     let at_length :=
       {| kw_limit := Some (Py.len v);
          kw_nrel := kw_nrel kw;
          kw_alternate := kw_alternate kw |} in
     Defaults.precision kw v = Defaults.precision at_length v /\
     Defaults.recall kw v = Defaults.recall at_length v /\
     Defaults.f1 kw v = Defaults.f1 at_length v /\
     Ndcg.NDCG kw v = Ndcg.NDCG at_length v /\
     (v <> [] ->
      (Defaults.precision kw v).1
        = Ok (Py.float (positive_count v) / Py.float (Py.len v))%Qc /\
      (Defaults.precision
         {| kw_limit := Some 0;
            kw_nrel := kw_nrel kw;
            kw_alternate := kw_alternate kw |} v).1
        = Ok 0%Qc)).
Proof.
  intros Hname.
  assert (Hzero : SearchManager.__metric_handle (name +:+ "@" +:+ PyStr.str 0) kw
               = (fn ← get_metric name; Ok (fn, kw))).
  { unfold SearchManager.__metric_handle. by rewrite split_limit_at by done. }
  assert (Hpos : forall k : nat, (1 <= k)%nat ->
               SearchManager.__metric_handle (name +:+ "@" +:+ PyStr.str k) kw
               = (fn ← get_metric name; Ok (fn, set_limit (Z.of_nat k) kw))).
  { intros k Hk. unfold SearchManager.__metric_handle.
    rewrite split_limit_at by done. cbn [mbind result_bind].
    by rewrite decide_False by lia. }
  split; [exact Hzero|]. split; [exact Hpos|]. split; [|split; [|split]].
  - intros fn kw' Hh.
    destruct (metric_handle_fields name kw 0 fn kw' Hname Hh) as (_ & Hl & Hn & Ha).
    by rewrite decide_True in Hl by done.
  - intros k fn kw' Hk1 Hh.
    destruct (metric_handle_fields name kw k fn kw' Hname Hh) as (_ & Hl & Hn & Ha).
    by rewrite decide_False in Hl by lia.
  - intros fn v Hg. unfold SearchManager.evaluate. split.
    + rewrite Hzero, Hg. done.
    + intros k Hk1. rewrite (Hpos k Hk1), Hg. done.
  - intros Hlim v at_length.
    destruct (default_limit_is_length kw v Hlim) as (Hp & Hr & Hf & Hn).
    split; [exact Hp|]. split; [exact Hr|]. split; [exact Hf|]. split; [exact Hn|].
    intros Hv. by apply precision_default_and_zero.
Qed.

End metric_handle.

Lemma metric_handle_limit_witness :
  @SearchManager.__metric_handle (@spec_registry dyadic_numpy)
    ("precision" +:+ "@" +:+ PyStr.str 0) no_kwargs
    = (fn ← @get_metric (@spec_registry dyadic_numpy) "precision"; Ok (fn, no_kwargs)) /\
  (forall k : nat, (1 <= k)%nat ->
     @SearchManager.__metric_handle (@spec_registry dyadic_numpy)
       ("precision" +:+ "@" +:+ PyStr.str k) no_kwargs
     = (fn ← @get_metric (@spec_registry dyadic_numpy) "precision";
        Ok (fn, set_limit (Z.of_nat k) no_kwargs))) /\
  (forall fn kw',
     @SearchManager.__metric_handle (@spec_registry dyadic_numpy)
       ("precision" +:+ "@" +:+ PyStr.str 0) no_kwargs = Ok (fn, kw') ->
     kw_limit kw' = kw_limit no_kwargs /\
     kw_nrel kw' = kw_nrel no_kwargs /\
     kw_alternate kw' = kw_alternate no_kwargs) /\
  (forall (k : nat) fn kw', (1 <= k)%nat ->
     @SearchManager.__metric_handle (@spec_registry dyadic_numpy)
       ("precision" +:+ "@" +:+ PyStr.str k) no_kwargs = Ok (fn, kw') ->
     kw_limit kw' = Some (Z.of_nat k) /\
     kw_nrel kw' = kw_nrel no_kwargs /\
     kw_alternate kw' = kw_alternate no_kwargs) /\
  (forall fn v, @get_metric (@spec_registry dyadic_numpy) "precision" = Ok fn ->
     @SearchManager.evaluate (@spec_registry dyadic_numpy)
       ("precision" +:+ "@" +:+ PyStr.str 0) v no_kwargs = fn no_kwargs v /\
     forall k : nat, (1 <= k)%nat ->
       @SearchManager.evaluate (@spec_registry dyadic_numpy)
         ("precision" +:+ "@" +:+ PyStr.str k) v no_kwargs
       = fn {| kw_limit := Some (Z.of_nat k);
               kw_nrel := kw_nrel no_kwargs;
               kw_alternate := kw_alternate no_kwargs |} v) /\
  (kw_limit no_kwargs = None -> forall v,
     let at_length :=
       {| kw_limit := Some (Py.len v);
          kw_nrel := kw_nrel no_kwargs;
          kw_alternate := kw_alternate no_kwargs |} in
     Defaults.precision no_kwargs v = Defaults.precision at_length v /\
     Defaults.recall no_kwargs v = Defaults.recall at_length v /\
     Defaults.f1 no_kwargs v = Defaults.f1 at_length v /\
     @Ndcg.NDCG dyadic_numpy no_kwargs v = @Ndcg.NDCG dyadic_numpy at_length v /\
     (v <> [] ->
      (Defaults.precision no_kwargs v).1
        = Ok (Py.float (positive_count v) / Py.float (Py.len v))%Qc /\
      (Defaults.precision
         {| kw_limit := Some 0;
            kw_nrel := kw_nrel no_kwargs;
            kw_alternate := kw_alternate no_kwargs |} v).1
        = Ok 0%Qc)).
Proof.
  apply (@metric_handle_limit dyadic_numpy (@spec_registry dyadic_numpy) "precision" no_kwargs).
  reflexivity.
Defined.



(** * Facts about the multi-query evaluator *)

Section truth_facts.

Lemma truth_dict_present d x g :
  d !! x = Some g -> SearchManager.truth (QrelDict d) x = Ok g.
Proof. intros Hx. unfold SearchManager.truth. by rewrite Hx. Qed.

Lemma truth_dict_absent d x :
  d !! x = None -> SearchManager.truth (QrelDict d) x = Raise KeyError.
Proof. intros Hx. unfold SearchManager.truth. by rewrite Hx. Qed.

Lemma truth_set_total s x :
  SearchManager.truth (QrelSet s) x = Ok (if decide (x ∈ s) then 1%Qc else 0%Qc).
Proof. done. Qed.

End truth_facts.

(** C2 (the code departs from the claim).  The claim says that with a graded
    judgment a hit that the judgment does not list gets grade 0.  With the
    judgment [{"d1": 2}] and the hits [d1], [d2], the lookup [qrel["d2"]]
    raises [KeyError]: no relevance vector is built, and the evaluation of the
    batch ends with that exception.  (For a judged hit the grade is returned,
    and the set form of a judgment gives 0 to an unlisted hit.) *)
Theorem truth_dict_unjudged_hit_raises :
  let qrel := QrelDict {[ "d1"%string := Py.float 2 ]} in
  SearchManager.truth qrel "d1" = Ok (Py.float 2) /\
  SearchManager.truth qrel "d2" = Raise KeyError /\
  mapM (SearchManager.truth qrel) (SearchManager.__extract_hits two_hits).*1 = Raise KeyError /\
  @SearchManager.multiquery_search (@spec_registry dyadic_numpy)
    (table_searcher [("q"%string, two_hits)]) [("q"%string, qrel)] None no_kwargs
  = Raise KeyError.
Proof.
  intros qrel. split_and!.
  - by apply truth_dict_present.
  - by apply truth_dict_absent.
  - vm_compute. reflexivity.
  - vm_compute. reflexivity.
Qed.

Section evaluator.
Context `{MetricRegistry} `{Searcher}.
Implicit Types (ms : list string) (hm : gmap string (metric_fn * kwargs))
  (ev : gmap string Qc) (handles : list (metric_fn * kwargs)).

Lemma set_nrel_same_options n p q :
  same_options p q -> set_nrel n p = set_nrel n q.
Proof. intros [Hl Ha]. unfold set_nrel. by rewrite Hl, Ha. Qed.

Lemma same_options_set_nrel n p q : same_options p q -> same_options (set_nrel n p) q.
Proof. done. Qed.

(** The table of handles built before the loop over the queries. *)
Lemma handles_table kw ms handles acc :
  NoDup ms ->
  mapM (fun m => SearchManager.__metric_handle m kw) ms = Ok handles ->
  exists hm,
    foldlM (fun hs metric =>
              h ← SearchManager.__metric_handle metric kw; Ok (<[metric := h]> hs))
           acc ms = Ok hm /\
    Forall2 (fun m h => hm !! m = Some h) ms handles /\
    (forall m, m ∉ ms -> hm !! m = acc !! m).
Proof.
  intros Hnd Hms. apply mapM_result_Ok in Hms. revert acc.
  induction Hms as [|m h ms handles Hm Hms IH]; intros acc.
  - exists acc. by split_and!.
  - apply NoDup_cons in Hnd as [Hm_notin Hnd].
    destruct (IH Hnd (<[m := h]> acc)) as (hm & Hrun & Hin & Hout).
    exists hm. cbn [foldlM]. rewrite Hm. cbn [mbind result_bind]. split_and!; [done| |].
    + constructor; [|done]. by rewrite Hout, lookup_insert_eq.
    + intros m' [Hne Hm']%not_elem_of_cons. by rewrite Hout, lookup_insert_ne.
Qed.

(** The running sums start at zero. *)
Lemma evaluation_zero ms acc :
  let ev := foldl (fun ev metric => <[metric := 0%Qc]> ev) acc ms in
  Forall (fun m => ev !! m = Some 0%Qc) ms /\ (forall m, m ∉ ms -> ev !! m = acc !! m).
Proof.
  revert acc. induction ms as [|m ms IH]; intros acc; cbn [foldl].
  - by split.
  - destruct (IH (<[m := 0%Qc]> acc)) as [Hin Hout]. split.
    + constructor; [|done].
      destruct (decide (m ∈ ms)) as [Hm|Hm].
      * by eapply Forall_forall in Hin.
      * by rewrite Hout, lookup_insert_eq.
    + intros m' [Hne Hm']%not_elem_of_cons. by rewrite Hout, lookup_insert_ne.
Qed.

(** One pass of the loop over the metrics. *)
Lemma metrics_loop_run qrel ms handles hm ev obj vs :
  NoDup ms ->
  Forall2 (fun m h => exists p, hm !! m = Some (h.1, p) /\ same_options p h.2) ms handles ->
  Forall (fun m => is_Some (ev !! m)) ms ->
  metric_values handles (SearchManager.qrel_len qrel) obj = Ok vs ->
  exists hm' ev' obj',
    SearchManager.metrics_loop qrel ms (hm, ev, obj) = Ok (hm', ev', obj') /\
    Forall2 (fun m h => exists p, hm' !! m = Some (h.1, p) /\ same_options p h.2) ms handles /\
    Forall2 (fun m v => ev' !! m = (fun s => s + v)%Qc <$> ev !! m) ms vs /\
    (forall m, m ∉ ms -> hm' !! m = hm !! m /\ ev' !! m = ev !! m).
Proof.
  unfold SearchManager.metrics_loop.
  revert handles hm ev obj vs.
  induction ms as [|m ms IH]; intros handles hm ev obj vs Hnd Hhm Hev Hvs.
  - apply Forall2_nil_inv_l in Hhm as ->. injection Hvs as <-.
    exists hm, ev, obj. by split_and!.
  - apply Forall2_cons_inv_l in Hhm as ([fn p0] & handles' & (p & Hm & Hp) & Hhm & ->).
    apply NoDup_cons in Hnd as [Hm_notin Hnd].
    apply Forall_cons in Hev as [[s Hs] Hev].
    cbn [metric_values] in Hvs. cbn [fst snd] in *.
    rewrite <-(set_nrel_same_options _ p p0) in Hvs by done.
    destruct (fn (set_nrel (SearchManager.qrel_len qrel) p) obj) as [[v|e] obj1] eqn:Hfn; [|done].
    destruct (metric_values handles' (SearchManager.qrel_len qrel) obj1) as [vs'|e] eqn:Hvs';
      [|done].
    injection Hvs as <-.
    set (hm1 := <[m := (fn, set_nrel (SearchManager.qrel_len qrel) p)]> hm).
    set (ev1 := <[m := (s + v)%Qc]> ev).
    destruct (IH handles' hm1 ev1 obj1 vs') as (hm' & ev' & obj' & Hrun & Hhm' & Hev' & Hout);
      [done| | |done|].
    { eapply Forall2_impl_elem; [exact Hhm|]. intros m' [fn' p'] Hin (q & Hm' & Hq).
      exists q. split; [|done]. unfold hm1. rewrite lookup_insert_ne; [done|].
      intros ->. done. }
    { eapply Forall_impl_elem; [exact Hev|]. intros m' Hin Hsome.
      unfold ev1. rewrite lookup_insert_ne; [done|]. intros ->. done. }
    exists hm', ev', obj'. split_and!.
    + cbn [foldlM]. unfold Aggregator.dict_lookup. rewrite Hm, Hs. cbn [mbind result_bind].
      rewrite Hfn. cbn [mbind result_bind]. exact Hrun.
    + constructor; [|done]. destruct (Hout m Hm_notin) as [-> _].
      exists (set_nrel (SearchManager.qrel_len qrel) p). split.
      * unfold hm1. by rewrite lookup_insert_eq.
      * by apply same_options_set_nrel.
    + constructor.
      * destruct (Hout m Hm_notin) as [_ ->]. unfold ev1. by rewrite lookup_insert_eq, Hs.
      * eapply Forall2_impl_elem; [exact Hev'|]. intros m' v' Hin Hm'.
        rewrite Hm'. unfold ev1. rewrite lookup_insert_ne; [done|]. intros ->. done.
    + intros m' [Hne Hm']%not_elem_of_cons. destruct (Hout m' Hm') as [-> ->].
      unfold hm1, ev1. by rewrite !lookup_insert_ne.
Qed.

Lemma metric_values_length handles nrel obj vs :
  metric_values handles nrel obj = Ok vs -> length vs = length handles.
Proof.
  revert obj vs. induction handles as [|[fn p] handles IH]; intros obj vs; cbn.
  - by intros [= <-].
  - destruct (fn (set_nrel nrel p) obj) as [[v|e] obj']; [|done].
    destruct (metric_values handles nrel obj') as [vs'|e] eqn:Hvs; [|done].
    cbn. intros [= <-]. cbn. f_equal. by eapply IH.
Qed.

(** The loop over the queries. *)
Lemma query_loop_run kw ms handles batch vals hm ev ratio sums :
  NoDup ms ->
  Forall2 (fun m h => exists p, hm !! m = Some (h.1, p) /\ same_options p h.2) ms handles ->
  Forall2 (fun m s => ev !! m = Some s) ms sums ->
  mapM (query_values handles kw) batch = Ok vals ->
  exists hm' ev',
    foldlM (SearchManager.query_body ms kw) (hm, ev, ratio) batch
      = Ok (hm', ev', (ratio + Py.float (Py.len batch))%Qc) /\
    Forall2 (fun m s => ev' !! m = Some s) ms (foldl (zip_with Qcplus) sums vals).
Proof.
  intros Hnd. revert vals hm ev ratio sums.
  induction batch as [|[qry qrel] batch IH]; intros vals hm ev ratio sums Hhm Hev Hvals.
  - injection Hvals as <-. exists hm, ev. split; [|done].
    cbn [foldlM]. change (Py.len (@nil (string * Qrel))) with 0.
    unfold Py.float. by rewrite Z2Qc_inj_0, Qcplus_0_r.
  - rewrite mapM_result_cons in Hvals.
    destruct (query_values handles kw (qry, qrel)) as [vs|e] eqn:Hq; [|done].
    destruct (mapM (query_values handles kw) batch) as [vals'|e] eqn:Hrest; [|done].
    injection Hvals as <-.
    unfold query_values, relevance_vector in Hq. cbn [fst snd] in Hq.
    cbn [foldlM]. unfold SearchManager.query_body at 1.
    destruct (match searcher_search qry kw with
              | Ok hits => Ok hits
              | Raise _ => Raise (FileSystemError "Search failed.")
              end) as [hits|e] eqn:Hsearch; [|done].
    cbn [mbind result_bind] in Hq |- *.
    rewrite mapM_result_fmap in Hq.
    assert (mapM (fun '(name, _) => SearchManager.truth qrel name)
                 (SearchManager.__extract_hits hits)
            = mapM (SearchManager.truth qrel ∘ fst) (SearchManager.__extract_hits hits)) as ->.
    { apply mapM_result_ext. by intros [name info]. }
    destruct (mapM (SearchManager.truth qrel ∘ fst) (SearchManager.__extract_hits hits))
      as [rv|e] eqn:Hrv; [|done].
    cbn [mbind result_bind] in Hq |- *.
    destruct (metrics_loop_run qrel ms handles hm ev rv vs) as (hm1 & ev1 & obj1 & Hrun & Hhm1 & Hev1 & _);
      [done|done| |done|].
    { eapply Forall2_Forall_l; [exact Hev|]. apply Forall_true. naive_solver. }
    rewrite Hrun. cbn [mbind result_bind].
    destruct (IH vals' hm1 ev1 (ratio + 1)%Qc (zip_with Qcplus sums vs)) as (hm' & ev' & Hloop & Hev');
      [done| |done|].
    { eapply Forall2_zip_with_r; [exact Hev|exact Hev1|].
      intros m s v Hs ->. by rewrite Hs. }
    exists hm', ev'. split; [|done]. rewrite Hloop. do 2 f_equal.
    rewrite <-Qcplus_assoc. f_equal. unfold Py.float, Py.len. cbn [length].
    rewrite <-Z2Qc_inj_1, <-Z2Qc_inj_add. f_equal. lia.
Qed.

(** The closing loop that turns the sums into means. *)
Lemma mean_loop_run ratio ms sums ev :
  ratio <> 0%Qc ->
  NoDup ms ->
  Forall2 (fun m s => ev !! m = Some s) ms sums ->
  exists ev',
    foldlM (SearchManager.mean_body ratio) ev ms = Ok ev' /\
    Forall2 (fun m s => ev' !! m = Some (s / ratio)%Qc) ms sums /\
    (forall m, m ∉ ms -> ev' !! m = ev !! m).
Proof.
  intros Hratio. revert sums ev.
  induction ms as [|m ms IH]; intros sums ev Hnd Hev.
  - apply Forall2_nil_inv_l in Hev as ->. exists ev. by split_and!.
  - apply Forall2_cons_inv_l in Hev as (s & sums' & Hs & Hev & ->).
    apply NoDup_cons in Hnd as [Hm Hnd].
    destruct (IH sums' (<[m := (s / ratio)%Qc]> ev)) as (ev' & Hrun & Hin & Hout); [done| |].
    { eapply Forall2_impl_elem; [exact Hev|]. intros m' s' Hin Hs'.
      rewrite lookup_insert_ne; [done|]. by intros ->. }
    exists ev'. split_and!.
    + cbn [foldlM]. unfold SearchManager.mean_body at 1, Aggregator.dict_lookup, Py.truediv.
      rewrite Hs. cbn [mbind result_bind]. by rewrite decide_False by done.
    + constructor; [|done]. by rewrite Hout, lookup_insert_eq.
    + intros m' [Hne Hm']%not_elem_of_cons. by rewrite Hout, lookup_insert_ne.
Qed.

Lemma mean_loop_zero m ms s ev :
  ev !! m = Some s ->
  foldlM (SearchManager.mean_body 0%Qc) ev (m :: ms) = Raise ZeroDivisionError.
Proof.
  intros Hs. cbn [foldlM].
  unfold SearchManager.mean_body, Aggregator.dict_lookup, Py.truediv. by rewrite Hs.
Qed.

Lemma column_sums_lookup (vals : list (list Qc)) (sums : list Qc) j s :
  Forall (fun row => length row = length sums) vals ->
  sums !! j = Some s ->
  foldl (zip_with Qcplus) sums vals !! j = Some (s + metric_sum j vals)%Qc.
Proof.
  revert sums s. induction vals as [|row vals IH]; intros sums s Hlen Hs.
  - cbn. by rewrite Qcplus_0_r.
  - apply Forall_cons in Hlen as [Hrow Hlen].
    assert (is_Some (row !! j)) as [v Hv].
    { apply lookup_lt_is_Some. rewrite Hrow. by eapply lookup_lt_Some. }
    cbn [foldl]. erewrite IH.
    + unfold metric_sum. cbn [fmap list_fmap foldr]. rewrite Hv. cbn. by rewrite Qcplus_assoc.
    + eapply Forall_impl; [exact Hlen|]. intros row' Hrow'. cbn in Hrow'.
      rewrite length_zip_with. lia.
    + rewrite lookup_zip_with, Hs, Hv. done.
Qed.

End evaluator.

Section evaluator_mean.
Context `{MetricRegistry} `{Searcher}.

Lemma effective_metrics_nonempty metrics : effective_metrics metrics <> [].
Proof. by destruct metrics as [[|m ms]|]. Qed.

Lemma multiquery_search_unfold batch metrics kw :
  SearchManager.multiquery_search batch metrics kw =
    (metrics_handle ←
       foldlM (fun handles metric =>
                 h ← SearchManager.__metric_handle metric kw;
                 Ok (<[metric := h]> handles))
              ∅ (effective_metrics metrics);
     '(metrics_handle, evaluation, ratio) ←
       foldlM (SearchManager.query_body (effective_metrics metrics) kw)
              (metrics_handle,
               foldl (fun ev metric => <[metric := 0%Qc]> ev) ∅ (effective_metrics metrics),
               0%Qc) batch;
     foldlM (SearchManager.mean_body ratio) evaluation (effective_metrics metrics)).
Proof. done. Qed.

(** C8.  Let the metric specifications be distinct and resolve to
    handles.  Over an empty batch the evaluation raises
    [ZeroDivisionError].  Over a non-empty batch whose per-query metric
    values are [vals], it returns a report that maps every requested
    metric to the sum of its per-query values divided by the number of
    queries. *)
Theorem multiquery_search_mean metrics kw handles :
  NoDup (effective_metrics metrics) ->
  mapM (fun m => SearchManager.__metric_handle m kw) (effective_metrics metrics) = Ok handles ->
  SearchManager.multiquery_search [] metrics kw = Raise ZeroDivisionError /\
  (forall batch vals,
     batch <> [] ->
     mapM (query_values handles kw) batch = Ok vals ->
     exists ev,
       SearchManager.multiquery_search batch metrics kw = Ok ev /\
       forall j m, effective_metrics metrics !! j = Some m ->
         ev !! m = Some (metric_sum j vals / Py.float (Py.len batch))%Qc).
Proof.
  intros Hnd Hhandles.
  pose proof (effective_metrics_nonempty metrics) as Hne.
  set (ms := effective_metrics metrics) in *.
  destruct (handles_table kw ms handles ∅ Hnd Hhandles) as (hm & Hhm & Hin & _).
  destruct (evaluation_zero ms ∅) as [Hzero _].
  set (ev0 := foldl (fun ev metric => <[metric := 0%Qc]> ev) ∅ ms) in *.
  assert (Forall2 (fun m h => exists p, hm !! m = Some (h.1, p) /\ same_options p h.2)
                  ms handles) as Hinv.
  { eapply Forall2_impl; [exact Hin|]. intros m [fn p] Hm. by exists p. }
  assert (Forall2 (fun m s => ev0 !! m = Some s) ms (replicate (length ms) 0%Qc)) as Hsums.
  { by apply Forall2_replicate_r. }
  split.
  - rewrite multiquery_search_unfold. fold ms. rewrite Hhm. cbn [mbind result_bind foldlM].
    fold ev0. destruct ms as [|m ms']; [done|].
    apply Forall_cons in Hzero as [Hm _]. by eapply mean_loop_zero.
  - intros batch vals Hbatch Hvals.
    destruct (query_loop_run kw ms handles batch vals hm ev0 0%Qc _ Hnd Hinv Hsums Hvals)
      as (hm' & ev' & Hloop & Hev').
    assert (Py.float (Py.len batch) <> 0%Qc) as Hratio.
    { rewrite <-Z2Qc_inj_0. unfold Py.float. intros Heq%Z2Qc_inj.
      destruct batch; [done|]. unfold Py.len in Heq. cbn in Heq. lia. }
    rewrite Qcplus_0_l in Hloop.
    destruct (mean_loop_run _ ms _ ev' Hratio Hnd Hev') as (ev & Hmean & Hev & _).
    exists ev. split.
    + rewrite multiquery_search_unfold. fold ms. rewrite Hhm. cbn [mbind result_bind].
      fold ev0. rewrite Hloop. cbn [mbind result_bind]. exact Hmean.
    + intros j m Hj.
      destruct (Forall2_lookup_l _ _ _ _ _ Hev Hj) as (s & Hs & ->).
      do 2 f_equal.
      assert (replicate (length ms) 0%Qc !! j = Some 0%Qc) as Hz.
      { apply lookup_replicate_2. by eapply lookup_lt_Some. }
      pose proof (column_sums_lookup vals (replicate (length ms) 0%Qc) j 0%Qc) as Hcol.
      rewrite Hs, Qcplus_0_l in Hcol. apply (inj Some). apply Hcol; [|done].
      apply mapM_result_Ok in Hvals. rewrite length_replicate.
      clear -Hvals Hhandles. apply mapM_result_length in Hhandles.
      induction Hvals as [|q vs batch vals Hq _ IH]; constructor; [|done].
      unfold query_values in Hq. destruct (relevance_vector kw q); [|done].
      cbn in Hq. apply metric_values_length in Hq. congruence.
Qed.

End evaluator_mean.

Lemma multiquery_search_mean_witness :
  @SearchManager.multiquery_search (@spec_registry dyadic_numpy) (table_searcher [])
    [] (Some ["precision@1"; "recall"]%string) no_kwargs = Raise ZeroDivisionError /\
  (forall batch vals,
     batch <> [] ->
     mapM (@query_values (table_searcher [])
             [(Defaults.precision, set_limit 1 no_kwargs); (Defaults.recall, no_kwargs)]
             no_kwargs) batch = Ok vals ->
     exists ev,
       @SearchManager.multiquery_search (@spec_registry dyadic_numpy) (table_searcher [])
         batch (Some ["precision@1"; "recall"]%string) no_kwargs = Ok ev /\
       forall j m, effective_metrics (Some ["precision@1"; "recall"]%string) !! j = Some m ->
         ev !! m = Some (metric_sum j vals / Py.float (Py.len batch))%Qc).
Proof.
  apply (@multiquery_search_mean (@spec_registry dyadic_numpy) (table_searcher [])
           (Some ["precision@1"; "recall"]%string) no_kwargs).
  - apply (bool_decide_unpack _). vm_compute. exact I.
  - reflexivity.
Defined.


(** * Facts about the rank aggregators *)


Section loops.
Context {A B : Type}.

Lemma foldlM_app (f : A -> B -> result A) a l1 l2 :
  foldlM f a (l1 ++ l2) = (a' ← foldlM f a l1; foldlM f a' l2).
Proof.
  revert a. induction l1 as [|x l1 IH]; intros a; cbn [foldlM app]; [done|].
  destruct (f a x); [apply IH|done].
Qed.

Lemma foldlM_snoc (f : A -> B -> result A) a l x :
  foldlM f a (l ++ [x]) = (a' ← foldlM f a l; f a' x).
Proof.
  rewrite foldlM_app. destruct (foldlM f a l) as [a'|e]; [|done].
  cbn. by destruct (f a' x).
Qed.

End loops.

Section index_docs.
Context {DocId : Type} `{Countable DocId} `{PySet DocId} `{!PySetLaws DocId}.
Implicit Types (U : list DocId) (d : DocId).

Lemma doc_id_lookup U d i :
  NoDup U -> U !! i = Some d -> doc_id U d = 1 + Z.of_nat i.
Proof.
  intros Hnd Hi. unfold doc_id.
  destruct (list_find (fun x => x = d) U) as [[j y]|] eqn:Hfind.
  - apply list_find_Some in Hfind as (Hj & -> & _).
    by rewrite (NoDup_lookup U i j d Hnd Hi Hj).
  - apply list_find_None in Hfind.
    exfalso. eapply Forall_lookup_1 in Hfind; [|exact Hi]. done.
Qed.

Lemma doc_id_elem U d : NoDup U -> d ∈ U -> 1 <= doc_id U d <= Py.len U.
Proof.
  intros Hnd [i Hi]%list_elem_of_lookup. rewrite (doc_id_lookup U d i) by done.
  apply lookup_lt_Some in Hi. unfold Py.len. lia.
Qed.

Lemma doc_id_inj U d1 d2 :
  NoDup U -> d1 ∈ U -> d2 ∈ U -> doc_id U d1 = doc_id U d2 -> d1 = d2.
Proof.
  intros Hnd [i Hi]%list_elem_of_lookup [j Hj]%list_elem_of_lookup.
  rewrite (doc_id_lookup U d1 i), (doc_id_lookup U d2 j) by done.
  intros Hij. assert (i = j) as -> by lia. congruence.
Qed.

Lemma index_list_snoc U x :
  index_list (U ++ [x]) =
    (<[x := 1 + Py.len U]> (index_list U).1, <[1 + Py.len U := x]> (index_list U).2).
Proof.
  unfold index_list. rewrite imap_app, foldl_app. cbn [imap foldl].
  rewrite Nat.add_0_r.
  by destruct (foldl _ _ _) as [a b].
Qed.

Lemma index_list_lookup U :
  NoDup U ->
  (forall d k, (index_list U).1 !! d = Some k <-> exists i, U !! i = Some d /\ k = 1 + Z.of_nat i) /\
  (forall k d, (index_list U).2 !! k = Some d <-> exists i, U !! i = Some d /\ k = 1 + Z.of_nat i).
Proof.
  induction U as [|x U IH] using rev_ind; intros Hnd.
  - split; intros; cbn; rewrite lookup_empty; (split; [done|]); by intros (i & Hi & _).
  - apply NoDup_app in Hnd as (Hnd & Hx & _).
    destruct (IH Hnd) as [IH1 IH2]. rewrite index_list_snoc. cbn [fst snd]. split.
    + intros d k. destruct (decide (x = d)) as [->|Hne].
      * rewrite lookup_insert_eq. split.
        -- intros [= <-]. exists (length U). by rewrite list_lookup_middle.
        -- intros (i & Hi & ->). f_equal.
           apply lookup_app_Some in Hi as [Hi|[Hlen Hi]].
           ++ exfalso. apply (Hx d); [by eapply list_elem_of_lookup_2|left].
           ++ apply list_lookup_singleton_Some in Hi as [Hi _]. unfold Py.len. lia.
      * rewrite lookup_insert_ne by done. rewrite IH1. split.
        -- intros (i & Hi & ->). exists i. split; [|done]. by apply lookup_app_l_Some.
        -- intros (i & Hi & ->). exists i. split; [|done].
           apply lookup_app_Some in Hi as [Hi|[Hlen Hi]]; [done|].
           apply list_lookup_singleton_Some in Hi as [_ ?]. done.
    + intros k d. destruct (decide (1 + Py.len U = k)) as [<-|Hne].
      * rewrite lookup_insert_eq. split.
        -- intros [= <-]. exists (length U). by rewrite list_lookup_middle.
        -- intros (i & Hi & Hk). unfold Py.len in Hk. assert (i = length U) as -> by lia.
           rewrite list_lookup_middle in Hi by done. congruence.
      * rewrite lookup_insert_ne by done. rewrite IH2. split.
        -- intros (i & Hi & ->). exists i. split; [|done]. by apply lookup_app_l_Some.
        -- intros (i & Hi & ->). exists i. split; [|done].
           apply lookup_app_Some in Hi as [Hi|[Hlen Hi]]; [done|].
           apply list_lookup_singleton_Some in Hi as [Hi _].
           unfold Py.len in Hne. lia.
Qed.

End index_docs.

Section borda_rows.
Context {DocId : Type} `{Countable DocId} `{PySet DocId} `{PySet Z}
  `{!PySetLaws DocId} `{!PySetLaws Z}.
Implicit Types (U rank : list DocId) (d : DocId) (row : list Z).

Lemma rank_ids_run U rank :
  NoDup U -> rank ⊆ U ->
  mapM (Aggregator.dict_lookup (index_list U).1) rank = Ok (doc_id U <$> rank).
Proof.
  intros Hnd Hsub. apply mapM_result_Ok, Forall2_fmap_r, Forall_Forall2_diag, Forall_forall.
  intros d Hd. apply Hsub in Hd as [i Hi]%list_elem_of_lookup.
  unfold Aggregator.dict_lookup.
  destruct (index_list_lookup U Hnd) as [Hlook _].
  rewrite (proj2 (Hlook d (1 + Z.of_nat i))) by eauto.
  cbn. by rewrite (doc_id_lookup U d i).
Qed.

Lemma enumerate_docs_ids (docs : list DocId) :
  (Aggregator.enumerate_docs docs).*1 = seqZ 1 (Py.len (set_iter docs)).
Proof.
  unfold Aggregator.enumerate_docs, Py.len.
  apply list_eq. intros i. rewrite list_lookup_fmap, list_lookup_imap.
  destruct (set_iter docs !! i) as [d|] eqn:Hi; cbn.
  - apply lookup_lt_Some in Hi. by rewrite lookup_seqZ_lt by lia.
  - apply lookup_ge_None in Hi. by rewrite lookup_seqZ_ge by lia.
Qed.

Lemma id_row_perm U rank :
  NoDup U -> NoDup rank -> rank ⊆ U -> id_row U rank ≡ₚ seqZ 1 (Py.len U).
Proof.
  intros Hnd Hrank Hsub. unfold id_row. apply NoDup_Permutation.
  - apply NoDup_app. split_and!.
    + apply NoDup_fmap_2_strong; [|done]. intros d1 d2 Hd1 Hd2. apply doc_id_inj; auto.
    + intros k Hk Hpad. apply set_diff_iter_elem in Hpad as [_ Hpad]. done.
    + apply set_diff_iter_NoDup.
  - apply NoDup_seqZ.
  - intros k. rewrite elem_of_app, set_diff_iter_elem, elem_of_seqZ. split.
    + intros [(d & -> & Hd)%list_elem_of_fmap|[Hk _]]; [|lia].
      pose proof (doc_id_elem U d Hnd (Hsub d Hd)). lia.
    + intros Hk. destruct (decide (k ∈ doc_id U <$> rank)); [by left|right]. split; [lia|done].
Qed.

End borda_rows.

Section borda_scores.
Implicit Types (row : list Z) (n : Z).

Lemma points_lookup n row i k :
  NoDup row -> row !! i = Some k -> points n row k = n - (Z.of_nat i + 1).
Proof.
  intros Hnd Hi. unfold points.
  destruct (list_find (fun x => x = k) row) as [[j y]|] eqn:Hfind.
  - apply list_find_Some in Hfind as (Hj & -> & _).
    by rewrite (NoDup_lookup row i j k Hnd Hi Hj).
  - apply list_find_None in Hfind.
    exfalso. eapply Forall_lookup_1 in Hfind; [|exact Hi]. done.
Qed.

Lemma np_get_Z {A} (l : list A) (i : Z) x :
  0 <= i -> l !! Z.to_nat i = Some x -> Np.get l i = Ok x.
Proof.
  intros Hi Hx. rewrite <-(Z2Nat.id i) by done. by apply np_get_lookup.
Qed.

Lemma np_set_Z {A} (l : list A) (i : Z) x :
  0 <= i < Py.len l -> Np.set l i x = Ok (<[Z.to_nat i := x]> l).
Proof. intros Hi. unfold Np.set, Np.index. by rewrite decide_True. Qed.

Lemma partial_row_lookup n row t j :
  (Z.of_nat j < n) ->
  partial_row n row t !! j =
    Some (if decide (1 + Z.of_nat j ∈ take t row) then points n row (1 + Z.of_nat j) else 0).
Proof.
  intros Hj. unfold partial_row. by rewrite list_lookup_fmap, lookup_seqZ_lt.
Qed.

Lemma partial_row_length n row t : length (partial_row n row t) = Z.to_nat n.
Proof. unfold partial_row. by rewrite length_fmap, length_seqZ. Qed.

Lemma partial_row_0 n row : partial_row n row 0 = Np.zeros n.
Proof.
  unfold partial_row, Np.zeros, Py.repeat_list. apply list_eq. intros j.
  rewrite list_lookup_fmap. destruct (decide (Z.of_nat j < n)) as [Hj|Hj].
  - rewrite lookup_seqZ_lt, lookup_replicate_2 by lia. cbn.
    rewrite decide_False; [done|]. rewrite take_0. apply not_elem_of_nil.
  - rewrite lookup_seqZ_ge by lia. cbn. symmetry. apply lookup_ge_None_2.
    rewrite length_replicate. lia.
Qed.

Lemma partial_row_full n row :
  row ≡ₚ seqZ 1 n -> partial_row n row (length row) = borda_row n row.
Proof.
  intros Hperm. unfold partial_row, borda_row. rewrite firstn_all.
  apply list_fmap_ext. intros j k Hk. rewrite decide_True; [done|].
  rewrite Hperm. by eapply list_elem_of_lookup_2.
Qed.

Lemma rank_score_loop n row t :
  row ≡ₚ seqZ 1 n -> (t <= length row)%nat ->
  foldlM (fun '(error, borda_rank) i =>
            r ← Np.get row i;
            if decide (r - 1 < 0) then Ok (1, borda_rank)
            else
              borda_rank' ← Np.set borda_rank (r - 1) (n - (i + 1));
              Ok (error, borda_rank'))
         (0, Np.zeros n) (seqZ 0 (Z.of_nat t))
  = Ok (0, partial_row n row t).
Proof.
  intros Hperm. assert (NoDup row) as Hnd by (rewrite Hperm; apply NoDup_seqZ).
  assert (length row = Z.to_nat n) as Hlen by (by rewrite Hperm, length_seqZ).
  induction t as [|t IH]; intros Ht.
  - by rewrite partial_row_0.
  - rewrite seqZ_S, foldlM_snoc, IH by lia. cbn [mbind result_bind]. rewrite Z.add_0_l.
    destruct (lookup_lt_is_Some_2 row t) as [r Hr]; [lia|].
    assert (1 <= r <= n) as Hrange.
    { apply list_elem_of_lookup_2 in Hr. rewrite Hperm in Hr. apply elem_of_seqZ in Hr. lia. }
    rewrite (np_get_lookup row t r Hr). cbn [mbind result_bind].
    rewrite decide_False by lia.
    rewrite np_set_Z by (unfold Py.len; rewrite partial_row_length; lia).
    cbn [mbind result_bind]. do 2 f_equal.
    apply list_eq. intros j.
    destruct (decide (Z.of_nat j < n)) as [Hj|Hj].
    2:{ rewrite !lookup_ge_None_2; [done|rewrite ?length_insert, partial_row_length; lia..]. }
    rewrite (partial_row_lookup _ _ (S t)) by done.
    rewrite (take_S_r row t r Hr).
    destruct (decide (j = Z.to_nat (r - 1))) as [->|Hne].
    + rewrite list_lookup_insert_eq by (rewrite partial_row_length; lia).
      replace (1 + Z.of_nat (Z.to_nat (r - 1))) with r by lia.
      rewrite decide_True by (apply elem_of_app; right; left).
      by rewrite (points_lookup n row t r).
    + rewrite list_lookup_insert_ne by done.
      rewrite partial_row_lookup by done. f_equal.
      apply decide_ext. rewrite elem_of_app, list_elem_of_singleton. split; [by left|].
      intros [?|?]; [done|lia].
Qed.

Lemma rank_score_run n row :
  row ≡ₚ seqZ 1 n -> 0 <= n -> BordaCount._rank_score n row = Ok (borda_row n row).
Proof.
  intros Hperm Hn. unfold BordaCount._rank_score, Np.range.
  assert (length row = Z.to_nat n) as Hlen by (by rewrite Hperm, length_seqZ).
  pose proof (rank_score_loop n row (length row) Hperm (le_n _)) as Hloop.
  rewrite partial_row_full in Hloop by done.
  replace (Z.of_nat (length row)) with n in Hloop by lia.
  rewrite Hloop. cbn [mbind result_bind]. by rewrite decide_False by done.
Qed.

End borda_scores.

Section borda_fit.
Context `{Argsort}.
Implicit Types (row : list Z) (rows : list (list Z)) (n : Z).

Lemma borda_row_length n row : length (borda_row n row) = Z.to_nat n.
Proof. unfold borda_row. by rewrite length_fmap, length_seqZ. Qed.

Lemma fit_scores_loop n rows t :
  0 <= n -> Forall (fun row => row ≡ₚ seqZ 1 n) rows -> (t <= length rows)%nat ->
  foldlM (fun scores i =>
            row ← Np.get rows i;
            s ← BordaCount._rank_score n row;
            s' ← Aggregator.assign_row n s;
            Np.set scores i s')
         (Np.zeros2 (Py.len rows) n) (seqZ 0 (Z.of_nat t))
  = Ok ((borda_row n <$> take t rows) ++ replicate (length rows - t) (Np.zeros n)).
Proof.
  intros Hn Hrows. induction t as [|t IH]; intros Ht.
  - cbn. unfold Np.zeros2, Py.repeat_list, Py.len. by rewrite Nat2Z.id, Nat.sub_0_r.
  - rewrite seqZ_S, foldlM_snoc, IH by lia. cbn [mbind result_bind]. rewrite Z.add_0_l.
    destruct (lookup_lt_is_Some_2 rows t) as [row Hrow]; [lia|].
    rewrite (np_get_lookup rows t row Hrow). cbn [mbind result_bind].
    rewrite rank_score_run by (by eapply Forall_lookup_1 in Hrows).
    cbn [mbind result_bind]. unfold Aggregator.assign_row.
    rewrite decide_True by (unfold Py.len; rewrite borda_row_length; lia).
    cbn [mbind result_bind].
    rewrite np_set_Z.
    2:{ unfold Py.len. rewrite length_app, length_fmap, length_take, length_replicate. lia. }
    f_equal. rewrite Nat2Z.id, (take_S_r rows t row Hrow), fmap_app. cbn [fmap list_fmap].
    rewrite insert_app_r_alt by (rewrite length_fmap, length_take; lia).
    rewrite length_fmap, length_take.
    replace (t - t `min` length rows)%nat with 0%nat by lia.
    replace (length rows - t)%nat with (S (length rows - S t)) by lia.
    cbn [replicate]. cbn. by rewrite <-app_assoc.
Qed.

Lemma zip_with_fmap_same {A} (f g : A -> Z) (l : list A) :
  zip_with Z.add (f <$> l) (g <$> l) = (fun k => f k + g k) <$> l.
Proof. induction l as [|x l IH]; cbn; [done|]. by rewrite IH. Qed.

Lemma sum_rows n rows (f : Z -> Z) :
  foldl (zip_with Z.add) (f <$> seqZ 1 n) (borda_row n <$> rows)
  = (fun k => f k + row_total n rows k) <$> seqZ 1 n.
Proof.
  revert f. induction rows as [|row rows IH]; intros f; cbn [foldl fmap list_fmap].
  - apply list_fmap_ext. intros _ k _. cbn. lia.
  - unfold borda_row at 1. rewrite zip_with_fmap_same, IH.
    apply list_fmap_ext. intros _ k _. unfold row_total. cbn [foldr]. lia.
Qed.

Lemma sum_axis0_rows n rows : Np.sum_axis0 n (borda_row n <$> rows) = totals n rows.
Proof.
  unfold Np.sum_axis0, totals.
  assert (Np.zeros n = (fun _ => 0) <$> seqZ 1 n) as ->.
  { unfold Np.zeros, Py.repeat_list. apply list_eq. intros j. rewrite list_lookup_fmap.
    destruct (decide (Z.of_nat j < n)).
    - by rewrite lookup_seqZ_lt, lookup_replicate_2 by lia.
    - rewrite lookup_seqZ_ge by lia. apply lookup_ge_None_2. rewrite length_replicate. lia. }
  by rewrite sum_rows.
Qed.

Lemma fit_run n rows :
  0 <= n -> Forall (fun row => row ≡ₚ seqZ 1 n) rows ->
  BordaCount._fit (Py.len rows) n rows
  = Ok (reverse (Z.add 1 <$> argsort (totals n rows)), totals n rows).
Proof.
  intros Hn Hrows. unfold BordaCount._fit, Np.range.
  pose proof (fit_scores_loop n rows (length rows) Hn Hrows (le_n _)) as Hloop.
  unfold Py.len in *. rewrite Hloop.
  cbn [mbind result_bind]. rewrite firstn_all, Nat.sub_diag, app_nil_r.
  by rewrite sum_axis0_rows.
Qed.

End borda_fit.

Section borda_run.
Context {DocId : Type} `{Countable DocId} `{PySet DocId} `{PySet Z} `{Argsort}
  `{!PySetLaws DocId} `{!PySetLaws Z} `{!ArgsortLaws}.
Implicit Types (rankings : list (list DocId)) (U rank : list DocId).

Lemma Forall_exists_Forall2 {A B} (P : A -> B -> Prop) (l : list A) :
  Forall (fun x => exists y, P x y) l -> exists k, Forall2 P l k.
Proof.
  induction 1 as [|x l [y Hy] _ [k Hk]]; [by exists []|].
  exists (y :: k). by constructor.
Qed.

Lemma mapM_range_get {A B} (g : A -> result B) (l : list A) ys :
  Forall2 (fun x y => g x = Ok y) l ys ->
  mapM (fun i => x ← Np.get l i; g x) (Np.range (Py.len l)) = Ok ys.
Proof.
  intros Hl. apply mapM_result_Ok. unfold Np.range, Py.len.
  apply Forall2_same_length_lookup_2.
  - rewrite length_seqZ, Nat2Z.id. by eapply Forall2_length.
  - intros i z y Hz Hy. apply lookup_seqZ in Hz as [-> _]. rewrite Z.add_0_l.
    destruct (Forall2_lookup_r _ _ _ _ _ Hl Hy) as (x & Hx & Hg).
    by rewrite (np_get_lookup l i x Hx).
Qed.

Lemma universe_NoDup rankings : NoDup (universe rankings).
Proof. apply set_iter_NoDup. Qed.

Lemma universe_elem rankings rank d : rank ∈ rankings -> d ∈ rank -> d ∈ universe rankings.
Proof.
  intros Hrank Hd. unfold universe, Aggregator.get_unique_doc_ids.
  apply set_iter_elem, list_elem_of_In, in_concat.
  exists rank. by rewrite <-!list_elem_of_In.
Qed.

Lemma totals_lookup n rows (k : Z) :
  1 <= k <= n -> totals n rows !! Z.to_nat (k - 1) = Some (row_total n rows k).
Proof.
  intros Hk. unfold totals. rewrite list_lookup_fmap, lookup_seqZ_lt by lia.
  cbn. do 2 f_equal. lia.
Qed.

Lemma totals_length n rows : length (totals n rows) = Z.to_nat n.
Proof. unfold totals. by rewrite length_fmap, length_seqZ. Qed.

(** The ids in the order of the fused ranking. *)
Lemma fused_ids_perm (data : list Z) :
  reverse (Z.add 1 <$> argsort data) ≡ₚ seqZ 1 (Py.len data).
Proof. by rewrite reverse_Permutation, argsort_perm, fmap_add_seqZ. Qed.

Lemma id_rows_perm rankings :
  Forall NoDup rankings ->
  Forall (fun row => row ≡ₚ seqZ 1 (Py.len (universe rankings)))
         (id_row (universe rankings) <$> rankings).
Proof.
  intros Hnd. apply Forall_fmap, Forall_forall. intros rank Hrank. cbn.
  apply id_row_perm; [apply universe_NoDup|by eapply Forall_forall in Hnd|].
  intros d Hd. by eapply universe_elem.
Qed.

Lemma borda_rank_by_id_run rankings :
  rankings <> [] -> Forall NoDup rankings ->
  let U := universe rankings in
  let rows := id_row U <$> rankings in
  exists out,
    BordaCount.rank_by_id rankings = Ok out /\
    Forall2 (fun id sd => sd.1 = Py.float (row_total (Py.len U) rows id) /\
                          U !! Z.to_nat (id - 1) = Some sd.2)
            (reverse (Z.add 1 <$> argsort (totals (Py.len U) rows))) out.
Proof.
  intros Hne Hnd U rows.
  pose proof (universe_NoDup rankings) as HU. fold U in HU.
  pose proof (id_rows_perm rankings Hnd) as Hrows. fold U rows in Hrows.
  set (n := Py.len U) in *.
  assert (0 <= n) as Hn by (unfold n, Py.len; lia).
  unfold BordaCount.rank_by_id.
  rewrite decide_True by (destruct rankings; [done|unfold Py.len; cbn; lia]).
  change (Aggregator.index_docs (Aggregator.get_unique_doc_ids rankings)) with (index_list U).
  change (set_iter (Aggregator.get_unique_doc_ids rankings)) with U.
  destruct (index_list_lookup U HU) as [Hmdi Hmid].
  destruct (index_list U) as [map_doc_ids map_ids_doc] eqn:Hidx. cbn [fst snd] in *.
  fold n.
  assert (mapM (fun rank =>
                  rank_ids ← mapM (Aggregator.dict_lookup map_doc_ids) rank;
                  Aggregator.assign_row n
                    (rank_ids ++ set_diff_iter
                       (Aggregator.enumerate_docs (Aggregator.get_unique_doc_ids rankings)).*1
                       rank_ids))
               rankings = Ok rows) as ->.
  { apply mapM_result_Ok, Forall2_fmap_r, Forall_Forall2_diag, Forall_forall.
    intros rank Hrank.
    pose proof (rank_ids_run U rank HU) as Hids. rewrite Hidx in Hids. cbn [fst] in Hids.
    rewrite Hids by (intros d Hd; by eapply universe_elem).
    cbn [mbind result_bind]. unfold compose. rewrite enumerate_docs_ids.
    change (set_iter (Aggregator.get_unique_doc_ids rankings)) with U. fold n.
    unfold Aggregator.assign_row.
    change ((doc_id U <$> rank) ++ set_diff_iter (seqZ 1 n) (doc_id U <$> rank))
      with (id_row U rank).
    rewrite decide_True; [done|].
    eapply Forall_forall in Hrows; [|by apply list_elem_of_fmap_2].
    unfold Py.len. rewrite Hrows, length_seqZ. lia. }
  cbn [mbind result_bind]. unfold BordaCount._rank.
  replace (Py.len rankings) with (Py.len rows) by (unfold Py.len, rows; by rewrite length_fmap).
  rewrite (fit_run n rows Hn Hrows). cbn [mbind result_bind].
  set (data := totals n rows). set (idx := reverse (Z.add 1 <$> argsort data)).
  assert (idx ≡ₚ seqZ 1 n) as Hperm.
  { unfold idx. rewrite fused_ids_perm. unfold Py.len, data. rewrite totals_length.
    by rewrite Z2Nat.id. }
  destruct (Forall_exists_Forall2
              (fun id sd =>
                 (s ← Np.get data (id - 1);
                  d ← Aggregator.dict_lookup map_ids_doc id;
                  Ok (Py.float s, d)) = Ok sd /\
                 sd.1 = Py.float (row_total n rows id) /\ U !! Z.to_nat (id - 1) = Some sd.2)
              idx) as [out Hout].
  { apply Forall_forall. intros id Hid. rewrite Hperm in Hid. apply elem_of_seqZ in Hid.
    destruct (lookup_lt_is_Some_2 U (Z.to_nat (id - 1))) as [d Hd]; [unfold n, Py.len in *; lia|].
    exists (Py.float (row_total n rows id), d).
    rewrite (np_get_Z data (id - 1) (row_total n rows id)) by (lia || (apply totals_lookup; lia)).
    cbn [mbind result_bind]. unfold Aggregator.dict_lookup.
    rewrite (proj2 (Hmid id d)); [done|].
    exists (Z.to_nat (id - 1)). split; [done|lia]. }
  exists out. split.
  - replace n with (Py.len idx).
    2:{ unfold Py.len. rewrite Hperm, length_seqZ. lia. }
    apply mapM_range_get. eapply Forall2_impl; [exact Hout|]. by intros id sd [? _].
  - eapply Forall2_impl; [exact Hout|]. by intros id sd [_ ?].
Qed.

End borda_run.

Section sorted_lookup.
Context {A : Type} (R : relation A).

Lemma StronglySorted_lookup_2 (l : list A) :
  (forall i j x y, (i < j)%nat -> l !! i = Some x -> l !! j = Some y -> R x y) ->
  StronglySorted R l.
Proof.
  induction l as [|a l IH]; intros Hl; constructor.
  - apply IH. intros i j x y Hij Hi Hj. by apply (Hl (S i) (S j)); [lia|..].
  - apply Forall_forall. intros y [j Hj]%list_elem_of_lookup.
    by apply (Hl 0%nat (S j)); [lia|..].
Qed.

Lemma StronglySorted_lookup_1 (l : list A) i j x y :
  StronglySorted R l -> (i < j)%nat -> l !! i = Some x -> l !! j = Some y -> R x y.
Proof.
  intros Hl. revert i j. induction Hl as [|a l _ IH Ha]; intros i j Hij Hi Hj; [done|].
  destruct j as [|j]; [lia|]. destruct i as [|i].
  - injection Hi as ->. eapply Forall_forall in Ha; [done|]. by eapply list_elem_of_lookup_2.
  - apply (IH i j); [lia|done..].
Qed.

Lemma fmap_inj_elem {B} (f : A -> B) (l1 l2 : list A) :
  (forall x y, x ∈ l1 -> y ∈ l2 -> f x = f y -> x = y) ->
  f <$> l1 = f <$> l2 -> l1 = l2.
Proof.
  revert l2. induction l1 as [|x l1 IH]; intros [|y l2] Hinj Heq; try done.
  cbn in Heq. injection Heq as Hxy Heq. f_equal.
  - apply Hinj; [left|left|done].
  - apply IH; [|done]. intros x' y' Hx' Hy'. apply Hinj; by right.
Qed.

End sorted_lookup.

Section borda_order.
Context {DocId : Type} `{Countable DocId} `{PySet DocId} `{PySet Z} `{Argsort}
  `{!PySetLaws DocId} `{!PySetLaws Z} `{!ArgsortLaws}.
Implicit Types (rankings : list (list DocId)) (U rank : list DocId).

Lemma row_total_borda_total U rankings k :
  row_total (Py.len U) (id_row U <$> rankings) k = borda_total U rankings k.
Proof. unfold row_total, borda_total. by rewrite foldr_fmap. Qed.

(** Places of the fused ranking, read in the order of [argsort]. *)
Lemma fused_ids_lookup (data : list Z) i id :
  reverse (Z.add 1 <$> argsort data) !! i = Some id ->
  (i < length data)%nat /\
  argsort data !! (length data - S i)%nat = Some (id - 1).
Proof.
  intros Hi. pose proof (lookup_lt_Some _ _ _ Hi) as Hlt.
  rewrite length_reverse, length_fmap in Hlt.
  assert (length (argsort data) = length data) as Hlen.
  { rewrite argsort_perm, length_seqZ. unfold Py.len. lia. }
  rewrite reverse_lookup in Hi by (rewrite length_fmap; lia).
  rewrite list_lookup_fmap, length_fmap, Hlen in Hi.
  destruct (argsort data !! (length data - S i)%nat) as [a|] eqn:Ha; [|done].
  injection Hi as <-. split; [lia|]. f_equal. lia.
Qed.

(** Every entry of the fused ranking, traced back to [argsort]. *)
Lemma borda_entries rankings :
  rankings <> [] -> Forall NoDup rankings ->
  let U := universe rankings in
  let data := totals (Py.len U) (id_row U <$> rankings) in
  exists out,
    BordaCount.rank_by_id rankings = Ok out /\
    length out = length U /\
    length data = length U /\
    (forall i s d,
       out !! i = Some (s, d) ->
       U !! Z.to_nat (doc_id U d - 1) = Some d /\
       1 <= doc_id U d <= Py.len U /\
       argsort data !! (length U - S i)%nat = Some (doc_id U d - 1) /\
       data !! Z.to_nat (doc_id U d - 1) = Some (borda_total U rankings (doc_id U d)) /\
       s = Py.float (borda_total U rankings (doc_id U d))).
Proof.
  intros Hne Hnd U data.
  destruct (borda_rank_by_id_run rankings Hne Hnd) as (out & Hrun & Hout).
  fold U in Hout. set (rows := id_row U <$> rankings) in *.
  set (n := Py.len U) in *. fold data in Hout.
  pose proof (universe_NoDup rankings) as HU. fold U in HU.
  assert (0 <= n) as Hn by (unfold n, Py.len; lia).
  assert (length data = length U) as Hdata.
  { unfold data. rewrite totals_length. unfold n, Py.len. lia. }
  assert (reverse (Z.add 1 <$> argsort data) ≡ₚ seqZ 1 n) as Hperm.
  { rewrite fused_ids_perm. unfold Py.len. rewrite Hdata. done. }
  exists out. split_and!; [done| |done|].
  - rewrite <-(Forall2_length _ _ _ Hout), Hperm, length_seqZ. unfold n, Py.len. lia.
  - intros i s d Hsd.
    destruct (Forall2_lookup_r _ _ _ _ _ Hout Hsd) as (id & Hid & Hs & Hd). cbn in Hs, Hd.
    assert (1 <= id <= n) as Hrange.
    { apply list_elem_of_lookup_2 in Hid. rewrite Hperm in Hid. apply elem_of_seqZ in Hid. lia. }
    assert (doc_id U d = id) as Hdoc by (rewrite (doc_id_lookup U d _ HU Hd); lia).
    apply fused_ids_lookup in Hid as [Hlt Ha]. rewrite Hdata in Ha.
    rewrite Hdoc. unfold n, rows in *. rewrite <-row_total_borda_total.
    split_and!; [done|lia|lia|done|by apply totals_lookup|done].
Qed.

Lemma borda_fused_perm rankings out :
  rankings <> [] -> Forall NoDup rankings ->
  BordaCount.rank_by_id rankings = Ok out ->
  out.*2 ≡ₚ universe rankings.
Proof.
  intros Hne Hnd Hrun.
  destruct (borda_entries rankings Hne Hnd) as (out' & Hrun' & Hlen & Hdata & Hentry).
  assert (out' = out) as -> by congruence.
  pose proof (universe_NoDup rankings) as HU.
  set (U := universe rankings) in *.
  set (data := totals (Py.len U) (id_row U <$> rankings)) in *.
  assert (NoDup out.*2) as Hnd_out.
  { apply NoDup_alt. intros i j d Hi Hj. rewrite list_lookup_fmap in Hi, Hj.
    destruct (out !! i) as [[si di]|] eqn:Hoi; [|done].
    destruct (out !! j) as [[sj dj]|] eqn:Hoj; [|done].
    cbn in Hi, Hj. injection Hi as ->. injection Hj as ->.
    destruct (Hentry i si d Hoi) as (_ & _ & Hai & _).
    destruct (Hentry j sj d Hoj) as (_ & _ & Haj & _).
    apply lookup_lt_Some in Hoi, Hoj.
    assert (NoDup (argsort data)) as Hnd' by (rewrite argsort_perm; apply NoDup_seqZ).
    pose proof (NoDup_lookup _ _ _ _ Hnd' Hai Haj). lia. }
  symmetry. apply submseteq_length_Permutation.
  - apply NoDup_submseteq; [done|]. intros d Hd.
    (* every document of the universe occurs, by counting *)
    destruct (decide (d ∈ out.*2)) as [|Hnot]; [done|exfalso].
    assert (out.*2 ⊆+ filter (fun x => x <> d) U) as Hsub.
    { apply NoDup_submseteq; [done|]. intros d' Hd'. apply list_elem_of_filter. split.
      - by intros ->.
      - apply list_elem_of_fmap in Hd' as ([s d''] & -> & [i Hi]%list_elem_of_lookup).
        destruct (Hentry i s d'' Hi) as (Hlook & _). by eapply list_elem_of_lookup_2. }
    apply submseteq_length in Hsub. rewrite length_fmap, Hlen in Hsub.
    pose proof (length_filter (fun x => x <> d) U) as Hle.
    assert (length (filter (fun x => x <> d) U) < length U)%nat; [|lia].
    apply list_elem_of_lookup in Hd as [k Hk].
    rewrite <-(take_drop_middle U k d Hk), filter_app, filter_cons_False by (by intros ?).
    rewrite !length_app. cbn [length].
    pose proof (length_filter (fun x => x <> d) (take k U)).
    pose proof (length_filter (fun x => x <> d) (drop (S k) U)). lia.
  - by rewrite length_fmap, Hlen.
Qed.

Lemma borda_fused_sorted rankings out i j si di sj dj :
  rankings <> [] -> Forall NoDup rankings ->
  BordaCount.rank_by_id rankings = Ok out ->
  (i < j)%nat -> out !! i = Some (si, di) -> out !! j = Some (sj, dj) ->
  (sj <= si)%Qc.
Proof.
  intros Hne Hnd Hrun Hij Hi Hj.
  destruct (borda_entries rankings Hne Hnd) as (out' & Hrun' & Hlen & Hdata & Hentry).
  assert (out' = out) as -> by congruence.
  destruct (Hentry i si di Hi) as (_ & _ & Hai & Hxi & ->).
  destruct (Hentry j sj dj Hj) as (_ & _ & Haj & Hxj & ->).
  apply lookup_lt_Some in Hi, Hj.
  unfold Py.float. rewrite <-Z2Qc_inj_le.
  eapply (argsort_sorted _ (length (universe rankings) - S j) (length (universe rankings) - S i));
    [lia|exact Haj|exact Hai|done..].
Qed.

Lemma borda_fused_ties `{!ArgsortStable} rankings out i j si di sj dj :
  rankings <> [] -> Forall NoDup rankings ->
  BordaCount.rank_by_id rankings = Ok out ->
  (i < j)%nat -> out !! i = Some (si, di) -> out !! j = Some (sj, dj) ->
  si = sj -> doc_id (universe rankings) dj < doc_id (universe rankings) di.
Proof.
  intros Hne Hnd Hrun Hij Hi Hj Heq.
  destruct (borda_entries rankings Hne Hnd) as (out' & Hrun' & Hlen & Hdata & Hentry).
  assert (out' = out) as -> by congruence.
  destruct (Hentry i si di Hi) as (_ & _ & Hai & Hxi & Hsi).
  destruct (Hentry j sj dj Hj) as (_ & _ & Haj & Hxj & Hsj).
  apply lookup_lt_Some in Hi, Hj.
  rewrite Hsi, Hsj in Heq. apply Z2Qc_inj in Heq. rewrite Heq in Hxi.
  pose proof (argsort_stable _ (length (universe rankings) - S j)
                (length (universe rankings) - S i) _ _ _ ltac:(lia) Haj Hai Hxj Hxi).
  lia.
Qed.

(** A single ranking. *)
Lemma universe_single (r : list DocId) : NoDup r -> universe [r] ≡ₚ r.
Proof.
  intros Hr. apply NoDup_Permutation; [apply universe_NoDup|done|].
  intros d. unfold universe, Aggregator.get_unique_doc_ids.
  rewrite set_iter_elem. cbn. by rewrite app_nil_r.
Qed.

Lemma single_total (r : list DocId) p d :
  NoDup r -> r !! p = Some d ->
  borda_total (universe [r]) [r] (doc_id (universe [r]) d) = Py.len r - (Z.of_nat p + 1).
Proof.
  intros Hr Hp. pose proof (universe_single r Hr) as HU.
  unfold borda_total. cbn [foldr]. rewrite Z.add_0_r.
  assert (Py.len (universe [r]) = Py.len r) as -> by (unfold Py.len; by rewrite HU).
  apply points_lookup.
  - rewrite id_row_perm; [apply NoDup_seqZ|apply universe_NoDup|done|]. by rewrite HU.
  - unfold id_row. cbn zeta. apply lookup_app_l_Some. by rewrite list_lookup_fmap, Hp.
Qed.

(** X23.  Borda Count returns a single duplicate-free ranking unchanged:
    the documents come back in the order of the ranking, with the scores
    [len(r) - 1], ..., [0]. *)
Lemma borda_single_ranking (r : list DocId) :
  NoDup r ->
  exists out,
    BordaCount.rank_by_id [r] = Ok out /\
    out.*2 = r /\
    (forall i s d, out !! i = Some (s, d) -> s = Py.float (Py.len r - (Z.of_nat i + 1))).
Proof.
  intros Hr.
  assert ([r] <> []) as Hne by done.
  assert (Forall NoDup [r]) as Hnd by (by constructor).
  destruct (borda_entries [r] Hne Hnd) as (out & Hrun & Hlen & Hdata & Hentry).
  pose proof (universe_single r Hr) as HU.
  pose proof (borda_fused_perm [r] out Hne Hnd Hrun) as Hperm. rewrite HU in Hperm.
  set (key := fun d => borda_total (universe [r]) [r] (doc_id (universe [r]) d)).
  assert (forall p d, r !! p = Some d -> key d = Py.len r - (Z.of_nat p + 1)) as Hkey.
  { intros p d Hp. by apply single_total. }
  assert (out.*2 = r) as Hdocs.
  { apply (StronglySorted_unique_strong (fun d1 d2 => key d2 <= key d1)); [| | |done].
    - intros d1 d2 Hd1 [p2 Hp2]%list_elem_of_lookup Hle1 Hle2.
      rewrite Hperm in Hd1. apply list_elem_of_lookup in Hd1 as [p1 Hp1].
      rewrite (Hkey p1 d1 Hp1), (Hkey p2 d2 Hp2) in *.
      assert (p1 = p2) as -> by lia. congruence.
    - apply StronglySorted_lookup_2. intros i j d1 d2 Hij Hi Hj.
      rewrite list_lookup_fmap in Hi, Hj.
      destruct (out !! i) as [[si di]|] eqn:Hoi; [|done].
      destruct (out !! j) as [[sj dj]|] eqn:Hoj; [|done].
      cbn in Hi, Hj. injection Hi as ->. injection Hj as ->.
      pose proof (borda_fused_sorted [r] out i j si d1 sj d2 Hne Hnd Hrun Hij Hoi Hoj) as Hle.
      destruct (Hentry i si d1 Hoi) as (_ & _ & _ & _ & ->).
      destruct (Hentry j sj d2 Hoj) as (_ & _ & _ & _ & ->).
      unfold Py.float in Hle. by rewrite <-Z2Qc_inj_le in Hle.
    - apply StronglySorted_lookup_2. intros i j d1 d2 Hij Hi Hj.
      rewrite (Hkey i d1 Hi), (Hkey j d2 Hj). lia. }
  exists out. split_and!; [done..|].
  intros i s d Hi. destruct (Hentry i s d Hi) as (_ & _ & _ & _ & ->).
  f_equal. apply Hkey. rewrite <-Hdocs, list_lookup_fmap, Hi. done.
Qed.

End borda_order.

Section stable_sort_facts.
Context {A : Type} (le : A -> A -> bool).

Lemma insert_by_perm x l : Py.insert_by le x l ≡ₚ x :: l.
Proof.
  induction l as [|y l IH]; cbn; [done|].
  destruct (le x y); [done|]. by rewrite IH, Permutation_swap.
Qed.

Lemma stable_sort_perm l : Py.stable_sort le l ≡ₚ l.
Proof.
  unfold Py.stable_sort. induction l as [|x l IH]; cbn; [done|].
  by rewrite insert_by_perm, IH.
Qed.

(** Insertion keeps a list sorted for any relation [R] that [le] bounds
    from both sides: [x] may stand before whatever [le] accepts, and
    after whatever it refuses. *)
Lemma insert_by_sorted (R : relation A) x l :
  Transitive R ->
  (forall y, y ∈ l -> le x y = true -> R x y) ->
  (forall y, y ∈ l -> le x y = false -> R y x) ->
  StronglySorted R l -> StronglySorted R (Py.insert_by le x l).
Proof.
  intros HR Hbefore Hafter Hl.
  induction Hl as [|y l Hl IH Hy]; cbn; [repeat constructor|].
  destruct (le x y) eqn:Hxy.
  - assert (R x y) as Rxy by (apply Hbefore; [left|done]).
    constructor; [by constructor|]. constructor; [done|].
    eapply Forall_impl; [exact Hy|]. intros z Hz. by trans y.
  - assert (R y x) as Ryx by (apply Hafter; [left|done]).
    constructor.
    + apply IH; intros z Hz; [apply Hbefore|apply Hafter]; by right.
    + rewrite insert_by_perm. by constructor.
Qed.

End stable_sort_facts.

Section reference_runtime.

Lemma list_set_ops_laws (A : Type) `{EqDecision A} : @PySetLaws A (list_set_ops A).
Proof.
  split; cbn.
  - apply NoDup_remove_dups.
  - intros x l. apply elem_of_remove_dups.
  - intros l r. apply NoDup_list_difference, NoDup_remove_dups.
  - intros x l r. by rewrite list_elem_of_difference, elem_of_remove_dups.
Qed.

Lemma indexed_lookup data i : indexed data !! i = (fun x => (Z.of_nat i, x)) <$> data !! i.
Proof. unfold indexed. by rewrite list_lookup_imap. Qed.

Lemma indexed_elem data a x :
  (a, x) ∈ indexed data <-> 0 <= a /\ data !! Z.to_nat a = Some x.
Proof.
  rewrite list_elem_of_lookup. setoid_rewrite indexed_lookup. split.
  - intros (i & Hi). destruct (data !! i) as [y|] eqn:Hy; [|done].
    injection Hi as <- <-. rewrite Nat2Z.id. split; [lia|done].
  - intros [Ha Hx]. exists (Z.to_nat a). rewrite Hx. cbn. f_equal. f_equal. lia.
Qed.

Lemma indexed_fst data : (indexed data).*1 = seqZ 0 (Py.len data).
Proof.
  apply list_eq. intros i. rewrite list_lookup_fmap, indexed_lookup. unfold Py.len.
  destruct (data !! i) as [x|] eqn:Hx; cbn.
  - apply lookup_lt_Some in Hx. by rewrite lookup_seqZ_lt by lia.
  - apply lookup_ge_None in Hx. by rewrite lookup_seqZ_ge by lia.
Qed.

Lemma stable_sort_indexed (l : list (Z * Z)) :
  StronglySorted (fun p q => p.1 < q.1) l ->
  StronglySorted key_then_index (Py.stable_sort (fun p q => bool_decide (p.2 <= q.2)) l).
Proof.
  assert (Transitive key_then_index) as Htrans.
  { intros p q r [Hpq Hpq'] [Hqr Hqr']. split; [lia|]. intros Heq.
    assert (p.2 = q.2) by lia. assert (q.2 = r.2) by lia. specialize (Hpq' ltac:(done)).
    specialize (Hqr' ltac:(done)). lia. }
  induction 1 as [|p l Hl IH Hp]; [constructor|].
  change (Py.stable_sort (fun p q => bool_decide (p.2 <= q.2)) (p :: l))
    with (Py.insert_by (fun p q => bool_decide (p.2 <= q.2)) p
            (Py.stable_sort (fun p q => bool_decide (p.2 <= q.2)) l)).
  apply insert_by_sorted; [done| | |done].
  - intros q Hq Hle. apply bool_decide_eq_true in Hle. split; [done|]. intros _.
    rewrite stable_sort_perm in Hq. by eapply Forall_forall in Hp.
  - intros q Hq Hle. apply bool_decide_eq_false in Hle. split; lia.
Qed.

Lemma indexed_sorted data : StronglySorted (fun p q : Z * Z => p.1 < q.1) (indexed data).
Proof.
  apply StronglySorted_lookup_2. intros i j p q Hij Hi Hj.
  rewrite indexed_lookup in Hi, Hj.
  destruct (data !! i); [|done]. destruct (data !! j); [|done].
  injection Hi as <-. injection Hj as <-. cbn. lia.
Qed.

Lemma stable_argsort_lookup data i a :
  stable_argsort data !! i = Some a ->
  exists x, Py.stable_sort (fun p q => bool_decide (p.2 <= q.2)) (indexed data) !! i = Some (a, x)
            /\ data !! Z.to_nat a = Some x.
Proof.
  unfold stable_argsort. fold (indexed data). rewrite list_lookup_fmap.
  destruct (_ !! i) as [[a' x]|] eqn:Hi; [|done]. cbn. intros [= ->].
  exists x. split; [done|].
  apply list_elem_of_lookup_2 in Hi. rewrite stable_sort_perm in Hi.
  by apply indexed_elem in Hi as [_ ?].
Qed.

Lemma insertion_argsort_laws : @ArgsortLaws insertion_argsort.
Proof.
  split; cbn.
  - intros data. unfold stable_argsort. fold (indexed data).
    by rewrite stable_sort_perm, indexed_fst.
  - intros data i j a b x y Hij Ha Hb Hx Hy.
    apply stable_argsort_lookup in Ha as (x' & Ha & Hx'), Hb as (y' & Hb & Hy').
    assert (x' = x) as -> by congruence. assert (y' = y) as -> by congruence.
    pose proof (StronglySorted_lookup_1 _ _ i j _ _
                  (stable_sort_indexed _ (indexed_sorted data)) Hij Ha Hb) as [Hle _].
    done.
Qed.

Lemma insertion_argsort_stable : @ArgsortStable insertion_argsort.
Proof.
  split; cbn. intros data i j a b x Hij Ha Hb Hx Hy.
  apply stable_argsort_lookup in Ha as (x' & Ha & Hx'), Hb as (y' & Hb & Hy').
  assert (x' = x) as -> by congruence. assert (y' = x) as -> by congruence.
  pose proof (StronglySorted_lookup_1 _ _ i j _ _
                (stable_sort_indexed _ (indexed_sorted data)) Hij Ha Hb) as [_ Hlt].
  by apply Hlt.
Qed.

End reference_runtime.

Section empty_universe.
Context {DocId : Type} `{Countable DocId} `{PySet DocId} `{!PySetLaws DocId}.

Lemma set_iter_nil : set_iter (@nil DocId) = [].
Proof.
  destruct (set_iter (@nil DocId)) as [|d l] eqn:Hl; [done|].
  assert (d ∈ @nil DocId) as Hd by (apply set_iter_elem; rewrite Hl; left).
  by apply not_elem_of_nil in Hd.
Qed.

Lemma set_diff_iter_nil (r : list DocId) : set_diff_iter (@nil DocId) r = [].
Proof.
  destruct (set_diff_iter (@nil DocId) r) as [|d l] eqn:Hl; [done|].
  assert (d ∈ @nil DocId) as Hd.
  { eapply (proj1 (set_diff_iter_elem d [] r)). rewrite Hl. left. }
  by apply not_elem_of_nil in Hd.
Qed.

Lemma concat_empty_rankings k : concat (replicate k (@nil DocId)) = [].
Proof. induction k as [|k IH]; [done|]. cbn. exact IH. Qed.

Lemma mapM_replicate {A B} (f : A -> result B) x y k :
  f x = Ok y -> mapM f (replicate k x) = Ok (replicate k y).
Proof.
  intros Hx. induction k as [|k IH]; [done|].
  cbn [replicate]. by rewrite mapM_result_cons, Hx, IH.
Qed.

Lemma foldlM_skip {A B} (f : A -> B -> result A) a l :
  (forall a' x, x ∈ l -> f a' x = Ok a') -> foldlM f a l = Ok a.
Proof.
  induction l as [|x l IH]; intros Hf; [done|].
  cbn [foldlM]. rewrite Hf by left. apply IH. intros a' y Hy. apply Hf. by right.
Qed.

Lemma markov_chain_empty_universe (k : nat) :
  MarkovChain.rank_by_id (replicate (S k) (@nil DocId)) = Raise ZeroDivisionError.
Proof.
  unfold MarkovChain.rank_by_id, Aggregator.get_unique_doc_ids, Aggregator.index_docs,
    Aggregator.enumerate_docs.
  rewrite concat_empty_rankings, set_iter_nil.
  rewrite decide_True by (unfold Py.len; rewrite length_replicate; lia).
  cbn [imap foldl].
  rewrite fmap_replicate, set_diff_iter_nil, zip_with_replicate.
  rewrite (mapM_replicate _ _ []) by done. cbn [mbind result_bind].
  rewrite foldlM_skip.
  2:{ intros ndpos [i rank] Hin.
      apply list_elem_of_lookup in Hin as [j Hj]. rewrite list_lookup_imap in Hj.
      destruct (replicate (S k) [] !! j) as [row|] eqn:Hrow; [|done].
      apply lookup_replicate in Hrow as [-> _]. by injection Hj as <- <-. }
  cbn [mbind result_bind]. done.
Qed.

End empty_universe.

Section aggregation_claims.
Context {DocId : Type} `{Countable DocId} `{PySet DocId} `{PySet Z} `{Argsort}
  `{!PySetLaws DocId} `{!PySetLaws Z} `{!ArgsortLaws}.
Implicit Types (rankings : list (list DocId)).

(** C4, as amended.  For every non-empty list of duplicate-free rankings,
    Borda Count returns the documents of the universe, each with its total
    score, in descending order of score; and, when [argsort] is stable,
    of two documents with equal total score the one with the larger
    1-based index of the universe comes first. *)
Theorem borda_order_ties_by_larger_index rankings :
  rankings <> [] -> Forall NoDup rankings ->
  exists out,
    BordaCount.rank_by_id rankings = Ok out /\
    out.*2 ≡ₚ universe rankings /\
    (forall s d, (s, d) ∈ out ->
       s = Py.float (borda_total (universe rankings) rankings (doc_id (universe rankings) d))) /\
    (forall i j si di sj dj,
       (i < j)%nat -> out !! i = Some (si, di) -> out !! j = Some (sj, dj) ->
       (sj <= si)%Qc /\
       (ArgsortStable -> si = sj ->
        doc_id (universe rankings) dj < doc_id (universe rankings) di)).
Proof.
  intros Hne Hnd.
  destruct (borda_entries rankings Hne Hnd) as (out & Hrun & _ & _ & Hentry).
  exists out. split_and!; [done|by apply borda_fused_perm| |].
  - intros s d [i Hi]%list_elem_of_lookup. by destruct (Hentry i s d Hi) as (_ & _ & _ & _ & ?).
  - intros i j si di sj dj Hij Hi Hj. split.
    + exact (borda_fused_sorted rankings out i j si di sj dj Hne Hnd Hrun Hij Hi Hj).
    + intros Hstable.
      exact (borda_fused_ties rankings out i j si di sj dj Hne Hnd Hrun Hij Hi Hj).
Qed.

Lemma borda_empty_rankings (k : nat) :
  BordaCount.rank_by_id (replicate (S k) (@nil DocId)) = Ok [].
Proof.
  assert (replicate (S k) (@nil DocId) <> []) as Hne by done.
  assert (Forall NoDup (replicate (S k) (@nil DocId))) as Hnd.
  { apply Forall_replicate. constructor. }
  destruct (borda_entries _ Hne Hnd) as (out & Hrun & Hlen & _).
  unfold universe, Aggregator.get_unique_doc_ids in Hlen.
  rewrite concat_empty_rankings, set_iter_nil in Hlen.
  by destruct out.
Qed.

(** C6 (the code departs from the claim).  The claim says that either
    strategy returns a single duplicate-free ranking unchanged.  For the
    empty ranking Borda Count returns the empty ranking, and MarkovChain
    raises [ZeroDivisionError] ([erg_number / items] with no items). *)
Theorem single_empty_ranking_diverges :
  BordaCount.rank_by_id [@nil DocId] = Ok [] /\
  MarkovChain.rank_by_id [@nil DocId] = Raise ZeroDivisionError.
Proof.
  split.
  - exact (borda_empty_rankings 0).
  - exact (markov_chain_empty_universe 0).
Qed.

(** C10 (the code departs from the claim).  The claim says that for every
    non-empty list of duplicate-free rankings both strategies return one
    pair per document of the universe.  For a list of [k + 1] empty
    rankings the universe is empty; Borda Count returns the empty list,
    and MarkovChain raises [ZeroDivisionError] instead of returning. *)
Theorem empty_rankings_diverge (k : nat) :
  universe (replicate (S k) (@nil DocId)) = [] /\
  BordaCount.rank_by_id (replicate (S k) (@nil DocId)) = Ok [] /\
  MarkovChain.rank_by_id (replicate (S k) (@nil DocId)) = Raise ZeroDivisionError.
Proof.
  split_and!.
  - unfold universe, Aggregator.get_unique_doc_ids.
    by rewrite concat_empty_rankings, set_iter_nil.
  - apply borda_empty_rankings.
  - apply markov_chain_empty_universe.
Qed.

End aggregation_claims.



(** * The Markov-chain aggregator on a non-empty universe *)


Section markov_shapes.

Lemma mapM_total {A B} (f : A -> result B) (l : list A) :
  (forall x, x ∈ l -> exists y, f x = Ok y) ->
  exists ys, mapM f l = Ok ys /\ length ys = length l.
Proof.
  intros Hf.
  destruct (Forall_exists_Forall2 (fun x y => f x = Ok y) l) as [ys Hys].
  { apply Forall_forall. intros x Hx. by apply Hf. }
  exists ys. split; [by apply mapM_result_Ok|]. symmetry. by eapply Forall2_length.
Qed.

Lemma np_set2_shape {A} (m : list (list A)) r c (i j : Z) v :
  has_shape r c m -> 0 <= i < Z.of_nat r -> 0 <= j < Z.of_nat c ->
  exists m', Np.set2 m i j v = Ok m' /\ has_shape r c m'.
Proof.
  intros [Hr Hc] Hi Hj. unfold Np.set2.
  destruct (lookup_lt_is_Some_2 m (Z.to_nat i)) as [row Hrow]; [lia|].
  rewrite (np_get_Z m i row) by (lia || done). cbn [mbind result_bind].
  assert (length row = c) as Hlen by (by eapply Forall_lookup_1 in Hc).
  rewrite np_set_Z by (unfold Py.len; lia). cbn [mbind result_bind].
  rewrite np_set_Z by (unfold Py.len; lia).
  eexists. split; [done|]. split.
  - by rewrite length_insert.
  - apply Forall_insert; [done|]. by rewrite length_insert.
Qed.

(** Filling [ndpos] keeps its shape. *)
Lemma ndpos_fill_shape (n nrank : nat) (ndranks : list (list Z)) ndpos :
  (length ndranks <= nrank)%nat ->
  Forall (Forall (fun doc => 1 <= doc <= Z.of_nat n)) ndranks ->
  has_shape n nrank ndpos ->
  forall offset, (offset + length ndranks <= nrank)%nat ->
  exists ndpos',
    foldlM (fun ndpos '(i, rank) =>
              foldlM (fun ndpos '(pos, doc) => Np.set2 ndpos (doc - 1) i (pos + 1))
                     ndpos (imap (fun pos doc => (Z.of_nat pos, doc)) rank))
           ndpos (imap (fun i rank => (Z.of_nat (offset + i), rank)) ndranks)
    = Ok ndpos' /\ has_shape n nrank ndpos'.
Proof.
  intros _ Hdocs. revert ndpos.
  induction Hdocs as [|rank ndranks Hrank _ IH]; intros ndpos Hshape offset Hoff.
  - by exists ndpos.
  - cbn [imap foldlM]. rewrite Nat.add_0_r.
    assert (offset < nrank)%nat as Hlt by (cbn in Hoff; lia).
    assert (forall m (k : nat), has_shape n nrank m ->
              exists m',
                foldlM (fun ndpos '(pos, doc) =>
                          Np.set2 ndpos (doc - 1) (Z.of_nat offset) (pos + 1))
                       m (imap (fun pos doc => (Z.of_nat (k + pos), doc)) rank)
                = Ok m' /\ has_shape n nrank m') as Hinner.
    { clear -Hrank Hlt. induction Hrank as [|doc rank Hdoc _ IH]; intros m k Hm.
      - by exists m.
      - cbn [imap foldlM].
        destruct (np_set2_shape m n nrank (doc - 1) (Z.of_nat offset)
                    (Z.of_nat (k + 0) + 1) Hm) as (m1 & -> & Hm1); [lia|lia|].
        destruct (IH m1 (S k) Hm1) as (m' & Hrun & Hm').
        exists m'. split; [|done]. rewrite <-Hrun. f_equal.
        apply imap_ext. intros pos doc' _. cbn. do 2 f_equal. lia. }
    destruct (Hinner ndpos 0%nat Hshape) as (m1 & Hrun1 & Hm1).
    cbn [Nat.add] in Hrun1. rewrite Hrun1.
    destruct (IH m1 Hm1 (S offset)) as (m' & Hrun & Hm'); [cbn in Hoff; lia|].
    exists m'. split; [|done]. rewrite <-Hrun. f_equal.
    apply imap_ext. intros i rank' _. cbn. do 2 f_equal. lia.
Qed.

End markov_shapes.

Section markov_pipeline.
Implicit Types (n : nat) (m : list (list Qc)) (v : list Qc).

Lemma mapM_total_with {A B} (P : B -> Prop) (f : A -> result B) (l : list A) :
  (forall x, x ∈ l -> exists y, f x = Ok y /\ P y) ->
  exists ys, mapM f l = Ok ys /\ length ys = length l /\ Forall P ys.
Proof.
  intros Hf.
  destruct (Forall_exists_Forall2 (fun x y => f x = Ok y /\ P y) l) as [ys Hys].
  { apply Forall_forall. intros x Hx. by apply Hf. }
  exists ys. split_and!.
  - apply mapM_result_Ok. eapply Forall2_impl; [exact Hys|]. by intros x y [? _].
  - symmetry. by eapply Forall2_length.
  - eapply Forall2_Forall_r; [exact Hys|]. apply Forall_true. by intros x y [_ ?].
Qed.

Lemma partial_matrix_shape (df : MarkovChain.DataFrame) n lists :
  length (MarkovChain.df_data df) = n ->
  exists P,
    MarkovChain.get_partial_transition_matrix df MarkovChain.mc4 (Z.of_nat n) lists = Ok P /\
    has_shape n n P.
Proof.
  intros Hdata. unfold MarkovChain.get_partial_transition_matrix, Np.range.
  assert (forall i, i ∈ seqZ 0 (Z.of_nat n) -> exists row, MarkovChain.iloc df i = Ok row) as Hiloc.
  { intros i Hi%elem_of_seqZ. unfold MarkovChain.iloc.
    destruct (lookup_lt_is_Some_2 (MarkovChain.df_data df) (Z.to_nat i)) as [row Hrow]; [lia|].
    exists row. apply np_get_Z; [lia|done]. }
  match goal with
  | |- exists P, mapM ?F ?l = Ok P /\ _ =>
      destruct (mapM_total_with (fun row : list Qc => length row = n) F l)
        as (P & HP & Hlen & Hrows)
  end.
  - intros i Hi. destruct (Hiloc i Hi) as [ri Hri].
    match goal with
    | |- exists y, mapM ?F ?l = Ok y /\ _ =>
        destruct (mapM_total F l) as (row & Hrow & Hrowlen)
    end.
    + intros j Hj. destruct (Hiloc j Hj) as [rj Hrj]. rewrite Hri, Hrj.
      cbn [mbind result_bind]. cbn zeta.
      destruct (decide _); [by eexists|]. destruct (decide _); by eexists.
    + exists row. split; [exact Hrow|]. rewrite Hrowlen, length_seqZ. lia.
  - exists P. split; [exact HP|]. split; [|done]. rewrite Hlen, length_seqZ. lia.
Qed.

Lemma normalized_shape m n (items : Z) :
  has_shape n n m -> has_shape n n (MarkovChain.get_normalized_transition_matrix m items).
Proof.
  intros [Hlen Hrows]. unfold MarkovChain.get_normalized_transition_matrix. split.
  - by rewrite length_imap, length_fmap.
  - apply Forall_forall. intros row [i Hi]%list_elem_of_lookup.
    rewrite list_lookup_imap, list_lookup_fmap in Hi.
    destruct (m !! i) as [row0|] eqn:Hrow0; [|done]. cbn in Hi. injection Hi as <-.
    rewrite length_insert, length_fmap. by eapply Forall_lookup_1 in Hrows.
Qed.

Lemma float_nonzero (z : Z) : z <> 0 -> Py.float z <> 0%Qc.
Proof. intros Hz. rewrite <-Z2Qc_inj_0. unfold Py.float. by intros ?%Z2Qc_inj. Qed.

Lemma ergodic_shape m n erg :
  (0 < n)%nat -> has_shape n n m ->
  exists E, MarkovChain.get_ergodic_transition_matrix m (Z.of_nat n) erg = Ok E /\
            has_shape n n E.
Proof.
  intros Hn [Hlen Hrows]. unfold MarkovChain.get_ergodic_transition_matrix, Py.truediv.
  rewrite decide_False by (apply float_nonzero; lia). cbn [mbind result_bind].
  eexists. split; [done|]. split.
  - by rewrite !length_fmap.
  - rewrite !Forall_fmap. eapply Forall_impl; [exact Hrows|].
    intros row Hrow. cbn. by rewrite !length_fmap.
Qed.

Lemma initial_distribution_length n :
  (0 < n)%nat ->
  exists v, MarkovChain.get_initial_distribution_matrix (Z.of_nat n) = Ok v /\ length v = n.
Proof.
  intros Hn. unfold MarkovChain.get_initial_distribution_matrix, Py.truediv.
  rewrite decide_False by (apply float_nonzero; lia). cbn [mbind result_bind].
  eexists. split; [done|]. unfold Py.repeat_list. rewrite length_replicate. lia.
Qed.

Lemma dot_length v m n :
  length v = n -> has_shape n n m -> length (MarkovChain.dot v m) = n.
Proof.
  intros Hv [Hm Hrows]. unfold MarkovChain.dot.
  assert (forall (ps : list (Qc * list Qc)) acc,
            length acc = n -> Forall (fun p => length p.2 = n) ps ->
            length (foldl (fun acc '(x, row) => zip_with Qcplus acc (Qcmult x <$> row)) acc ps)
            = n) as Hfold.
  { induction ps as [|[x row] ps IH]; intros acc Hacc Hps; [done|].
    apply Forall_cons in Hps as [Hrow Hps]. cbn [foldl]. apply IH; [|done].
    rewrite length_zip_with, length_fmap. cbn in Hrow. lia. }
  apply Hfold; [by rewrite length_replicate|].
  apply Forall_forall. intros [x row] Hin%elem_of_zip_r. cbn.
  by eapply Forall_forall in Hrows.
Qed.

Lemma stationary_length fuel v m precision n :
  length v = n -> has_shape n n m ->
  length (MarkovChain.stationary_loop fuel v m precision) = n.
Proof.
  intros Hv Hm. revert v Hv. induction fuel as [|fuel IH]; intros v Hv; [done|].
  cbn [MarkovChain.stationary_loop]. cbn zeta.
  destruct (forallb _ _); [done|]. apply IH. by apply dot_length.
Qed.

End markov_pipeline.

Section py_dict.
Context {K V : Type} `{EqDecision K}.
Implicit Types (d : list (K * V)).

Lemma dict_get_set_eq k v d : Py.dict_get k (Py.dict_set k v d) = Some v.
Proof.
  induction d as [|[k' v'] d IH]; cbn.
  - by rewrite decide_True.
  - destruct (decide (k = k')) as [->|Hne]; cbn.
    + by rewrite decide_True.
    + by rewrite decide_False.
Qed.

Lemma dict_get_set_ne k k' v d :
  k <> k' -> Py.dict_get k' (Py.dict_set k v d) = Py.dict_get k' d.
Proof.
  intros Hne. induction d as [|[k0 v0] d IH]; cbn.
  - by rewrite decide_False.
  - destruct (decide (k = k0)) as [->|Hne0]; cbn.
    + by rewrite !decide_False by done.
    + destruct (decide (k' = k0)); [done|apply IH].
Qed.

Lemma dict_set_fresh k v d : k ∉ d.*1 -> Py.dict_set k v d = d ++ [(k, v)].
Proof.
  induction d as [|[k' v'] d IH]; cbn; [done|].
  intros [Hne Hk]%not_elem_of_cons. rewrite decide_False by done. by rewrite IH.
Qed.

Lemma dict_fill d kvs :
  NoDup (d.*1 ++ kvs.*1) ->
  foldl (fun ranks '(item, rank) => Py.dict_set item rank ranks) d kvs = d ++ kvs.
Proof.
  revert d. induction kvs as [|[k v] kvs IH]; intros d Hnd; cbn [foldl].
  - by rewrite app_nil_r.
  - cbn in Hnd. rewrite dict_set_fresh.
    + rewrite IH; [by rewrite <-app_assoc|].
      rewrite fmap_app. cbn. by rewrite <-app_assoc.
    + apply NoDup_app in Hnd as (_ & Hdisj & _). intros Hk. apply (Hdisj k Hk). left.
Qed.

End py_dict.

Section markov_ranks.

(** Every probability of the stationary distribution gets a rank. *)
Lemma aggregated_ranks_total (matrix : list Qc) :
  exists final_ranks,
    MarkovChain.get_aggregated_ranks matrix = Ok final_ranks /\
    length final_ranks = length matrix.
Proof.
  unfold MarkovChain.get_aggregated_ranks.
  set (sorted := Py.stable_sort (fun x y => bool_decide (y <= x)%Qc) matrix).
  assert (forall (l : list Qc) (st : list (Qc * Z) * Z) x,
            x ∈ l \/ is_Some (Py.dict_get x st.1) ->
            is_Some (Py.dict_get x
              (foldl (fun '(a, rank) num =>
                        match Py.dict_get num a with
                        | Some _ => (a, rank)
                        | None => (Py.dict_set num rank a, rank + 1)
                        end) st l).1)) as Hfill.
  { induction l as [|y l IH]; intros [a rank] x Hx; cbn [foldl].
    - destruct Hx as [Hx|Hx]; [by apply elem_of_nil in Hx|done].
    - apply IH. destruct (decide (x ∈ l)) as [|Hnot]; [by left|right].
      destruct (Py.dict_get y a) as [r|] eqn:Hy; cbn [fst].
      + destruct Hx as [[->|?]%elem_of_cons|Hx]; [by rewrite Hy|done..].
      + destruct (decide (y = x)) as [->|Hne].
        * by rewrite dict_get_set_eq.
        * rewrite dict_get_set_ne by done.
          destruct Hx as [[->|?]%elem_of_cons|Hx]; done. }
  destruct (foldl _ _ sorted) as [a rank] eqn:Hfold.
  apply mapM_total. intros x Hx.
  specialize (Hfill sorted ([], 1) x). rewrite Hfold in Hfill. cbn [fst] in Hfill.
  destruct Hfill as [r Hr].
  - left. unfold sorted. by rewrite stable_sort_perm.
  - rewrite Hr. by eexists.
Qed.

Lemma mapped_final_ranks_keys (df : MarkovChain.DataFrame) (final_ranks : list Z) n :
  MarkovChain.df_rows df = Z.of_nat n -> length final_ranks = n ->
  (MarkovChain.get_mapped_final_ranks df final_ranks).*1 = seqZ 0 (Z.of_nat n).
Proof.
  intros Hrows Hlen. unfold MarkovChain.get_mapped_final_ranks. rewrite Hrows.
  assert ((zip (seqZ 0 (Z.of_nat n + 1)) final_ranks).*1 = seqZ 0 (Z.of_nat n)) as Hkeys.
  { rewrite seqZ_app by lia. rewrite zip_with_app_l, fmap_app.
    rewrite fst_zip by (rewrite length_seqZ, length_take; lia).
    rewrite drop_ge by (rewrite length_seqZ; lia).
    by rewrite zip_with_nil_r, app_nil_r. }
  rewrite dict_fill; cbn [fmap list_fmap app]; rewrite Hkeys; [done|apply NoDup_seqZ].
Qed.

End markov_ranks.

Section markov_run.
Context {DocId : Type} `{Countable DocId} `{PySet DocId} `{!PySetLaws DocId}.
Implicit Types (rankings : list (list DocId)) (U rank : list DocId).

Lemma zeros2_shape (r c : nat) : has_shape r c (Np.zeros2 (Z.of_nat r) (Z.of_nat c)).
Proof.
  unfold Np.zeros2, Np.zeros, Py.repeat_list. rewrite !Nat2Z.id. split.
  - by rewrite length_replicate.
  - apply Forall_replicate. by rewrite length_replicate.
Qed.

Lemma padded_ranking_perm rankings rank :
  rank ∈ rankings -> NoDup rank ->
  rank ++ set_diff_iter (Aggregator.get_unique_doc_ids rankings) rank ≡ₚ universe rankings.
Proof.
  intros Hrank Hnd. apply NoDup_Permutation; [|apply universe_NoDup|].
  - apply NoDup_app. split_and!; [done| |apply set_diff_iter_NoDup].
    intros d Hd Hpad. by apply set_diff_iter_elem in Hpad as [_ ?].
  - intros d. rewrite elem_of_app, set_diff_iter_elem. unfold universe.
    rewrite set_iter_elem. split.
    + intros [Hd|[Hd _]]; [|done]. apply set_iter_elem.
      by apply (universe_elem rankings rank d).
    + intros Hd. destruct (decide (d ∈ rank)); [by left|by right].
Qed.

Lemma markov_rows rankings :
  Forall NoDup rankings ->
  let U := universe rankings in
  let docs := Aggregator.get_unique_doc_ids rankings in
  exists ndranks,
    mapM (fun '(rank, padding) =>
            ids ← mapM (Aggregator.dict_lookup (index_list U).1) rank;
            pad_ids ← mapM (Aggregator.dict_lookup (index_list U).1) padding;
            Aggregator.assign_row (Py.len U) (ids ++ pad_ids))
         (zip rankings ((fun rank => set_diff_iter docs rank) <$> rankings))
    = Ok ndranks /\
    length ndranks = length rankings /\
    Forall (Forall (fun doc => 1 <= doc <= Py.len U)) ndranks.
Proof.
  intros Hnd U docs. pose proof (universe_NoDup rankings) as HU. fold U in HU.
  match goal with
  | |- exists y, mapM ?F ?l = Ok y /\ _ =>
      destruct (mapM_total_with (Forall (fun doc => 1 <= doc <= Py.len U)) F l)
        as (ndranks & Hrun & Hlen & Hrows)
  end.
  - intros [rank padding] Hin.
    apply list_elem_of_lookup in Hin as [i Hi].
    apply lookup_zip_with_Some in Hi as (rank' & padding' & [= <- <-] & Hrank & Hpad).
    rewrite list_lookup_fmap, Hrank in Hpad. cbn in Hpad. injection Hpad as <-.
    assert (rank ∈ rankings) as Hrank_in by (by eapply list_elem_of_lookup_2).
    assert (NoDup rank) as Hrank_nd by (by eapply Forall_forall in Hnd).
    pose proof (padded_ranking_perm rankings rank Hrank_in Hrank_nd) as Hperm.
    fold U docs in Hperm.
    assert (rank ⊆ U) as Hsub1.
    { intros d Hd. rewrite <-Hperm. apply elem_of_app. by left. }
    assert (set_diff_iter docs rank ⊆ U) as Hsub2.
    { intros d Hd. rewrite <-Hperm. apply elem_of_app. by right. }
    rewrite !rank_ids_run by done. cbn [mbind result_bind].
    unfold Aggregator.assign_row. rewrite <-fmap_app.
    rewrite decide_True by (unfold Py.len; by rewrite length_fmap, Hperm).
    eexists. split; [done|].
    apply Forall_fmap, Forall_forall. intros d Hd. cbn.
    apply doc_id_elem; [done|]. by rewrite <-Hperm.
  - exists ndranks. split_and!; [done| |done].
    by rewrite Hlen, length_zip_with, length_fmap, Nat.min_id.
Qed.

Lemma markov_chain_fused_perm rankings :
  rankings <> [] -> Forall NoDup rankings -> universe rankings <> [] ->
  exists out,
    MarkovChain.rank_by_id rankings = Ok out /\ out.*2 ≡ₚ universe rankings.
Proof.
  intros Hne Hnd Hnonempty.
  set (U := universe rankings) in *.
  pose proof (universe_NoDup rankings) as HU. fold U in HU.
  set (n := length U). set (nrank := length rankings).
  assert (0 < n)%nat as Hn by (unfold n; destruct U; [done|cbn; lia]).
  unfold MarkovChain.rank_by_id.
  rewrite decide_True by (destruct rankings; [done|unfold Py.len; cbn; lia]).
  change (Aggregator.index_docs (Aggregator.get_unique_doc_ids rankings)) with (index_list U).
  change (set_iter (Aggregator.get_unique_doc_ids rankings)) with U.
  destruct (markov_rows rankings Hnd) as (ndranks & Hrows & Hlen & Hdocs). fold U in Hrows, Hdocs.
  destruct (index_list_lookup U HU) as [_ Hmid].
  destruct (index_list U) as [map_doc_ids map_ids_doc] eqn:Hidx. cbn [fst snd] in *.
  rewrite Hrows. cbn [mbind result_bind].
  destruct (ndpos_fill_shape n nrank ndranks (Np.zeros2 (Z.of_nat n) (Z.of_nat nrank)))
    with (offset := 0%nat) as (ndpos & Hfill & Hshape);
    [unfold nrank; lia|exact Hdocs|apply zeros2_shape|unfold nrank; lia|].
  change (Py.len U) with (Z.of_nat n). change (Py.len rankings) with (Z.of_nat nrank).
  cbn [Nat.add] in Hfill. rewrite Hfill. cbn [mbind result_bind].
  (* the aggregator proper *)
  unfold MarkovChain.mc4_aggregator, MarkovChain.get_matrix_shape.
  cbn [MarkovChain.df_rows MarkovChain.df_cols].
  destruct (partial_matrix_shape
              {| MarkovChain.df_rows := Z.of_nat n; MarkovChain.df_cols := Z.of_nat nrank;
                 MarkovChain.df_data := ndpos |} n (Z.of_nat nrank))
    as (P & -> & HP); [by destruct Hshape|].
  cbn [mbind result_bind].
  pose proof (normalized_shape P n (Z.of_nat n) HP) as HN.
  destruct (ergodic_shape _ n MarkovChain.default_erg_number Hn HN) as (E & -> & HE).
  cbn [mbind result_bind].
  destruct (initial_distribution_length n Hn) as (v0 & -> & Hv0).
  cbn [mbind result_bind].
  unfold MarkovChain.get_stationary_distribution_matrix.
  set (pi := MarkovChain.stationary_loop _ v0 E _).
  assert (length pi = n) as Hpi by (by apply stationary_length).
  clearbody pi.
  destruct (aggregated_ranks_total pi) as (final_ranks & -> & Hranks).
  cbn [mbind result_bind].
  set (mc4 := MarkovChain.get_mapped_final_ranks _ final_ranks).
  assert (mc4.*1 = seqZ 0 (Z.of_nat n)) as Hkeys.
  { apply mapped_final_ranks_keys; [done|lia]. }
  set (out0 := (fun p : Z * Z * DocId => (Py.float (Z.of_nat n - p.1.2), p.2)) <$> zip mc4 U).
  assert (length mc4 = n) as Hmc4.
  { rewrite <-(length_fmap fst mc4), Hkeys, length_seqZ. lia. }
  clearbody mc4. clear Hfill Hrows.
  assert (mapM (fun '(item, rank) =>
                  d ← Aggregator.dict_lookup map_ids_doc (item + 1);
                  Ok (Py.float (Z.of_nat n - rank), d)) mc4 = Ok out0) as ->.
  { apply mapM_result_Ok, Forall2_same_length_lookup_2.
    - unfold out0. rewrite length_fmap, length_zip_with. fold n. lia.
    - intros i [item rank] sd Hi Hsd. unfold out0 in Hsd.
      rewrite list_lookup_fmap in Hsd.
      destruct (zip mc4 U !! i) as [[[item' rank'] d]|] eqn:Hzip; [|done].
      apply lookup_zip_with_Some in Hzip as (p & d' & Heq & Hp & Hd).
      rewrite Hi in Hp. cbn [fmap option_fmap option_map] in Hsd. simplify_eq.
      cbn [fst snd].
      assert (item = Z.of_nat i) as ->.
      { assert (mc4.*1 !! i = Some item) as Hk by (by rewrite list_lookup_fmap, Hi).
        rewrite Hkeys in Hk. apply lookup_seqZ in Hk as [-> _]. lia. }
      unfold Aggregator.dict_lookup.
      rewrite (proj2 (Hmid (Z.of_nat i + 1) d')); [done|].
      exists i. split; [done|lia]. }
  cbn [mbind result_bind]. eexists. split; [done|].
  rewrite stable_sort_perm. unfold out0.
  rewrite <-list_fmap_compose.
  assert ((snd ∘ (fun p : Z * Z * DocId => (Py.float (Z.of_nat n - p.1.2), p.2)))
            <$> zip mc4 U = (zip mc4 U).*2) as -> by (by apply list_fmap_ext).
  rewrite snd_zip; [done|]. fold n. lia.
Qed.

End markov_run.

Section aggregators_nonempty_universe.
Context {DocId : Type} `{Countable DocId} `{PySet DocId} `{PySet Z} `{Argsort}
  `{!PySetLaws DocId} `{!PySetLaws Z} `{!ArgsortLaws}.

(** Apart from the empty universe, both strategies return one pair per
    document of the universe. *)
Lemma aggregators_cover_universe (rankings : list (list DocId)) :
  rankings <> [] -> Forall NoDup rankings -> universe rankings <> [] ->
  (exists out, BordaCount.rank_by_id rankings = Ok out /\ out.*2 ≡ₚ universe rankings) /\
  (exists out, MarkovChain.rank_by_id rankings = Ok out /\ out.*2 ≡ₚ universe rankings).
Proof.
  intros Hne Hnd HU. split.
  - destruct (borda_entries rankings Hne Hnd) as (out & Hrun & _).
    exists out. split; [done|]. by apply borda_fused_perm.
  - by apply markov_chain_fused_perm.
Qed.

End aggregators_nonempty_universe.


(** * More facts about the metric library *)

Section metric_frame.
Implicit Types (v w : list Qc) (kw : kwargs) (limit : Z).

Lemma padded_length v limit : Py.len (padded v limit) = Z.max (Py.len v) limit.
Proof. unfold padded, Py.len. rewrite length_app, length_replicate. lia. Qed.

Lemma padded_idemp v limit : padded (padded v limit) limit = padded v limit.
Proof. apply padded_ge. rewrite padded_length. lia. Qed.

Lemma padded_same_limit v (o : option Z) :
  default (Py.len (padded v (default (Py.len v) o))) o = default (Py.len v) o.
Proof. destruct o as [L|]; cbn; [done|]. by rewrite padded_ge by lia. Qed.

Lemma f1_run kw v :
  let after := padded v (default (Py.len v) (kw_limit kw)) in
  let prec := precision_value v (kw_limit kw) in
  let rec := recall_value after (kw_limit kw) (kw_nrel kw) in
  Defaults.f1 kw v =
    (Ok (if decide (0 < prec + rec)%Qc then (2 * (prec * rec / (prec + rec)))%Qc else 0%Qc),
     after).
Proof.
  intros after prec rec. unfold Defaults.f1, mbind, M_bind, mret, M_ret.
  rewrite precision_run, recall_run.
  rewrite padded_same_limit, padded_idemp. done.
Qed.

(** X1.  Whatever the keyword arguments, recall, precision, f1 and NDCG
    leave in the caller's list the vector it held, followed by as many zeros
    as it takes to reach [limit]: nothing is removed or rewritten, the list
    is as long as the larger of [len(v)] and [limit], and it is unchanged
    exactly when [limit] is at most [len(v)]. *)
Theorem metric_argument_after_call `{NumpyFloat} kw v :
  let limit := default (Py.len v) (kw_limit kw) in
  let after := v ++ replicate (Z.to_nat (limit - Py.len v)) 0%Qc in
  (Defaults.recall kw v).2 = after /\
  (Defaults.precision kw v).2 = after /\
  (Defaults.f1 kw v).2 = after /\
  (Ndcg.NDCG kw v).2 = after /\
  Py.len after = Z.max (Py.len v) limit /\
  (after = v <-> limit <= Py.len v).
Proof.
  intros limit after.
  rewrite recall_run, precision_run, f1_run, NDCG_run. cbn [snd].
  split_and!; try done.
  - apply padded_length.
  - split.
    + intros Heq. apply (f_equal Py.len) in Heq.
      change after with (padded v limit) in Heq. rewrite padded_length in Heq. lia.
    + intros Hle. by apply padded_ge.
Qed.

End metric_frame.

Section metric_bounds.
Implicit Types (v w : list Qc) (kw : kwargs) (limit : Z).

Lemma slice_stop_take {A} (l : list A) stop : exists m, Py.slice_stop l stop = take m l.
Proof. unfold Py.slice_stop. eauto. Qed.

Lemma slice_stop_length {A} (l : list A) stop :
  0 <= stop -> Py.len (Py.slice_stop l stop) <= stop.
Proof.
  intros Hs. unfold Py.slice_stop, Py.len. rewrite decide_False by lia.
  rewrite length_take. lia.
Qed.

Lemma positive_count_app w1 w2 :
  positive_count (w1 ++ w2) = positive_count w1 + positive_count w2.
Proof. unfold positive_count, Py.len. rewrite filter_app, length_app. lia. Qed.

Lemma positive_count_zeros k : positive_count (replicate k 0%Qc) = 0.
Proof.
  unfold positive_count, Py.len. induction k as [|k IH]; [done|].
  cbn [replicate]. by rewrite filter_cons_False.
Qed.

Lemma positive_count_take w m : positive_count (take m w) <= positive_count w.
Proof.
  rewrite <-(take_drop m w) at 2. rewrite positive_count_app.
  pose proof (positive_count_bounds (drop m w)). lia.
Qed.

Lemma positive_count_padded v limit : positive_count (padded v limit) = positive_count v.
Proof. unfold padded. rewrite positive_count_app, positive_count_zeros. lia. Qed.

Lemma positive_count_window v limit stop :
  positive_count (Py.slice_stop (padded v limit) stop) <= positive_count v.
Proof.
  destruct (slice_stop_take (padded v limit) stop) as [m ->].
  rewrite <-(positive_count_padded v limit). apply positive_count_take.
Qed.

Lemma float_le a b : (Py.float a <= Py.float b)%Qc <-> a <= b.
Proof. unfold Py.float. by rewrite <-Z2Qc_inj_le. Qed.

Lemma float_ne_0 a : a <> 0 -> Py.float a <> 0%Qc.
Proof. intros Ha E. apply Ha. unfold Py.float in E. rewrite <-Z2Qc_inj_0 in E. by apply Z2Qc_inj in E. Qed.

Lemma Qc_ratio_le (c d n : Z) :
  0 < n -> c <= d -> (Py.float c / Py.float n <= Py.float d / Py.float n)%Qc.
Proof.
  intros Hn Hcd.
  assert (0 < Py.float n)%Qc as Hfn by by apply float_pos.
  assert (Py.float n <> 0%Qc) as Hne by (apply float_ne_0; lia).
  apply (Qcmult_le_mono_pos_r _ _ (Py.float n)); [done|].
  unfold Qcdiv. rewrite <-!Qcmult_assoc, Qcmult_inv_l, !Qcmult_1_r by done.
  by apply float_le.
Qed.

Lemma Qc_ratio_nonneg (c n : Z) : 0 < n -> 0 <= c -> (0 <= Py.float c / Py.float n)%Qc.
Proof.
  intros Hn Hc. pose proof (Qc_ratio_le 0 c n Hn Hc) as Hle.
  unfold Py.float in Hle at 1. rewrite Z2Qc_inj_0 in Hle.
  unfold Qcdiv in Hle at 1. by rewrite Qcmult_0_l in Hle.
Qed.

(** X2.  [precision] never raises.  It returns 0.0 when [limit] is not
    above zero; otherwise its value is at least 0 and at most
    [(limit + 1) / limit], the window [rank[:limit + 1]] holding one entry
    more than [limit]; and it is at most 1 when the vector is not longer than
    [limit]. *)
Theorem precision_bounds kw v :
  let limit := default (Py.len v) (kw_limit kw) in
  exists p,
    (Defaults.precision kw v).1 = Ok p /\
    (0 <= p)%Qc /\
    (limit <= 0 -> p = 0%Qc) /\
    (0 < limit -> (p <= Py.float (limit + 1) / Py.float limit)%Qc) /\
    (0 < limit -> Py.len v <= limit -> (p <= 1)%Qc).
Proof.
  intros limit. rewrite precision_run. cbn [fst]. eexists. split; [done|].
  unfold precision_value. fold limit.
  set (window := Py.slice_stop (padded v limit) (limit + 1)).
  pose proof (positive_count_bounds window) as [Hc0 Hc1].
  destruct (decide (0 < limit)) as [Hpos|Hneg].
  - split_and!.
    + by apply Qc_ratio_nonneg.
    + lia.
    + intros _. apply Qc_ratio_le; [done|].
      pose proof (slice_stop_length (padded v limit) (limit + 1)). fold window in H. lia.
    + intros _ Hlen.
      pose proof (positive_count_window v limit (limit + 1)) as Hw. fold window in Hw.
      pose proof (positive_count_bounds v).
      apply (Qc_ratio_unit (positive_count window) limit); [lia|done].
  - split_and!; [done|done|lia|lia].
Qed.

End metric_bounds.

Section metric_values.
Implicit Types (v w : list Qc) (kw : kwargs).

Lemma positive_sum_app w1 w2 : positive_sum (w1 ++ w2) = (positive_sum w1 + positive_sum w2)%Qc.
Proof.
  unfold positive_sum. rewrite filter_app, foldr_app.
  induction (filter (fun x => 0 < x)%Qc w1) as [|x l IH]; cbn.
  - by rewrite Qcplus_0_l.
  - by rewrite IH, Qcplus_assoc.
Qed.

Lemma positive_sum_zeros k : positive_sum (replicate k 0%Qc) = 0%Qc.
Proof.
  unfold positive_sum. induction k as [|k IH]; [done|].
  cbn [replicate]. by rewrite filter_cons_False.
Qed.

Lemma positive_sum_padded v limit : positive_sum (padded v limit) = positive_sum v.
Proof. unfold padded. by rewrite positive_sum_app, positive_sum_zeros, Qcplus_0_r. Qed.

Lemma window_short v limit :
  Py.len v <= limit -> Py.slice_stop (padded v limit) (limit + 1) = padded v limit.
Proof. intros Hle. apply slice_stop_all. rewrite padded_length. lia. Qed.

Lemma positive_sum_binary w :
  Forall (fun x => x = 0%Qc \/ x = 1%Qc) w -> positive_sum w = Py.float (positive_count w).
Proof.
  unfold positive_sum, positive_count, Py.len.
  induction 1 as [|x w [-> | ->] _ IH].
  - symmetry. apply Z2Qc_inj_0.
  - by rewrite filter_cons_False.
  - rewrite filter_cons_True by done. cbn [foldr length]. rewrite IH.
    unfold Py.float. rewrite <-Z2Qc_inj_1, <-Z2Qc_inj_add. f_equal. lia.
Qed.

Lemma Forall_slice_stop {A} (P : A -> Prop) (l : list A) stop :
  Forall P l -> Forall P (Py.slice_stop l stop).
Proof. intros Hl. destruct (slice_stop_take l stop) as [m ->]. by apply Forall_take. Qed.

Lemma binary_padded v limit :
  Forall (fun x => x = 0%Qc \/ x = 1%Qc) v -> Forall (fun x => x = 0%Qc \/ x = 1%Qc) (padded v limit).
Proof.
  intros Hv. unfold padded. apply Forall_app. split; [done|].
  apply Forall_replicate. by left.
Qed.

Lemma filter_all {A} (P : A -> Prop) `{forall x, Decision (P x)} (l : list A) :
  Forall P l -> filter P l = l.
Proof. induction 1 as [|x l Hx _ IH]; [done|]. by rewrite filter_cons_True, IH. Qed.

Lemma Qc_ratio_self (n : Z) : n <> 0 -> (Py.float n / Py.float n)%Qc = 1%Qc.
Proof. intros Hn. unfold Qcdiv. apply Qcmult_inv_r. by apply float_ne_0. Qed.

Lemma Qc_ratio_lt (c d n : Z) :
  0 < n -> c < d -> (Py.float c / Py.float n < Py.float d / Py.float n)%Qc.
Proof.
  intros Hn Hcd.
  assert (0 < Py.float n)%Qc as Hfn by by apply float_pos.
  assert (Py.float n <> 0%Qc) as Hne by (apply float_ne_0; lia).
  apply (Qcmult_lt_mono_pos_r _ _ (Py.float n)); [done|].
  unfold Qcdiv. rewrite <-!Qcmult_assoc, Qcmult_inv_l, !Qcmult_1_r by done.
  by apply float_lt.
Qed.

(** X3.  The window of [precision] is one entry longer than [limit]: on a
    vector longer than [limit >= 1] whose first [limit + 1] entries are all
    above zero, [precision] returns [(limit + 1) / limit], which is above 1. *)
Theorem precision_above_one kw v k :
  kw_limit kw = Some k -> 1 <= k -> k < Py.len v ->
  Forall (fun x => 0 < x)%Qc (take (Z.to_nat (k + 1)) v) ->
  (Defaults.precision kw v).1 = Ok (Py.float (k + 1) / Py.float k)%Qc /\
  (1 < Py.float (k + 1) / Py.float k)%Qc.
Proof.
  intros Hk Hk1 Hlen Hpos. rewrite precision_run. cbn [fst].
  unfold precision_value. rewrite Hk. change (default (Py.len v) (Some k)) with k.
  rewrite padded_ge by lia. rewrite decide_True by lia.
  assert (positive_count (Py.slice_stop v (k + 1)) = k + 1) as ->.
  { unfold Py.slice_stop. rewrite decide_False by lia.
    unfold positive_count, Py.len.
    rewrite filter_all by done. rewrite length_take. unfold Py.len in Hlen. lia. }
  split; [done|].
  rewrite <-(Qc_ratio_self k) at 1 by lia. apply Qc_ratio_lt; lia.
Qed.

End metric_values.

Section recall_values.
Implicit Types (v w : list Qc) (kw : kwargs).

Lemma recall_value_binary v limit nrel :
  Forall (fun x => x = 0%Qc \/ x = 1%Qc) v ->
  positive_count v <= default (Py.len v) nrel ->
  (0 <= recall_value v limit nrel <= 1)%Qc.
Proof.
  intros Hbin Hnrel. unfold recall_value.
  set (L := default (Py.len v) limit).
  set (nr := Z.min (default (Py.len v) nrel) (Py.len v)).
  set (window := Py.slice_stop (padded v L) (L + 1)).
  case_decide as Hnr; [|done].
  rewrite (positive_sum_binary window) by (by apply Forall_slice_stop, binary_padded).
  pose proof (positive_count_window v L (L + 1)) as Hw. fold window in Hw.
  pose proof (positive_count_bounds window).
  pose proof (positive_count_bounds v).
  apply Qc_ratio_unit; lia.
Qed.

(** X4.  On a vector of zeros and ones, with [nrel] at least the number of
    ones (or not given), [recall] returns a value between 0 and 1, whatever
    [limit] is. *)
Theorem recall_binary_unit_interval kw v :
  Forall (fun x => x = 0%Qc \/ x = 1%Qc) v ->
  positive_count v <= default (Py.len v) (kw_nrel kw) ->
  exists r, (Defaults.recall kw v).1 = Ok r /\ (0 <= r <= 1)%Qc.
Proof.
  intros Hbin Hnrel. rewrite recall_run. cbn [fst]. eexists. split; [done|].
  by apply recall_value_binary.
Qed.

(** X5.  [f1] hands the same list to [precision] and then to [recall].
    With [limit] above [len(v) > 0] and no [nrel], [precision] pads the list
    first, so the recall inside [f1] divides by [limit], while [recall]
    called on [v] itself divides by [len(v)]; [f1] is the harmonic mean of
    the precision and of that recall over [limit]. *)
Theorem f1_recall_after_padding kw v L :
  kw_limit kw = Some L -> kw_nrel kw = None -> 0 < Py.len v < L ->
  let prec := (Py.float (positive_count v) / Py.float L)%Qc in
  let rec := (positive_sum v / Py.float L)%Qc in
  (Defaults.precision kw v).1 = Ok prec /\
  (Defaults.recall kw v).1 = Ok (positive_sum v / Py.float (Py.len v))%Qc /\
  (Defaults.recall kw (Defaults.precision kw v).2).1 = Ok rec /\
  (Defaults.f1 kw v).1 =
    Ok (if decide (0 < prec + rec)%Qc then (2 * (prec * rec / (prec + rec)))%Qc else 0%Qc).
Proof.
  intros HL Hnrel Hlen prec rec.
  assert (precision_value v (kw_limit kw) = prec) as Hprec.
  { unfold precision_value. rewrite HL. change (default (Py.len v) (Some L)) with L.
    rewrite window_short, positive_count_padded by lia. by rewrite decide_True by lia. }
  assert (recall_value (padded v L) (kw_limit kw) (kw_nrel kw) = rec) as Hrec.
  { unfold recall_value. rewrite HL, Hnrel.
    change (default (Py.len (padded v L)) (Some L)) with L.
    change (default (Py.len (padded v L)) None) with (Py.len (padded v L)).
    rewrite padded_idemp, padded_length, window_short, positive_sum_padded by lia.
    replace (Z.min (Z.max (Py.len v) L) (Z.max (Py.len v) L)) with L by lia.
    by rewrite decide_True by lia. }
  rewrite f1_run, precision_run, !recall_run. cbn [fst snd].
  rewrite HL. change (default (Py.len v) (Some L)) with L. rewrite <-HL.
  rewrite Hprec, Hrec. split_and!; try done.
  f_equal. unfold recall_value. rewrite HL, Hnrel.
  change (default (Py.len v) (Some L)) with L.
  change (default (Py.len v) None) with (Py.len v).
  rewrite window_short, positive_sum_padded by lia.
  rewrite Z.min_id. by rewrite decide_True by lia.
Qed.

End recall_values.

Lemma precision_above_one_witness :
  (Defaults.precision (set_limit 1 no_kwargs) [1%Qc; 1%Qc]).1
    = Ok (Py.float (1 + 1) / Py.float 1)%Qc /\
  (1 < Py.float (1 + 1) / Py.float 1)%Qc.
Proof.
  apply (precision_above_one (set_limit 1 no_kwargs) [1%Qc; 1%Qc] 1); [done|lia|by vm_compute|].
  by repeat constructor.
Defined.

Lemma recall_binary_unit_interval_witness :
  exists r, (Defaults.recall no_kwargs [1%Qc; 0%Qc; 1%Qc]).1 = Ok r /\ (0 <= r <= 1)%Qc.
Proof.
  apply (recall_binary_unit_interval no_kwargs [1%Qc; 0%Qc; 1%Qc]).
  - repeat constructor; by (left + right).
  - by vm_compute.
Defined.

Lemma f1_recall_after_padding_witness :
  let prec := (Py.float (positive_count [1%Qc]) / Py.float 3)%Qc in
  let rec := (positive_sum [1%Qc] / Py.float 3)%Qc in
  (Defaults.precision (set_limit 3 no_kwargs) [1%Qc]).1 = Ok prec /\
  (Defaults.recall (set_limit 3 no_kwargs) [1%Qc]).1
    = Ok (positive_sum [1%Qc] / Py.float (Py.len [1%Qc]))%Qc /\
  (Defaults.recall (set_limit 3 no_kwargs) (Defaults.precision (set_limit 3 no_kwargs) [1%Qc]).2).1
    = Ok rec /\
  (Defaults.f1 (set_limit 3 no_kwargs) [1%Qc]).1 =
    Ok (if decide (0 < prec + rec)%Qc then (2 * (prec * rec / (prec + rec)))%Qc else 0%Qc).
Proof.
  apply (f1_recall_after_padding (set_limit 3 no_kwargs) [1%Qc] 3); [done|done|by vm_compute].
Defined.


(** * More facts about NDCG *)

Section sums.

Lemma foldl_Qcplus (a : Qc) (l : list Qc) : foldl Qcplus a l = (a + foldr Qcplus 0%Qc l)%Qc.
Proof.
  revert a. induction l as [|x l IH]; intros a; cbn.
  - by rewrite Qcplus_0_r.
  - by rewrite IH, Qcplus_assoc.
Qed.

Lemma np_sum_foldr `{NumpyFloat} (l : list Qc) : Ndcg.np_sum l = foldr Qcplus 0%Qc l.
Proof. unfold Ndcg.np_sum. by rewrite foldl_Qcplus, Qcplus_0_l. Qed.

Lemma discounted_sum_imap (f : Z * Qc -> Qc) (g : Qc -> Qc) (w : nat -> Qc) (a : Z) p l :
  (forall i r, f (a + Z.of_nat i, r) = (g r * w (p + i)%nat)%Qc) ->
  foldr Qcplus 0%Qc (f <$> imap (fun i x => (a + Z.of_nat i, x)) l)
  = discounted_sum w p (g <$> l).
Proof.
  revert a p. induction l as [|x l IH]; intros a p Hf; [done|].
  rewrite imap_cons. cbn [fmap list_fmap foldr discounted_sum].
  rewrite Hf, Nat.add_0_r. f_equal.
  rewrite (imap_ext _ (fun i x => (a + 1 + Z.of_nat i, x))).
  2:{ intros i y _. unfold compose. f_equal. lia. }
  apply IH. intros i r. replace (a + 1 + Z.of_nat i) with (a + Z.of_nat (S i)) by lia.
  rewrite Hf. do 2 f_equal. lia.
Qed.

End sums.

Section dcg_facts.
Context `{NumpyFloat}.
Implicit Types (rel : list Qc) (alternate : bool).

Lemma dcg_discounted rel alternate :
  Ndcg.dcg rel alternate = discounted_sum (discount alternate) 0 (gain alternate <$> rel).
Proof.
  unfold Ndcg.dcg. destruct rel as [|rel0 rel1].
  - by rewrite decide_True by (by vm_compute).
  - rewrite decide_False by (unfold Py.len; cbn; lia).
    destruct alternate.
    + rewrite np_sum_foldr. unfold Ndcg.enumerate_from.
      apply discounted_sum_imap. intros i r. cbn. unfold Qcdiv. do 3 f_equal. lia.
    + rewrite np_sum_foldr. unfold Ndcg.enumerate_from.
      cbn [fmap list_fmap discounted_sum]. cbn [discount gain]. rewrite Qcmult_1_r. f_equal.
      apply (discounted_sum_imap _ (fun r => r)). intros i r. cbn. unfold Qcdiv.
      do 3 f_equal. lia.
Qed.

End dcg_facts.

Section descending_sort.

(** Descending order on grades, as a test and as a relation. *)
Let ge_b (x y : Qc) : bool := bool_decide (y <= x)%Qc.

Lemma stable_sort_descending l :
  StronglySorted (fun x y => (y <= x)%Qc) (Py.stable_sort ge_b l).
Proof.
  induction l as [|x l IH]; [constructor|].
  change (Py.stable_sort ge_b (x :: l)) with (Py.insert_by ge_b x (Py.stable_sort ge_b l)).
  apply insert_by_sorted; [|..|done].
  - intros a b c Hab Hbc. by eapply Qcle_trans.
  - intros y _ Hle. by apply bool_decide_eq_true in Hle.
  - intros y _ Hle. apply bool_decide_eq_false in Hle. by apply Qclt_le_weak, Qcnot_le_lt.
Qed.

End descending_sort.

Section sorted_descending_facts.
Context `{NumpyFloat}.
Implicit Types (rel : list Qc) (alternate : bool).

Lemma sorted_descending_perm rel : Ndcg.sorted_descending rel ≡ₚ rel.
Proof. unfold Ndcg.sorted_descending. by rewrite reverse_Permutation, stable_sort_perm. Qed.

Lemma sorted_descending_sorted rel :
  StronglySorted (fun x y => (y <= x)%Qc) (Ndcg.sorted_descending rel).
Proof.
  unfold Ndcg.sorted_descending.
  set (s := Py.stable_sort _ rel).
  assert (StronglySorted Qcle s) as Hs.
  { unfold s. induction rel as [|x l IH]; [constructor|].
    change (Py.stable_sort (fun x y => bool_decide (x <= y)%Qc) (x :: l))
      with (Py.insert_by (fun x y => bool_decide (x <= y)%Qc) x
              (Py.stable_sort (fun x y => bool_decide (x <= y)%Qc) l)).
    apply insert_by_sorted; [|..|done].
    - intros a b c Hab Hbc. by eapply Qcle_trans.
    - intros y _ Hle. by apply bool_decide_eq_true in Hle.
    - intros y _ Hle. apply bool_decide_eq_false in Hle. by apply Qclt_le_weak, Qcnot_le_lt. }
  apply StronglySorted_lookup_2. intros i j x y Hij Hi Hj.
  pose proof (lookup_lt_Some _ _ _ Hi) as Hli. pose proof (lookup_lt_Some _ _ _ Hj) as Hlj.
  rewrite length_reverse in Hli, Hlj.
  rewrite reverse_lookup in Hi, Hj by done.
  eapply (StronglySorted_lookup_1 Qcle s); [exact Hs| |exact Hj|exact Hi]. lia.
Qed.

Lemma sorted_descending_unique rel s :
  s ≡ₚ rel -> StronglySorted (fun x y => (y <= x)%Qc) s -> Ndcg.sorted_descending rel = s.
Proof.
  intros Hperm Hs.
  apply (StronglySorted_unique_strong (fun x y => (y <= x)%Qc)); [|apply sorted_descending_sorted|done|].
  - intros x y _ _ Hyx Hxy. by apply Qcle_antisym.
  - by rewrite sorted_descending_perm.
Qed.

Lemma idcg_dcg rel alternate :
  Ndcg.idcg rel alternate = Ndcg.dcg (Ndcg.sorted_descending rel) alternate.
Proof.
  unfold Ndcg.idcg. case_decide as Hlen; [|done].
  destruct rel; [done|]. unfold Py.len in Hlen. cbn in Hlen. lia.
Qed.

(** X9.  The ideal DCG depends on the grades only, not on their order:
    vectors that are rearrangements of one another have the same [idcg]. *)
Theorem idcg_permutation_invariant rel rel' alternate :
  rel ≡ₚ rel' -> Ndcg.idcg rel alternate = Ndcg.idcg rel' alternate.
Proof.
  intros Hperm. rewrite !idcg_dcg. f_equal.
  apply sorted_descending_unique; [|apply sorted_descending_sorted].
  by rewrite sorted_descending_perm.
Qed.

End sorted_descending_facts.

Section gain_facts.
Context `{NumpyFloat} `{!NumpyFloatLaws}.
Implicit Types (rel : list Qc) (alternate : bool).

Lemma gain_0 alternate : gain alternate 0%Qc = 0%Qc.
Proof. destruct alternate; cbn; [|done]. rewrite np_power2_0. ring. Qed.

End gain_facts.

Section ndcg_values.
Context `{NumpyFloat}.
Implicit Types (rel : list Qc) (alternate : bool).

Lemma ndcg_run rel nranks alternate :
  rel <> [] -> 1 <= nranks ->
  Ndcg.ndcg rel nranks alternate =
    Ok (if decide (Ndcg.idcg (ndcg_window rel nranks) alternate = 0%Qc) then 0%Qc
        else (Ndcg.dcg (ndcg_window rel nranks) alternate
              / Ndcg.idcg (ndcg_window rel nranks) alternate)%Qc).
Proof.
  intros Hrel Hn. unfold Ndcg.ndcg.
  rewrite decide_False by (destruct rel; [done|unfold Py.len; cbn; lia]).
  rewrite decide_False by lia.
  assert (Py.slice_stop (rel ++ Py.repeat_list 0%Qc (Z.max 0 (nranks - Py.len rel)))
            (Z.min nranks (Py.len (rel ++ Py.repeat_list 0%Qc (Z.max 0 (nranks - Py.len rel)))))
          = ndcg_window rel nranks) as ->.
  { unfold Py.slice_stop, ndcg_window, Py.repeat_list.
    replace (Z.to_nat (Z.max 0 (nranks - Py.len rel))) with (Z.to_nat (nranks - Py.len rel)) by lia.
    set (l := rel ++ _). rewrite decide_False by (unfold Py.len; lia).
    unfold Py.len. rewrite Z2Nat.inj_min, Nat2Z.id.
    destruct (decide (Z.to_nat nranks <= length l)%nat).
    - by rewrite Nat.min_l.
    - rewrite Nat.min_r, !take_ge by lia. done. }
  by case_decide.
Qed.

Lemma ndcg_window_length rel nranks :
  1 <= nranks -> length (ndcg_window rel nranks) = Z.to_nat nranks.
Proof.
  intros Hn. unfold ndcg_window, Py.len.
  rewrite length_take, length_app, length_replicate. lia.
Qed.

Lemma ndcg_window_Forall (P : Qc -> Prop) rel nranks :
  P 0%Qc -> Forall P rel -> Forall P (ndcg_window rel nranks).
Proof.
  intros H0 Hrel. unfold ndcg_window. apply Forall_take, Forall_app. split; [done|].
  by apply Forall_replicate.
Qed.

(** X7.  A vector of non-negative grades that is already in descending
    order is its own ideal arrangement: for [nranks >= 1], [ndcg] returns 1,
    or 0.0 when the DCG of the vector is zero. *)
Theorem ndcg_ideal_order rel nranks alternate :
  rel <> [] -> 1 <= nranks ->
  StronglySorted (fun x y => (y <= x)%Qc) rel -> Forall (fun x => 0 <= x)%Qc rel ->
  Ndcg.ndcg rel nranks alternate =
    Ok (if decide (Ndcg.dcg (ndcg_window rel nranks) alternate = 0%Qc) then 0%Qc else 1%Qc).
Proof.
  intros Hrel Hn Hsorted Hpos. rewrite ndcg_run by done.
  assert (Ndcg.sorted_descending (ndcg_window rel nranks) = ndcg_window rel nranks) as Hfix.
  { apply sorted_descending_unique; [done|].
    unfold ndcg_window.
    apply StronglySorted_lookup_2. intros i j x y Hij Hi Hj.
    apply lookup_take_Some in Hi as [Hi _], Hj as [Hj _].
    destruct (decide (j < length rel)%nat) as [Hlt|Hge].
    - rewrite lookup_app_l in Hi, Hj by lia.
      exact (StronglySorted_lookup_1 (fun x y => (y <= x)%Qc) rel i j x y Hsorted Hij Hi Hj).
    - rewrite lookup_app_r in Hj by lia. apply lookup_replicate in Hj as [-> _].
      apply list_elem_of_lookup_2, elem_of_app in Hi as [Hi|Hi].
      + by eapply Forall_forall in Hpos.
      + by apply elem_of_replicate in Hi as [-> _]. }
  rewrite idcg_dcg, Hfix. f_equal. case_decide as Hz; [done|].
  unfold Qcdiv. by apply Qcmult_inv_r.
Qed.

(** X25.  [ndcg] reads the first [nranks] grades only, for the DCG and
    for the ideal DCG alike: grades that follow them do not change the
    value, however large they are. *)
Theorem ndcg_ignores_tail rel tail nranks alternate :
  1 <= nranks <= Py.len rel ->
  Ndcg.ndcg (rel ++ tail) nranks alternate = Ndcg.ndcg rel nranks alternate.
Proof.
  intros Hn.
  assert (rel <> []) as Hrel by (intros ->; unfold Py.len in Hn; cbn in Hn; lia).
  assert (rel ++ tail <> []) as Hrel' by (by destruct rel).
  rewrite !ndcg_run by (done || lia).
  assert (ndcg_window (rel ++ tail) nranks = ndcg_window rel nranks) as ->; [|done].
  unfold ndcg_window, Py.len in *. rewrite length_app.
  replace (Z.to_nat (nranks - Z.of_nat (length rel + length tail))) with 0%nat by lia.
  replace (Z.to_nat (nranks - Z.of_nat (length rel))) with 0%nat by lia.
  cbn [replicate]. rewrite !app_nil_r. apply take_app_le. lia.
Qed.

End ndcg_values.

Section ndcg_zero_grades.
Context `{NumpyFloat} `{!NumpyFloatLaws}.
Implicit Types (rel : list Qc) (alternate : bool).

Lemma discounted_sum_zeros (w : nat -> Qc) p g :
  Forall (fun x => x = 0%Qc) g -> discounted_sum w p g = 0%Qc.
Proof.
  intros Hg. revert p. induction Hg as [|x g -> _ IH]; intros p; [done|].
  cbn [discounted_sum]. rewrite IH. ring.
Qed.

Lemma idcg_zeros rel alternate :
  Forall (fun x => x = 0%Qc) rel -> Ndcg.idcg rel alternate = 0%Qc.
Proof.
  intros Hrel. rewrite idcg_dcg, dcg_discounted. apply discounted_sum_zeros.
  apply Forall_fmap, Forall_forall. intros x Hx. cbn.
  rewrite sorted_descending_perm in Hx. eapply Forall_forall in Hrel; [|done].
  rewrite Hrel. apply gain_0.
Qed.

(** X6.  On a vector without a grade other than zero, the empty one
    included, [ndcg] returns 0.0 for every [nranks >= 1]: the ideal DCG is
    zero, and the division is not reached. *)
Theorem ndcg_all_zero rel nranks alternate :
  Forall (fun x => x = 0%Qc) rel -> 1 <= nranks ->
  Ndcg.ndcg rel nranks alternate = Ok 0%Qc.
Proof.
  intros Hrel Hn. destruct (decide (rel = [])) as [->|Hne]; [done|].
  rewrite ndcg_run by done.
  rewrite idcg_zeros by (by apply ndcg_window_Forall). by rewrite decide_True.
Qed.

(** X10.  The padding that [NDCG] applies to the caller's list does not
    change the value: [NDCG] returns what [ndcg] returns on the list as it
    was, with [nranks = limit]. *)
Theorem NDCG_value kw v :
  (Ndcg.NDCG kw v).1 =
    Ndcg.ndcg v (default (Py.len v) (kw_limit kw)) (default true (kw_alternate kw)).
Proof.
  rewrite NDCG_run. cbn [fst]. rewrite padded_same_limit.
  set (L := default (Py.len v) (kw_limit kw)). set (alt := default true (kw_alternate kw)).
  destruct (decide (L <= Py.len v)) as [Hle|Hgt]; [by rewrite padded_ge|].
  assert (1 <= L) by (unfold Py.len in *; lia).
  destruct (decide (v = [])) as [->|Hv].
  - change (Ndcg.ndcg [] L alt) with (Ok 0%Qc).
    assert (padded [] L <> []) as Hp by (unfold padded; destruct (Z.to_nat _) eqn:E; [lia|done]).
    rewrite ndcg_run by done.
    rewrite idcg_zeros, decide_True; [done..|].
    apply ndcg_window_Forall; [done|]. unfold padded. cbn [app]. by apply Forall_replicate.
  - assert (padded v L <> []) as Hp by (unfold padded; by destruct v).
    rewrite !ndcg_run by done. do 3 f_equal; unfold ndcg_window.
    all: rewrite padded_length; replace (Z.to_nat (L - Z.max (Py.len v) L)) with 0%nat by lia;
      cbn [replicate]; by rewrite app_nil_r.
Qed.

End ndcg_zero_grades.

Section reference_numpy.

Lemma floor_div_mono (a c : Z) (b d : positive) :
  a * Z.pos d <= c * Z.pos b -> a / Z.pos b <= c / Z.pos d.
Proof.
  intros Hle.
  rewrite <-(Z.div_mul_cancel_r a (Z.pos b) (Z.pos d)) by lia.
  rewrite <-(Z.div_mul_cancel_r c (Z.pos d) (Z.pos b)) by lia.
  rewrite (Z.mul_comm (Z.pos d) (Z.pos b)). apply Z.div_le_mono; lia.
Qed.

Lemma pow2_mono (e1 e2 : Z) : e1 <= e2 -> 2 ^ e1 <= 2 ^ e2.
Proof.
  intros Hle. destruct (decide (e1 < 0)) as [Hneg|Hpos].
  - rewrite (Z.pow_neg_r 2 e1) by done.
    destruct (decide (e2 < 0)); [by rewrite Z.pow_neg_r|apply Z.pow_nonneg; lia].
  - apply Z.pow_le_mono_r; lia.
Qed.

Lemma dyadic_numpy_laws : @NumpyFloatLaws dyadic_numpy.
Proof.
  split; cbn.
  - by apply float_le.
  - intros i j Hij. apply float_le, Z.log2_le_mono. lia.
  - by apply Qc_is_canon.
  - intros x y Hxy. apply float_le, pow2_mono, floor_div_mono. exact Hxy.
Qed.

End reference_numpy.

Lemma idcg_permutation_invariant_witness :
  @Ndcg.idcg dyadic_numpy [1%Qc; 2%Qc; 0%Qc] true = @Ndcg.idcg dyadic_numpy [0%Qc; 1%Qc; 2%Qc] true.
Proof.
  apply (@idcg_permutation_invariant dyadic_numpy).
  apply (bool_decide_unpack _). by vm_compute.
Defined.

Lemma ndcg_ideal_order_witness :
  @Ndcg.ndcg dyadic_numpy [2%Qc; 1%Qc; 0%Qc] 3 true =
    Ok (if decide (@Ndcg.dcg dyadic_numpy (ndcg_window [2%Qc; 1%Qc; 0%Qc] 3) true = 0%Qc)
        then 0%Qc else 1%Qc).
Proof.
  apply (@ndcg_ideal_order dyadic_numpy); [done|lia| |].
  - repeat (constructor; [|by repeat constructor]). constructor.
  - by repeat constructor.
Defined.

Lemma ndcg_all_zero_witness :
  @Ndcg.ndcg dyadic_numpy [0%Qc; 0%Qc] 5 true = Ok 0%Qc.
Proof.
  apply (@ndcg_all_zero dyadic_numpy dyadic_numpy_laws); [by repeat constructor|lia].
Defined.

Lemma NDCG_value_witness :
  (@Ndcg.NDCG dyadic_numpy (set_limit 3 no_kwargs) [1%Qc]).1 =
    @Ndcg.ndcg dyadic_numpy [1%Qc]
      (default (Py.len [1%Qc]) (kw_limit (set_limit 3 no_kwargs)))
      (default true (kw_alternate (set_limit 3 no_kwargs))).
Proof. apply (@NDCG_value dyadic_numpy dyadic_numpy_laws). Defined.

Lemma ndcg_ignores_tail_witness :
  @Ndcg.ndcg dyadic_numpy ([1%Qc; 0%Qc] ++ [Py.float 3]) 2 true
  = @Ndcg.ndcg dyadic_numpy [1%Qc; 0%Qc] 2 true.
Proof. apply (@ndcg_ignores_tail dyadic_numpy). by vm_compute. Defined.


(** * More facts about the multi-query evaluator *)

Section metric_spec_edges.
Context `{MetricRegistry}.

(** X11.  Of a metric specification only the text between the first and
    the second ["@"] is read as the limit: whatever follows a second ["@"]
    is ignored, and a specification that ends in ["@"] raises [ValueError]
    before the registry is asked for the metric. *)
Theorem metric_handle_second_at name kw :
  PyStr.contains "@" name = false ->
  (forall (k : nat) rest,
     SearchManager.__metric_handle (name +:+ "@" +:+ PyStr.str k +:+ "@" +:+ rest) kw
     = SearchManager.__metric_handle (name +:+ "@" +:+ PyStr.str k) kw) /\
  SearchManager.__metric_handle (name +:+ "@") kw
    = Raise (ValueError "invalid literal for int() with base 10").
Proof.
  intros Hname. split.
  - intros k rest. unfold SearchManager.__metric_handle.
    rewrite split_limit_at by done.
    unfold SearchManager.split_limit.
    change ("@" +:+ PyStr.str k +:+ "@" +:+ rest)%string
      with (String "@" (PyStr.str k +:+ String "@" rest)).
    rewrite contains_append, split_append by done.
    rewrite split_append.
    2:{ apply contains_digits; [|apply digits_of_str]. unfold is_digit. vm_compute. lia. }
    rewrite (np_get_lookup _ 0 name), (np_get_lookup _ 1 (PyStr.str k)) by done.
    cbn [mbind result_bind]. by rewrite int_str.
  - unfold SearchManager.__metric_handle, SearchManager.split_limit.
    change (name +:+ "@")%string with (name +:+ String "@" "").
    rewrite contains_append, split_append by done.
    cbn [PyStr.split].
    by rewrite (np_get_lookup _ 0 name), (np_get_lookup _ 1 ""%string) by done.
Qed.

End metric_spec_edges.

Section evaluator_errors.
Context `{MetricRegistry} `{Searcher}.

Lemma handles_loop_raises kw ms (acc : gmap string (metric_fn * kwargs)) e :
  mapM (fun m => SearchManager.__metric_handle m kw) ms = Raise e ->
  foldlM (fun hs metric =>
            h ← SearchManager.__metric_handle metric kw; Ok (<[metric := h]> hs))
         acc ms = Raise e.
Proof.
  revert acc. induction ms as [|m ms IH]; intros acc Hms; [done|].
  rewrite mapM_result_cons in Hms. cbv beta in Hms. cbn [foldlM].
  destruct (SearchManager.__metric_handle m kw) as [h|e']; cbn [mbind result_bind] in *.
  - apply IH. by destruct (mapM _ ms).
  - by injection Hms as ->.
Qed.

(** X12.  The metric specifications are resolved before the batch is
    looked at: when one of them does not resolve, the evaluation ends with
    that exception for every batch, the empty one included, and no search
    is run. *)
Theorem unresolved_metric_raises_first metrics kw e batch :
  mapM (fun m => SearchManager.__metric_handle m kw) (effective_metrics metrics) = Raise e ->
  SearchManager.multiquery_search batch metrics kw = Raise e.
Proof.
  intros Hms. rewrite multiquery_search_unfold.
  by rewrite (handles_loop_raises kw _ ∅ e Hms).
Qed.

(** X13.  A search that fails for one query of the batch ends the
    evaluation with [FileSystemError], whatever the exception of the search
    engine was, once the queries before it have been evaluated. *)
Theorem search_failure_raises_FileSystemError metrics kw handles pre q post vals e :
  NoDup (effective_metrics metrics) ->
  mapM (fun m => SearchManager.__metric_handle m kw) (effective_metrics metrics) = Ok handles ->
  mapM (query_values handles kw) pre = Ok vals ->
  searcher_search q.1 kw = Raise e ->
  SearchManager.multiquery_search (pre ++ q :: post) metrics kw
    = Raise (FileSystemError "Search failed.").
Proof.
  intros Hnd Hhandles Hvals Hsearch.
  set (ms := effective_metrics metrics) in *.
  destruct (handles_table kw ms handles ∅ Hnd Hhandles) as (hm & Hhm & Hin & _).
  destruct (evaluation_zero ms ∅) as [Hzero _].
  set (ev0 := foldl (fun ev metric => <[metric := 0%Qc]> ev) ∅ ms) in *.
  assert (Forall2 (fun m h => exists p, hm !! m = Some (h.1, p) /\ same_options p h.2)
                  ms handles) as Hinv.
  { eapply Forall2_impl; [exact Hin|]. intros m [fn p] Hm. by exists p. }
  assert (Forall2 (fun m s => ev0 !! m = Some s) ms (replicate (length ms) 0%Qc)) as Hsums.
  { by apply Forall2_replicate_r. }
  destruct (query_loop_run kw ms handles pre vals hm ev0 0%Qc _ Hnd Hinv Hsums Hvals)
    as (hm' & ev' & Hloop & _).
  rewrite multiquery_search_unfold. fold ms. rewrite Hhm. cbn [mbind result_bind].
  fold ev0. rewrite foldlM_app, Hloop. cbn [mbind result_bind foldlM].
  destruct q as [qry qrel]. cbn [fst] in Hsearch.
  unfold SearchManager.query_body. by rewrite Hsearch.
Qed.

End evaluator_errors.

Section dict_keys.
Context {K V : Type} `{EqDecision K}.
Implicit Types (d : list (K * V)).

Lemma dict_set_keys k v d :
  (Py.dict_set k v d).*1 = if decide (k ∈ d.*1) then d.*1 else d.*1 ++ [k].
Proof.
  induction d as [|[k' v'] d IH]; cbn.
  - by rewrite decide_False by (by intros ?%elem_of_nil).
  - destruct (decide (k = k')) as [->|Hk]; cbn.
    + by rewrite decide_True by apply list_elem_of_here.
    + rewrite IH. destruct (decide (k ∈ d.*1)) as [Hin|Hnin].
      * by rewrite decide_True by (by apply list_elem_of_further).
      * rewrite decide_False; [done|]. by intros [?|?]%elem_of_cons.
Qed.

Lemma first_occurrences_snoc (l : list K) k :
  reverse (remove_dups (reverse (l ++ [k])))
  = if decide (k ∈ reverse (remove_dups (reverse l)))
    then reverse (remove_dups (reverse l))
    else reverse (remove_dups (reverse l)) ++ [k].
Proof.
  rewrite reverse_snoc. cbn [remove_dups].
  destruct (decide_rel elem_of k (reverse l)) as [Hin|Hnin].
  - rewrite decide_True; [done|]. by rewrite elem_of_reverse, elem_of_remove_dups.
  - rewrite decide_False, reverse_cons; [done|].
    by rewrite elem_of_reverse, elem_of_remove_dups.
Qed.

End dict_keys.

Section extract_hits.

Lemma extract_hits_snoc hits hit :
  SearchManager.__extract_hits (hits ++ [hit])
  = Py.dict_set (hit_name hit) (hit_score hit, hit_pos hit + 1)
      (SearchManager.__extract_hits hits).
Proof. unfold SearchManager.__extract_hits. by rewrite foldl_snoc. Qed.

Lemma extract_hits_keys hits :
  (SearchManager.__extract_hits hits).*1 = reverse (remove_dups (reverse (hit_name <$> hits))).
Proof.
  induction hits as [|hit hits IH] using rev_ind; [done|].
  rewrite extract_hits_snoc, dict_set_keys, fmap_app, IH. cbn [fmap list_fmap].
  by rewrite first_occurrences_snoc.
Qed.

(** X14.  The table that [__extract_hits] builds has one entry per name,
    in the order in which the names first occur among the hits; the entry of
    a name holds the score and the position plus one of the last hit of that
    name. *)
Theorem extract_hits_table hits :
  let out := SearchManager.__extract_hits hits in
  out.*1 = reverse (remove_dups (reverse (hit_name <$> hits))) /\
  NoDup out.*1 /\
  (forall name, name ∈ out.*1 <-> exists hit, hit ∈ hits /\ hit_name hit = name) /\
  (forall pre hit post,
     hits = pre ++ hit :: post ->
     Forall (fun h => hit_name h <> hit_name hit) post ->
     Py.dict_get (hit_name hit) out = Some (hit_score hit, hit_pos hit + 1)).
Proof.
  intros out. unfold out. split_and!.
  - apply extract_hits_keys.
  - rewrite extract_hits_keys, reverse_Permutation. apply NoDup_remove_dups.
  - intros name. rewrite extract_hits_keys, elem_of_reverse, elem_of_remove_dups, elem_of_reverse.
    rewrite list_elem_of_fmap. split.
    + intros (hit & -> & Hhit). by exists hit.
    + intros (hit & Hhit & <-). by exists hit.
  - intros pre hit post -> Hpost.
    induction post as [|h post IH] using rev_ind.
    + by rewrite extract_hits_snoc, dict_get_set_eq.
    + apply Forall_app in Hpost as [Hpost Hh]. rewrite Forall_singleton in Hh.
      replace (pre ++ hit :: post ++ [h]) with ((pre ++ hit :: post) ++ [h])
        by (by rewrite <-app_assoc).
      rewrite extract_hits_snoc, dict_get_set_ne by done. by apply IH.
Qed.

End extract_hits.

Section set_judgments.

Lemma truth_set_vector (s : gset string) names :
  mapM (SearchManager.truth (QrelSet s)) names
  = Ok ((fun x => if decide (x ∈ s) then 1%Qc else 0%Qc) <$> names).
Proof.
  apply mapM_result_Ok, Forall2_fmap_r, Forall_Forall2_diag, Forall_forall.
  by intros x _.
Qed.

Lemma positive_count_set_vector (s : gset string) names :
  positive_count ((fun x => if decide (x ∈ s) then 1%Qc else 0%Qc) <$> names)
  = Py.len (filter (fun x => x ∈ s) names).
Proof.
  unfold positive_count, Py.len. f_equal.
  induction names as [|x names IH]; [done|].
  cbn [fmap list_fmap]. rewrite !filter_cons.
  destruct (decide (x ∈ s)) as [Hx|Hx].
  - rewrite decide_True by done. cbn [length]. by rewrite IH.
  - by rewrite decide_False by done.
Qed.

(** X15.  With a judgment given as a set of relevant names, the relevance
    vector of the hits holds zeros and ones only, no more ones than the
    judgment has names, and no exception is raised for a hit the judgment
    does not list.  Hence [recall] with [nrel = len(qrel)], as the evaluator
    calls it, lies between 0 and 1, also on the list as an earlier metric
    padded it. *)
Theorem recall_set_judgment_unit_interval hits (s : gset string) kw limit :
  exists rv r,
    mapM (SearchManager.truth (QrelSet s)) (SearchManager.__extract_hits hits).*1 = Ok rv /\
    Forall (fun x => x = 0%Qc \/ x = 1%Qc) rv /\
    positive_count rv <= SearchManager.qrel_len (QrelSet s) /\
    (Defaults.recall (set_nrel (SearchManager.qrel_len (QrelSet s)) kw) (padded rv limit)).1 = Ok r /\
    (0 <= r <= 1)%Qc.
Proof.
  set (names := (SearchManager.__extract_hits hits).*1).
  set (rv := (fun x => if decide (x ∈ s) then 1%Qc else 0%Qc) <$> names).
  assert (Forall (fun x => x = 0%Qc \/ x = 1%Qc) rv) as Hbin.
  { apply Forall_fmap, Forall_forall. intros x _. cbn. case_decide; [by right|by left]. }
  assert (positive_count rv <= SearchManager.qrel_len (QrelSet s)) as Hcount.
  { unfold rv. rewrite positive_count_set_vector. cbn [SearchManager.qrel_len].
    unfold Py.len, size, set_size. cbn. apply inj_le, submseteq_length, NoDup_submseteq.
    - apply NoDup_filter. unfold names. rewrite extract_hits_keys, reverse_Permutation.
      apply NoDup_remove_dups.
    - intros x [Hx _]%list_elem_of_filter. by apply elem_of_elements. }
  exists rv, (recall_value (padded rv limit) (kw_limit kw)
                (Some (SearchManager.qrel_len (QrelSet s)))).
  split; [apply truth_set_vector|]. split; [done|]. split; [done|].
  split; [by rewrite recall_run|].
  apply recall_value_binary; [by apply binary_padded|].
  by rewrite positive_count_padded.
Qed.

End set_judgments.

Lemma metric_handle_second_at_witness :
  (forall (k : nat) rest,
     @SearchManager.__metric_handle (@spec_registry dyadic_numpy)
       ("recall" +:+ "@" +:+ PyStr.str k +:+ "@" +:+ rest) no_kwargs
     = @SearchManager.__metric_handle (@spec_registry dyadic_numpy)
         ("recall" +:+ "@" +:+ PyStr.str k) no_kwargs) /\
  @SearchManager.__metric_handle (@spec_registry dyadic_numpy) ("recall" +:+ "@") no_kwargs
    = Raise (ValueError "invalid literal for int() with base 10").
Proof. apply (@metric_handle_second_at (@spec_registry dyadic_numpy) "recall" no_kwargs). reflexivity. Defined.

Lemma unresolved_metric_raises_first_witness :
  @SearchManager.multiquery_search (@spec_registry dyadic_numpy) failing_searcher
    [] (Some ["recall@5"; "accuracy"]%string) no_kwargs = Raise KeyError.
Proof.
  apply (@unresolved_metric_raises_first (@spec_registry dyadic_numpy) failing_searcher).
  reflexivity.
Defined.

Lemma search_failure_raises_FileSystemError_witness :
  @SearchManager.multiquery_search (@spec_registry dyadic_numpy) failing_searcher
    ([] ++ ("q"%string, QrelSet ∅) :: []) (Some ["recall@5"]%string) no_kwargs
    = Raise (FileSystemError "Search failed.").
Proof.
  apply (@search_failure_raises_FileSystemError (@spec_registry dyadic_numpy) failing_searcher
           (Some ["recall@5"]%string) no_kwargs
           [(Defaults.recall, set_limit 5 no_kwargs)] [] ("q"%string, QrelSet ∅) [] []
           (Exception "index not found")).
  - apply NoDup_singleton.
  - reflexivity.
  - reflexivity.
  - reflexivity.
Defined.


(** * Facts about the keywords of a query file *)

Section keywords.
Implicit Types (doc : ADoc) (docs : list ADoc) (fields : list string).

Lemma string_app_assoc (s t u : string) : (s +:+ (t +:+ u) = (s +:+ t) +:+ u)%string.
Proof. induction s as [|c s IH]; [done|]. change (String c s +:+ (t +:+ u))%string with (String c (s +:+ (t +:+ u))). by rewrite IH. Qed.

Lemma string_app_nil_r (s : string) : (s +:+ "" = s)%string.
Proof. induction s as [|c s IH]; [done|]. change (String c s +:+ "")%string with (String c (s +:+ "")). by rewrite IH. Qed.

Lemma choose_fields_fixed fields doc : fields <> [] -> QueryManager.choose_fields fields doc = fields.
Proof. by destruct fields. Qed.

Lemma keywords_loop fields docs acc :
  fields <> [] ->
  foldl (fun '(fields, keywords) atri_doc =>
           let fields := QueryManager.choose_fields fields atri_doc in
           (fields, keywords +:+ QueryManager.doc_keywords fields atri_doc)%string)
        (fields, acc) docs
  = (fields, foldl (fun keywords atri_doc =>
                      keywords +:+ QueryManager.doc_keywords fields atri_doc)%string acc docs).
Proof.
  intros Hf. revert acc. induction docs as [|doc docs IH]; intros acc; [done|].
  cbn [foldl]. rewrite choose_fields_fixed by done. apply IH.
Qed.

Lemma keywords_concat fields docs acc :
  foldl (fun keywords atri_doc =>
           keywords +:+ QueryManager.doc_keywords fields atri_doc)%string acc docs
  = (acc +:+ foldl (fun keywords atri_doc =>
                      keywords +:+ QueryManager.doc_keywords fields atri_doc)%string "" docs)%string.
Proof.
  revert acc. induction docs as [|doc docs IH]; intros acc; cbn [foldl].
  - by rewrite string_app_nil_r.
  - rewrite IH, (IH ("" +:+ _)%string).
    change ("" +:+ QueryManager.doc_keywords fields doc)%string
      with (QueryManager.doc_keywords fields doc).
    by rewrite string_app_assoc.
Qed.

(** X16.  For a generator of query documents and no field names given,
    the field names of the first document are kept for the whole run: a
    later document contributes the texts of those fields only.  With field
    names fixed, the keywords of the documents are glued together without a
    separator: the keywords of a run are those of its first part followed by
    those of the rest. *)
Theorem keywords_query_stream doc docs :
  adoc_fields doc <> [] ->
  QueryManager.keywords_query (inr (doc :: docs)) []
    = QueryManager.keywords_query (inr (doc :: docs)) (adoc_fields doc).*1 /\
  (forall fields docs1 docs2, fields <> [] ->
     QueryManager.keywords_query (inr (docs1 ++ docs2)) fields
     = (QueryManager.keywords_query (inr docs1) fields
        +:+ QueryManager.keywords_query (inr docs2) fields)%string).
Proof.
  intros Hdoc. split.
  - unfold QueryManager.keywords_query. cbn [foldl QueryManager.choose_fields].
    by rewrite choose_fields_fixed by (by destruct (adoc_fields doc)).
  - intros fields docs1 docs2 Hf. unfold QueryManager.keywords_query.
    rewrite !keywords_loop by done. cbn [snd].
    by rewrite foldl_app, keywords_concat.
Qed.

End keywords.

Lemma keywords_query_stream_witness :
  QueryManager.keywords_query
    (inr [ {| adoc_name := "q1"; adoc_fields := [("title", "a")]%string |};
           {| adoc_name := "q2"; adoc_fields := [("title", "b"); ("body", "c")]%string |} ]) []
  = QueryManager.keywords_query
      (inr [ {| adoc_name := "q1"; adoc_fields := [("title", "a")]%string |};
             {| adoc_name := "q2"; adoc_fields := [("title", "b"); ("body", "c")]%string |} ])
      (adoc_fields {| adoc_name := "q1"; adoc_fields := [("title", "a")]%string |}).*1 /\
  (forall fields docs1 docs2, fields <> [] ->
     QueryManager.keywords_query (inr (docs1 ++ docs2)) fields
     = (QueryManager.keywords_query (inr docs1) fields
        +:+ QueryManager.keywords_query (inr docs2) fields)%string).
Proof.
  apply (keywords_query_stream
           {| adoc_name := "q1"; adoc_fields := [("title", "a")]%string |}
           [ {| adoc_name := "q2"; adoc_fields := [("title", "b"); ("body", "c")]%string |} ]).
  done.
Defined.


(** * More facts about Borda Count *)

Section borda_preference.
Context {DocId : Type} `{Countable DocId} `{PySet DocId} `{PySet Z} `{Argsort}
  `{!PySetLaws DocId} `{!PySetLaws Z} `{!ArgsortLaws}.
Implicit Types (rankings : list (list DocId)) (U rank : list DocId).

Lemma universe_concat rankings d : d ∈ universe rankings <-> d ∈ concat rankings.
Proof. unfold universe, Aggregator.get_unique_doc_ids. apply set_iter_elem. Qed.

Lemma universe_ranking rankings rank : rank ∈ rankings -> rank ⊆ universe rankings.
Proof. intros Hrank d Hd. by eapply universe_elem. Qed.

(** In the row of a ranking, a document of the ranking stands at its place
    in the ranking. *)
Lemma id_row_lookup_l U rank i d :
  rank !! i = Some d -> id_row U rank !! i = Some (doc_id U d).
Proof.
  intros Hi. unfold id_row. cbn zeta. apply lookup_app_l_Some.
  by rewrite list_lookup_fmap, Hi.
Qed.

(** The points of a document that a ranking places before another. *)
Lemma points_preference U rank a b i :
  NoDup U -> NoDup rank -> rank ⊆ U -> b ∈ U ->
  rank !! i = Some a -> (forall j, rank !! j = Some b -> (i < j)%nat) ->
  points (Py.len U) (id_row U rank) (doc_id U b) < points (Py.len U) (id_row U rank) (doc_id U a).
Proof.
  intros HU Hrank Hsub Hb Hi Hlater.
  pose proof (id_row_perm U rank HU Hrank Hsub) as Hperm.
  assert (NoDup (id_row U rank)) as Hnd by (rewrite Hperm; apply NoDup_seqZ).
  assert (doc_id U b ∈ id_row U rank) as [q Hq]%list_elem_of_lookup.
  { rewrite Hperm, elem_of_seqZ. pose proof (doc_id_elem U b HU Hb). lia. }
  rewrite (points_lookup _ _ i (doc_id U a)), (points_lookup _ _ q (doc_id U b));
    [|done|done|done|by apply id_row_lookup_l].
  assert (i < q)%nat; [|lia].
  destruct (rank !! q) as [d|] eqn:Hd.
  - apply Hlater. rewrite Hd. f_equal.
    pose proof (id_row_lookup_l U rank q d Hd) as Hq'.
    apply (doc_id_inj U); [done| |done|congruence].
    apply Hsub. by eapply list_elem_of_lookup_2.
  - apply lookup_ge_None in Hd. apply lookup_lt_Some in Hi. lia.
Qed.

Lemma borda_total_preference U rankings a b :
  rankings <> [] ->
  Forall (fun rank =>
            points (Py.len U) (id_row U rank) (doc_id U b)
            < points (Py.len U) (id_row U rank) (doc_id U a)) rankings ->
  borda_total U rankings (doc_id U b) < borda_total U rankings (doc_id U a).
Proof.
  intros Hne Hall. unfold borda_total.
  destruct rankings as [|rank rankings]; [done|]. clear Hne.
  apply Forall_cons in Hall as [Hrank Hall]. cbn [foldr].
  assert (foldr (fun rank acc => points (Py.len U) (id_row U rank) (doc_id U b) + acc) 0 rankings
          <= foldr (fun rank acc => points (Py.len U) (id_row U rank) (doc_id U a) + acc) 0 rankings);
    [|lia].
  induction Hall as [|r rs Hr _ IH]; cbn [foldr]; lia.
Qed.

(** X17.  Borda Count respects a preference that all rankings share: when
    every ranking lists [a], and lists [b] after [a] or not at all, the
    fused ranking gives [a] a larger score than [b] and places [a] before
    [b]. *)
Theorem borda_unanimous_preference rankings a b :
  rankings <> [] -> Forall NoDup rankings ->
  Forall (fun rank => exists i, rank !! i = Some a /\
                                forall j, rank !! j = Some b -> (i < j)%nat) rankings ->
  b ∈ concat rankings ->
  exists out i j sa sb,
    BordaCount.rank_by_id rankings = Ok out /\
    out !! i = Some (sa, a) /\ out !! j = Some (sb, b) /\
    (i < j)%nat /\ (sb < sa)%Qc.
Proof.
  intros Hne Hnd Hpref Hb.
  destruct (borda_entries rankings Hne Hnd) as (out & Hrun & Hlen & Hdata & Hentry).
  pose proof (borda_fused_perm rankings out Hne Hnd Hrun) as Hperm.
  pose proof (universe_NoDup rankings) as HU.
  set (U := universe rankings) in *.
  assert (b ∈ U) as HbU by (by apply universe_concat).
  assert (a ∈ U) as HaU.
  { destruct rankings as [|rank rankings]; [done|].
    apply Forall_cons in Hpref as [(i & Hi & _) _].
    apply (universe_ranking (rank :: rankings) rank); [left|]. by eapply list_elem_of_lookup_2. }
  assert (borda_total U rankings (doc_id U b) < borda_total U rankings (doc_id U a)) as Htotal.
  { apply borda_total_preference; [done|].
    apply Forall_forall. intros rank Hrank.
    eapply Forall_forall in Hpref as (i & Hi & Hlater); [|done].
    eapply points_preference; [done| |by apply universe_ranking|done|done|done].
    by eapply Forall_forall in Hnd. }
  assert (a ∈ out.*2) as Ha by (by rewrite Hperm).
  assert (b ∈ out.*2) as Hb' by (by rewrite Hperm).
  apply list_elem_of_fmap in Ha as ([sa a'] & -> & [i Hi]%list_elem_of_lookup).
  apply list_elem_of_fmap in Hb' as ([sb b'] & -> & [j Hj]%list_elem_of_lookup).
  cbn [snd] in *.
  destruct (Hentry i sa a' Hi) as (_ & _ & _ & _ & Hsa).
  destruct (Hentry j sb b' Hj) as (_ & _ & _ & _ & Hsb).
  assert (sb < sa)%Qc as Hlt by (rewrite Hsa, Hsb; by apply float_lt).
  exists out, i, j, sa, sb. split_and!; [done..| |done].
  destruct (decide (i < j)%nat) as [|Hge]; [done|exfalso].
  destruct (decide (i = j)) as [->|Hne'].
  - rewrite Hi in Hj. injection Hj as -> _. by apply Qclt_not_eq in Hlt.
  - assert (j < i)%nat as Hji by lia.
    pose proof (borda_fused_sorted rankings out j i sb b' sa a' Hne Hnd Hrun Hji Hj Hi) as Hle.
    by apply Qcle_not_lt in Hle.
Qed.

End borda_preference.

Section sums_of_ints.

Lemma zsum_perm l k : l ≡ₚ k -> zsum l = zsum k.
Proof. unfold zsum. induction 1; cbn; lia. Qed.

Lemma zsum_fmap_add {A} (f g : A -> Z) (l : list A) :
  zsum ((fun x => f x + g x) <$> l) = zsum (f <$> l) + zsum (g <$> l).
Proof. unfold zsum. induction l as [|x l IH]; cbn; lia. Qed.

Lemma zsum_float l : foldr Qcplus 0%Qc (Py.float <$> l) = Py.float (zsum l).
Proof.
  unfold zsum, Py.float. induction l as [|x l IH]; cbn.
  - symmetry. apply Z2Qc_inj_0.
  - by rewrite IH, Z2Qc_inj_add.
Qed.

Lemma zsum_places (n : Z) (m : nat) :
  2 * zsum ((fun i : nat => n - (Z.of_nat i + 1)) <$> seq 0 m) = Z.of_nat m * (2 * n - Z.of_nat m - 1).
Proof.
  induction m as [|m IH]; [done|].
  rewrite seq_S, fmap_app. cbn [fmap list_fmap Nat.add].
  rewrite (zsum_perm _ _ (Permutation_app_comm _ _)). unfold zsum in *. cbn [app foldr]. lia.
Qed.

End sums_of_ints.

Section borda_sum.
Context {DocId : Type} `{Countable DocId} `{PySet DocId} `{PySet Z} `{Argsort}
  `{!PySetLaws DocId} `{!PySetLaws Z} `{!ArgsortLaws}.
Implicit Types (rankings : list (list DocId)) (U rank : list DocId).

Lemma points_row_sum n row :
  row ≡ₚ seqZ 1 n -> 0 <= n -> 2 * zsum (points n row <$> seqZ 1 n) = n * (n - 1).
Proof.
  intros Hperm Hn.
  assert (NoDup row) as Hnd by (rewrite Hperm; apply NoDup_seqZ).
  assert (length row = Z.to_nat n) as Hlen by (by rewrite Hperm, length_seqZ).
  rewrite <-(zsum_perm _ _ (fmap_Permutation (points n row) _ _ Hperm)).
  assert (points n row <$> row = (fun i : nat => n - (Z.of_nat i + 1)) <$> seq 0 (length row)) as ->.
  { apply list_eq. intros i. rewrite !list_lookup_fmap.
    destruct (row !! i) as [k|] eqn:Hk; cbn.
    - rewrite lookup_seq_lt by (by eapply lookup_lt_Some). cbn.
      by rewrite (points_lookup n row i k).
    - by rewrite lookup_seq_ge by (by apply lookup_ge_None). }
  rewrite zsum_places. nia.
Qed.

Lemma totals_sum n rows :
  Forall (fun row => row ≡ₚ seqZ 1 n) rows -> 0 <= n ->
  2 * zsum (totals n rows) = Py.len rows * (n * (n - 1)).
Proof.
  intros Hrows Hn. unfold totals, Py.len.
  induction Hrows as [|row rows Hrow _ IH].
  - cbn [row_total foldr length]. unfold zsum.
    induction (seqZ 1 n) as [|k l IHl]; [done|]. cbn in *. lia.
  - change (row_total n (row :: rows) <$> seqZ 1 n)
      with ((fun k => points n row k + row_total n rows k) <$> seqZ 1 n).
    rewrite (zsum_fmap_add (points n row) (row_total n rows)).
    pose proof (points_row_sum n row Hrow Hn) as Hrow'.
    cbn [length]. rewrite Nat2Z.inj_succ. lia.
Qed.

(** X18.  The scores of a Borda Count fusion add up to the same amount
    whatever the rankings say: every ranking, padded to the universe of [n]
    documents, hands out the points [n - 1], ..., [0] once, so twice the sum
    of the scores is the number of rankings times [n * (n - 1)]. *)
Theorem borda_scores_sum rankings :
  rankings <> [] -> Forall NoDup rankings ->
  exists out,
    BordaCount.rank_by_id rankings = Ok out /\
    (2 * foldr Qcplus 0 out.*1)%Qc
    = Py.float (Py.len rankings
                * (Py.len (universe rankings) * (Py.len (universe rankings) - 1))).
Proof.
  intros Hne Hnd.
  destruct (borda_rank_by_id_run rankings Hne Hnd) as (out & Hrun & Hout).
  exists out. split; [done|].
  set (U := universe rankings) in *. set (n := Py.len U) in *.
  set (rows := id_row U <$> rankings) in *.
  assert (0 <= n) as Hn by (unfold n, Py.len; lia).
  pose proof (id_rows_perm rankings Hnd) as Hrows. fold U n rows in Hrows.
  assert (out.*1 = Py.float <$> (row_total n rows <$> reverse (Z.add 1 <$> argsort (totals n rows))))
    as ->.
  { rewrite <-list_fmap_compose. apply list_eq. intros i. rewrite !list_lookup_fmap.
    destruct (out !! i) as [[s d]|] eqn:Hi; cbn.
    - destruct (Forall2_lookup_r _ _ _ _ _ Hout Hi) as (id & Hid & Hs & _).
      cbn in Hs. rewrite Hid. cbn. by rewrite Hs.
    - apply lookup_ge_None in Hi. rewrite <-(Forall2_length _ _ _ Hout) in Hi.
      by rewrite (lookup_ge_None_2 _ i). }
  rewrite zsum_float.
  assert (reverse (Z.add 1 <$> argsort (totals n rows)) ≡ₚ seqZ 1 n) as Hperm.
  { rewrite fused_ids_perm. unfold Py.len. rewrite totals_length. by rewrite Z2Nat.id. }
  rewrite (zsum_perm _ _ (fmap_Permutation _ _ _ Hperm)).
  fold (totals n rows).
  assert (2 = Py.float 2)%Qc as -> by (by apply Qc_is_canon).
  unfold Py.float. rewrite <-Z2Qc_inj_mul. f_equal.
  rewrite (totals_sum n rows Hrows Hn). unfold rows, Py.len. by rewrite length_fmap.
Qed.

End borda_sum.

Section duplicates.
Context {DocId : Type} `{Countable DocId} `{PySet DocId} `{PySet Z} `{Argsort}
  `{!PySetLaws DocId} `{!PySetLaws Z}.
Implicit Types (rankings : list (list DocId)) (U rank : list DocId).

Lemma mapM_raises {A B} (f : A -> result B) (l : list A) e :
  Forall (fun x => (exists y, f x = Ok y) \/ f x = Raise e) l ->
  Exists (fun x => f x = Raise e) l ->
  mapM f l = Raise e.
Proof.
  intros Hall Hex. induction Hall as [|x l Hx _ IH]; [by inversion Hex|].
  rewrite mapM_result_cons.
  destruct Hx as [[y Hy]| Hx]; [|by rewrite Hx].
  rewrite Hy. cbn [mbind result_bind].
  inversion Hex as [? ? Hx|? ? Hl]; subst; [congruence|].
  by rewrite (IH Hl).
Qed.

Lemma assign_row_cases n (l : list Z) :
  (exists y, Aggregator.assign_row n l = Ok y) \/
  Aggregator.assign_row n l = Raise (ValueError "could not broadcast input array").
Proof. unfold Aggregator.assign_row. case_decide; eauto. Qed.

(** A list that holds every member of a duplicate-free list [k], and is not
    longer than [k], has no duplicates either. *)
Lemma covering_NoDup {A} (l k : list A) :
  NoDup k -> k ⊆ l -> length l = length k -> NoDup l.
Proof.
  intros Hk Hsub Hlen.
  assert (k ≡ₚ l) as <-; [|done].
  apply submseteq_length_Permutation; [by apply NoDup_submseteq|lia].
Qed.

Lemma borda_row_duplicate U rank :
  NoDup U -> rank ⊆ U -> ~ NoDup rank ->
  Aggregator.assign_row (Py.len U)
    ((doc_id U <$> rank) ++ set_diff_iter (seqZ 1 (Py.len U)) (doc_id U <$> rank))
  = Raise (ValueError "could not broadcast input array").
Proof.
  intros HU Hsub Hdup. unfold Aggregator.assign_row. case_decide as Hlen; [exfalso|done].
  apply Hdup. apply (NoDup_fmap_1 (doc_id U)).
  assert (NoDup ((doc_id U <$> rank)
                 ++ set_diff_iter (seqZ 1 (Py.len U)) (doc_id U <$> rank))) as [Hnd _]%NoDup_app;
    [|done].
  apply (covering_NoDup _ (seqZ 1 (Py.len U))); [apply NoDup_seqZ| |].
  - intros k Hk. rewrite elem_of_app, set_diff_iter_elem.
    destruct (decide (k ∈ doc_id U <$> rank)); [by left|right; by split].
  - rewrite length_seqZ. unfold Py.len in *. lia.
Qed.

Lemma markov_row_duplicate U rank padding :
  NoDup U -> rank ⊆ U -> (forall d, d ∈ U -> d ∈ rank \/ d ∈ padding) -> ~ NoDup rank ->
  Aggregator.assign_row (Py.len U) ((doc_id U <$> rank) ++ (doc_id U <$> padding))
  = Raise (ValueError "could not broadcast input array").
Proof.
  intros HU Hsub Hcover Hdup. unfold Aggregator.assign_row. case_decide as Hlen; [exfalso|done].
  apply Hdup.
  assert (NoDup (rank ++ padding)) as [Hnd _]%NoDup_app; [|done].
  apply (covering_NoDup (rank ++ padding) U); [done| |].
  - intros d Hd. apply elem_of_app. by apply Hcover.
  - rewrite <-fmap_app in Hlen. unfold Py.len in Hlen. rewrite length_fmap in Hlen. lia.
Qed.

(** X19.  A ranking that lists a document twice is rejected by both
    strategies: the row of the ranking comes out longer than the universe,
    and its assignment into the matrix of rankings raises [ValueError]. *)
Theorem duplicate_in_ranking_raises rankings :
  Exists (fun rank => ~ NoDup rank) rankings ->
  BordaCount.rank_by_id rankings = Raise (ValueError "could not broadcast input array") /\
  MarkovChain.rank_by_id rankings = Raise (ValueError "could not broadcast input array").
Proof.
  intros Hdup.
  pose proof (universe_NoDup rankings) as HU.
  assert (0 < Py.len rankings) as Hlen.
  { destruct rankings; [by inversion Hdup|]. unfold Py.len. cbn. lia. }
  split.
  - unfold BordaCount.rank_by_id. rewrite decide_True by done.
    change (Aggregator.index_docs (Aggregator.get_unique_doc_ids rankings))
      with (index_list (universe rankings)).
    change (set_iter (Aggregator.get_unique_doc_ids rankings)) with (universe rankings).
    set (U := universe rankings) in *.
    destruct (index_list U) as [map_doc_ids map_ids_doc] eqn:Hidx.
    assert (forall rank, rank ∈ rankings ->
              (rank_ids ← mapM (Aggregator.dict_lookup map_doc_ids) rank;
               Aggregator.assign_row (Py.len U)
                 (rank_ids ++ set_diff_iter
                    (Aggregator.enumerate_docs (Aggregator.get_unique_doc_ids rankings)).*1
                    rank_ids))
              = Aggregator.assign_row (Py.len U)
                  ((doc_id U <$> rank) ++ set_diff_iter (seqZ 1 (Py.len U)) (doc_id U <$> rank)))
      as Hrow.
    { intros rank Hrank.
      pose proof (rank_ids_run U rank HU) as Hids. rewrite Hidx in Hids. cbn [fst] in Hids.
      rewrite Hids by (by apply universe_ranking). cbn [mbind result_bind].
      unfold compose. by rewrite enumerate_docs_ids. }
    rewrite (mapM_raises _ rankings (ValueError "could not broadcast input array")); [done| |].
    + apply Forall_forall. intros rank Hrank. rewrite Hrow by done. apply assign_row_cases.
    + apply Exists_exists in Hdup as (rank & Hrank & Hnd). apply Exists_exists.
      exists rank. split; [done|]. rewrite Hrow by done.
      apply borda_row_duplicate; [done|by apply universe_ranking|done].
  - unfold MarkovChain.rank_by_id. rewrite decide_True by done.
    change (Aggregator.index_docs (Aggregator.get_unique_doc_ids rankings))
      with (index_list (universe rankings)).
    change (set_iter (Aggregator.get_unique_doc_ids rankings)) with (universe rankings).
    set (U := universe rankings) in *. set (docs := Aggregator.get_unique_doc_ids rankings).
    destruct (index_list U) as [map_doc_ids map_ids_doc] eqn:Hidx.
    assert (forall rank, rank ∈ rankings ->
              set_diff_iter docs rank ⊆ U /\
              forall d, d ∈ U -> d ∈ rank \/ d ∈ set_diff_iter docs rank) as Hpad.
    { intros rank Hrank. split.
      - intros d [Hd _]%set_diff_iter_elem. by apply set_iter_elem.
      - intros d Hd. destruct (decide (d ∈ rank)); [by left|right].
        apply set_diff_iter_elem. split; [|done]. unfold U, universe in Hd.
        by apply (proj1 (set_iter_elem d _)). }
    set (F := fun '(rank, padding) =>
                ids ← mapM (Aggregator.dict_lookup map_doc_ids) rank;
                pad_ids ← mapM (Aggregator.dict_lookup map_doc_ids) padding;
                Aggregator.assign_row (Py.len U) (ids ++ pad_ids)).
    assert (forall rank, rank ∈ rankings ->
              F (rank, set_diff_iter docs rank)
              = Aggregator.assign_row (Py.len U)
                  ((doc_id U <$> rank) ++ (doc_id U <$> set_diff_iter docs rank))) as Hrow.
    { intros rank Hrank. destruct (Hpad rank Hrank) as [Hsub _].
      pose proof (rank_ids_run U) as Hids. rewrite Hidx in Hids. cbn [fst] in Hids.
      unfold F. rewrite !Hids by (done || by apply universe_ranking). done. }
    rewrite zip_with_fmap_r, zip_with_diag, mapM_result_fmap.
    rewrite (mapM_raises _ rankings (ValueError "could not broadcast input array")); [done| |].
    + apply Forall_forall. intros rank Hrank. unfold compose. rewrite Hrow by done.
      apply assign_row_cases.
    + apply Exists_exists in Hdup as (rank & Hrank & Hnd). apply Exists_exists.
      exists rank. split; [done|]. unfold compose. rewrite Hrow by done.
      destruct (Hpad rank Hrank) as [_ Hcover].
      apply markov_row_duplicate; [done|by apply universe_ranking|done|done].
Qed.

End duplicates.


(** * More facts about the Markov chain aggregator *)

Section distinct_counts.
Context {A : Type} `{EqDecision A}.
Implicit Types (l k : list A).

Lemma distinct_length_subseteq l k :
  l ⊆ k -> (length (remove_dups l) <= length (remove_dups k))%nat.
Proof.
  intros Hsub. apply submseteq_length, NoDup_submseteq; [apply NoDup_remove_dups|].
  intros x. rewrite !elem_of_remove_dups. apply Hsub.
Qed.

Lemma distinct_length_equiv l k :
  (forall x, x ∈ l <-> x ∈ k) -> length (remove_dups l) = length (remove_dups k).
Proof.
  intros Heq. apply Nat.le_antisymm; apply distinct_length_subseteq; intros x; apply Heq.
Qed.

Lemma distinct_length_cons l x :
  x ∉ l -> length (remove_dups (x :: l)) = S (length (remove_dups l)).
Proof. intros Hx. cbn [remove_dups]. by destruct (decide_rel elem_of x l). Qed.

Lemma distinct_length_strict l k x :
  l ⊆ k -> x ∈ k -> x ∉ l -> (length (remove_dups l) < length (remove_dups k))%nat.
Proof.
  intros Hsub Hk Hl.
  pose proof (distinct_length_cons l x Hl) as Hcons.
  pose proof (distinct_length_subseteq (x :: l) k) as Hle.
  rewrite Hcons in Hle. apply Hle. intros y [->|Hy]%elem_of_cons; [done|by apply Hsub].
Qed.

End distinct_counts.

Section dense_ranks.
Implicit Types (matrix : list Qc) (x y : Qc).

Lemma Qclt_irrefl x : ~ (x < x)%Qc.
Proof. intros Hx. apply Qclt_not_le in Hx. apply Hx, Qcle_refl. Qed.

Lemma dense_rank_bounds matrix x : x ∈ matrix -> 1 <= dense_rank matrix x <= Py.len matrix.
Proof.
  intros Hx. unfold dense_rank, Py.len.
  pose proof (distinct_length_subseteq (remove_dups (filter (fun y => x < y)%Qc matrix))
                (filter (fun y => x < y)%Qc matrix)) as H1.
  assert (length (remove_dups (filter (fun y => x < y)%Qc matrix))
          <= length (filter (fun y => x < y)%Qc matrix))%nat as Hle.
  { apply submseteq_length, NoDup_submseteq; [apply NoDup_remove_dups|].
    intros y. by rewrite elem_of_remove_dups. }
  pose proof (length_filter_lt (fun y => x < y)%Qc matrix x Hx (Qclt_irrefl x)). lia.
Qed.

Lemma dense_rank_lt matrix x y :
  y ∈ matrix -> (x < y)%Qc -> dense_rank matrix y < dense_rank matrix x.
Proof.
  intros Hy Hxy. unfold dense_rank, Py.len.
  assert (length (remove_dups (filter (fun z => y < z)%Qc matrix))
          < length (remove_dups (filter (fun z => x < z)%Qc matrix)))%nat; [|lia].
  apply (distinct_length_strict _ _ y).
  - intros z [Hz Hin]%list_elem_of_filter. apply list_elem_of_filter. split; [|done].
    by eapply Qclt_trans.
  - by apply list_elem_of_filter.
  - intros [Hyy _]%list_elem_of_filter. by apply Qclt_irrefl in Hyy.
Qed.

Lemma dense_rank_perm matrix matrix' x :
  matrix ≡ₚ matrix' -> dense_rank matrix x = dense_rank matrix' x.
Proof.
  intros Hperm. unfold dense_rank, Py.len. do 2 f_equal.
  apply distinct_length_equiv. intros y. by rewrite !list_elem_of_filter, Hperm.
Qed.

Lemma dense_rank_snoc_old l num x :
  num ∈ l -> dense_rank (l ++ [num]) x = dense_rank l x.
Proof.
  intros Hnum. unfold dense_rank, Py.len. do 2 f_equal.
  apply distinct_length_equiv. intros y.
  rewrite !list_elem_of_filter, elem_of_app, list_elem_of_singleton.
  split; [|tauto]. intros [Hy [?| ->]]; by split.
Qed.

Lemma dense_rank_snoc_below l num x :
  (num <= x)%Qc -> dense_rank (l ++ [num]) x = dense_rank l x.
Proof.
  intros Hle. unfold dense_rank. rewrite filter_app.
  rewrite (filter_cons_False _ num) by (by apply Qcle_not_lt). by rewrite app_nil_r.
Qed.

Lemma dense_rank_snoc_new l num :
  Forall (fun y => num < y)%Qc l ->
  dense_rank (l ++ [num]) num = 1 + Py.len (remove_dups l).
Proof.
  intros Hl. rewrite dense_rank_snoc_below by apply Qcle_refl.
  unfold dense_rank. by rewrite filter_all.
Qed.

(** The dictionary and the counter of [get_aggregated_ranks] after the
    loop has run over a descending list. *)
Lemma aggregated_ranks_loop (P l : list Qc) (a : list (Qc * Z)) (rank : Z) :
  StronglySorted (fun x y => (y <= x)%Qc) (P ++ l) ->
  (forall x, x ∈ P -> Py.dict_get x a = Some (dense_rank P x)) ->
  (forall x, x ∉ P -> Py.dict_get x a = None) ->
  rank = 1 + Py.len (remove_dups P) ->
  forall x, x ∈ P ++ l ->
    Py.dict_get x
      (foldl (fun '(a, rank) num =>
                match Py.dict_get num a with
                | Some _ => (a, rank)
                | None => (Py.dict_set num rank a, rank + 1)
                end) (a, rank) l).1
    = Some (dense_rank (P ++ l) x).
Proof.
  revert P a rank. induction l as [|num l IH]; intros P a rank Hsorted Hin Hout Hrank x Hx.
  - rewrite app_nil_r in *. cbn [foldl fst]. by apply Hin.
  - assert (P ++ num :: l = (P ++ [num]) ++ l) as Heq by (by rewrite <-app_assoc).
    rewrite Heq in Hsorted, Hx |- *.
    assert (Forall (fun y => num <= y)%Qc P) as Hge.
    { apply Forall_forall. intros y [i Hi]%list_elem_of_lookup.
      eapply (StronglySorted_lookup_1 _ _ i (length P) y num Hsorted).
      - by eapply lookup_lt_Some.
      - rewrite <-app_assoc. by apply lookup_app_l_Some.
      - rewrite <-app_assoc, lookup_app_r, Nat.sub_diag by lia. done. }
    cbn [foldl]. destruct (decide (num ∈ P)) as [Hnum|Hnum].
    + rewrite (Hin num Hnum). apply IH; [done| | | |done].
      * intros y [Hy| ->%list_elem_of_singleton]%elem_of_app;
          rewrite dense_rank_snoc_old by done; by apply Hin.
      * intros y Hy. apply Hout. intros Hy'. apply Hy, elem_of_app. by left.
      * rewrite Hrank. unfold Py.len. do 2 f_equal. apply distinct_length_equiv.
        intros y. rewrite elem_of_app, list_elem_of_singleton. split; [by left|by intros [?| ->]].
    + rewrite (Hout num Hnum).
      assert (Forall (fun y => num < y)%Qc P) as Hgt.
      { apply Forall_forall. intros y Hy. eapply Forall_forall in Hge; [|done].
        apply Qcle_lt_or_eq in Hge as [?| ->]; done. }
      apply IH; [done| | | |done].
      * intros y [Hy| ->%list_elem_of_singleton]%elem_of_app.
        -- rewrite dict_get_set_ne by (by intros ->).
           rewrite dense_rank_snoc_below; [by apply Hin|].
           by eapply Forall_forall in Hge.
        -- rewrite dict_get_set_eq, dense_rank_snoc_new by done. by rewrite Hrank.
      * intros y Hy. rewrite dict_get_set_ne.
        -- apply Hout. intros Hy'. apply Hy, elem_of_app. by left.
        -- intros ->. apply Hy, elem_of_app. right. by apply list_elem_of_singleton.
      * rewrite Hrank. unfold Py.len.
        assert (length (remove_dups (P ++ [num])) = S (length (remove_dups P))) as ->; [|lia].
        rewrite <-(distinct_length_equiv (num :: P)).
        -- by apply distinct_length_cons.
        -- intros y. rewrite elem_of_app, elem_of_cons, list_elem_of_singleton. tauto.
Qed.

Lemma aggregated_ranks_run matrix :
  MarkovChain.get_aggregated_ranks matrix = Ok (dense_rank matrix <$> matrix).
Proof.
  unfold MarkovChain.get_aggregated_ranks.
  set (sorted := Py.stable_sort (fun x y => bool_decide (y <= x)%Qc) matrix).
  assert (sorted ≡ₚ matrix) as Hperm by apply stable_sort_perm.
  pose proof (aggregated_ranks_loop [] sorted [] 1) as Hloop.
  cbn [app] in Hloop.
  destruct (foldl _ _ sorted) as [a rank] eqn:Hfold. cbn [fst] in Hloop.
  apply mapM_result_Ok, Forall2_fmap_r, Forall_Forall2_diag, Forall_forall.
  intros x Hx. rewrite Hloop.
  - by rewrite (dense_rank_perm _ _ x Hperm).
  - apply stable_sort_descending.
  - by intros y Hy%elem_of_nil.
  - done.
  - done.
  - by rewrite Hperm.
Qed.

(** X20.  [get_aggregated_ranks] ranks the probabilities densely: it
    returns one rank per entry, between 1 and the number of entries; a
    larger entry gets a smaller rank, equal entries get the same rank, and
    a largest entry gets rank 1. *)
Theorem aggregated_ranks_dense matrix :
  exists final_ranks,
    MarkovChain.get_aggregated_ranks matrix = Ok final_ranks /\
    length final_ranks = length matrix /\
    (forall i j x y r s,
       matrix !! i = Some x -> matrix !! j = Some y ->
       final_ranks !! i = Some r -> final_ranks !! j = Some s ->
       1 <= r <= Py.len matrix /\
       ((x < y)%Qc <-> s < r) /\ (x = y <-> r = s) /\
       ((forall z, z ∈ matrix -> (z <= x)%Qc) -> r = 1)).
Proof.
  exists (dense_rank matrix <$> matrix). split; [apply aggregated_ranks_run|].
  split; [by rewrite length_fmap|].
  intros i j x y r s Hx Hy Hr Hs. rewrite list_lookup_fmap in Hr, Hs.
  rewrite Hx in Hr. rewrite Hy in Hs. cbn in Hr, Hs. injection Hr as <-. injection Hs as <-.
  assert (x ∈ matrix) as Hxin by (by eapply list_elem_of_lookup_2).
  assert (y ∈ matrix) as Hyin by (by eapply list_elem_of_lookup_2).
  assert ((x < y)%Qc -> dense_rank matrix y < dense_rank matrix x) as Hlt
    by (by apply dense_rank_lt).
  assert ((y < x)%Qc -> dense_rank matrix x < dense_rank matrix y) as Hgt
    by (by apply dense_rank_lt).
  split; [by apply dense_rank_bounds|]. split; [|split].
  - split; [done|]. intros Hrank.
    destruct (Qclt_le_dec x y) as [|Hle]; [done|].
    apply Qcle_lt_or_eq in Hle as [Hyx| ->]; [specialize (Hgt Hyx)|]; lia.
  - split; [by intros ->|]. intros Hrank.
    destruct (Qclt_le_dec x y) as [Hxy|Hle]; [specialize (Hlt Hxy); lia|].
    apply Qcle_lt_or_eq in Hle as [Hyx| ->]; [specialize (Hgt Hyx); lia|done].
  - intros Hmax. unfold dense_rank.
    assert (filter (fun z => x < z)%Qc matrix = []) as ->; [|done].
    apply elem_of_nil_inv. intros z [Hz Hin]%list_elem_of_filter.
    by apply Hmax, Qcle_not_lt in Hin.
Qed.

End dense_ranks.

Section markov_scores.
Context {DocId : Type} `{Countable DocId} `{PySet DocId} `{!PySetLaws DocId}.
Implicit Types (rankings : list (list DocId)) (U rank : list DocId).

Lemma mapped_final_ranks_run (df : MarkovChain.DataFrame) (final_ranks : list Z) n :
  MarkovChain.df_rows df = Z.of_nat n -> length final_ranks = n ->
  MarkovChain.get_mapped_final_ranks df final_ranks
  = zip (seqZ 0 (Z.of_nat n + 1)) final_ranks.
Proof.
  intros Hrows Hlen. unfold MarkovChain.get_mapped_final_ranks. rewrite Hrows.
  assert ((zip (seqZ 0 (Z.of_nat n + 1)) final_ranks).*1 = seqZ 0 (Z.of_nat n)) as Hkeys.
  { rewrite seqZ_app by lia. rewrite zip_with_app_l, fmap_app.
    rewrite fst_zip by (rewrite length_seqZ, length_take; lia).
    rewrite drop_ge by (rewrite length_seqZ; lia).
    by rewrite zip_with_nil_r, app_nil_r. }
  rewrite dict_fill; cbn [fmap list_fmap app]; [done|]. rewrite Hkeys. apply NoDup_seqZ.
Qed.

Lemma sort_by_score_sorted (l : list (Qc * DocId)) :
  StronglySorted (fun p q => (q.1 <= p.1)%Qc)
    (Py.stable_sort (fun x y => bool_decide (- x.1 <= - y.1)%Qc) l).
Proof.
  induction l as [|x l IH]; [constructor|].
  change (Py.stable_sort (fun x y => bool_decide (- x.1 <= - y.1)%Qc) (x :: l))
    with (Py.insert_by (fun x y => bool_decide (- x.1 <= - y.1)%Qc) x
            (Py.stable_sort (fun x y => bool_decide (- x.1 <= - y.1)%Qc) l)).
  apply insert_by_sorted; [|..|done].
  - intros a b c Hab Hbc. by eapply Qcle_trans.
  - intros y _ Hle. apply bool_decide_eq_true in Hle.
    apply Qcopp_le_compat in Hle. by rewrite !Qcopp_involutive in Hle.
  - intros y _ Hle. apply bool_decide_eq_false in Hle.
    apply Qcnot_le_lt, Qclt_le_weak, Qcopp_le_compat in Hle. by rewrite !Qcopp_involutive in Hle.
Qed.

Lemma list_max_exists (l : list Qc) : l <> [] -> exists x, x ∈ l /\ forall z, z ∈ l -> (z <= x)%Qc.
Proof.
  induction l as [|y l IH]; [done|]. intros _.
  destruct l as [|y' l'].
  - exists y. split; [apply list_elem_of_here|]. intros z ->%list_elem_of_singleton. apply Qcle_refl.
  - destruct IH as (x & Hx & Hmax); [done|].
    destruct (Qclt_le_dec x y) as [Hlt|Hle].
    + exists y. split; [apply list_elem_of_here|]. intros z [->|Hz]%elem_of_cons; [apply Qcle_refl|].
      eapply Qcle_trans; [by apply Hmax|by apply Qclt_le_weak].
    + exists x. split; [by apply list_elem_of_further|]. intros z [->|Hz]%elem_of_cons; [done|by apply Hmax].
Qed.

(** The run of [MarkovChain.rank_by_id] on a universe that is not empty:
    the ranks of the documents are the dense ranks of some distribution
    [pi], one entry per document. *)
Lemma markov_chain_entries rankings :
  rankings <> [] -> Forall NoDup rankings -> universe rankings <> [] ->
  let U := universe rankings in
  let n := length U in
  exists pi,
    length pi = n /\
    MarkovChain.rank_by_id rankings
    = Ok (Py.stable_sort (fun x y => bool_decide (- x.1 <= - y.1)%Qc)
            (zip_with (fun r d => (Py.float (Z.of_nat n - r), d)) (dense_rank pi <$> pi) U)).
Proof.
  intros Hne Hnd Hnonempty U n.
  pose proof (universe_NoDup rankings) as HU. fold U in HU, Hnonempty.
  set (nrank := length rankings).
  assert (0 < n)%nat as Hn by (unfold n; destruct U; [done|cbn; lia]).
  unfold MarkovChain.rank_by_id.
  rewrite decide_True by (destruct rankings; [done|unfold Py.len; cbn; lia]).
  change (Aggregator.index_docs (Aggregator.get_unique_doc_ids rankings)) with (index_list U).
  change (set_iter (Aggregator.get_unique_doc_ids rankings)) with U.
  destruct (markov_rows rankings Hnd) as (ndranks & Hrows & Hlen & Hdocs). fold U in Hrows, Hdocs.
  destruct (index_list_lookup U HU) as [_ Hmid].
  destruct (index_list U) as [map_doc_ids map_ids_doc] eqn:Hidx. cbn [fst snd] in *.
  rewrite Hrows. cbn [mbind result_bind].
  destruct (ndpos_fill_shape n nrank ndranks (Np.zeros2 (Z.of_nat n) (Z.of_nat nrank)))
    with (offset := 0%nat) as (ndpos & Hfill & Hshape);
    [unfold nrank; lia|exact Hdocs|apply zeros2_shape|unfold nrank; lia|].
  change (Py.len U) with (Z.of_nat n). change (Py.len rankings) with (Z.of_nat nrank).
  cbn [Nat.add] in Hfill. rewrite Hfill. cbn [mbind result_bind].
  unfold MarkovChain.mc4_aggregator, MarkovChain.get_matrix_shape.
  cbn [MarkovChain.df_rows MarkovChain.df_cols].
  destruct (partial_matrix_shape
              {| MarkovChain.df_rows := Z.of_nat n; MarkovChain.df_cols := Z.of_nat nrank;
                 MarkovChain.df_data := ndpos |} n (Z.of_nat nrank))
    as (P & -> & HP); [by destruct Hshape|].
  cbn [mbind result_bind].
  pose proof (normalized_shape P n (Z.of_nat n) HP) as HN.
  destruct (ergodic_shape _ n MarkovChain.default_erg_number Hn HN) as (E & -> & HE).
  cbn [mbind result_bind].
  destruct (initial_distribution_length n Hn) as (v0 & -> & Hv0).
  cbn [mbind result_bind].
  unfold MarkovChain.get_stationary_distribution_matrix.
  set (pi := MarkovChain.stationary_loop _ v0 E _).
  assert (length pi = n) as Hpi by (by apply stationary_length).
  clearbody pi. clear Hfill Hrows.
  exists pi. split; [done|].
  rewrite aggregated_ranks_run. cbn [mbind result_bind].
  set (final_ranks := dense_rank pi <$> pi).
  assert (length final_ranks = n) as Hranks by (unfold final_ranks; by rewrite length_fmap).
  rewrite (mapped_final_ranks_run _ final_ranks n) by done.
  set (out0 := zip_with (fun r d => (Py.float (Z.of_nat n - r), d)) final_ranks U).
  assert (mapM (fun '(item, rank) =>
                  d ← Aggregator.dict_lookup map_ids_doc (item + 1);
                  Ok (Py.float (Z.of_nat n - rank), d))
               (zip (seqZ 0 (Z.of_nat n + 1)) final_ranks) = Ok out0) as ->; [|done].
  apply mapM_result_Ok, Forall2_same_length_lookup_2.
  - unfold out0. rewrite !length_zip_with, length_seqZ. fold n. lia.
  - intros i [item rank] sd Hi Hsd.
    apply lookup_zip_with_Some in Hi as (item' & rank' & [= <- <-] & Hitem & Hrank).
    unfold out0 in Hsd.
    apply lookup_zip_with_Some in Hsd as (rank' & d & -> & Hrank' & Hd).
    rewrite Hrank in Hrank'. injection Hrank' as <-.
    apply lookup_seqZ in Hitem as [-> _].
    unfold Aggregator.dict_lookup.
    rewrite (proj2 (Hmid (0 + Z.of_nat i + 1) d)); [done|].
    exists i. split; [done|lia].
Qed.

(** X22.  On a universe of [n >= 1] documents the Markov chain strategy
    returns one pair per document, in descending order of score; every
    score is [n - r] for a rank [r] between 1 and [n], and the first pair
    has the score [n - 1]. *)
Theorem markov_chain_scores rankings :
  rankings <> [] -> Forall NoDup rankings -> universe rankings <> [] ->
  let n := Py.len (universe rankings) in
  exists out,
    MarkovChain.rank_by_id rankings = Ok out /\
    Py.len out = n /\
    (forall i s d, out !! i = Some (s, d) -> exists r, 1 <= r <= n /\ s = Py.float (n - r)) /\
    (forall i j si di sj dj,
       (i < j)%nat -> out !! i = Some (si, di) -> out !! j = Some (sj, dj) -> (sj <= si)%Qc) /\
    (exists d, out !! 0%nat = Some (Py.float (n - 1), d)).
Proof.
  intros Hne Hnd Hnonempty n.
  destruct (markov_chain_entries rankings Hne Hnd Hnonempty) as (pi & Hpi & Hrun).
  set (U := universe rankings) in *. change (Z.of_nat (length U)) with n in Hrun.
  set (out0 := zip_with (fun r d => (Py.float (n - r), d)) (dense_rank pi <$> pi) U) in *.
  set (out := Py.stable_sort _ out0) in *.
  assert (out ≡ₚ out0) as Hperm by apply stable_sort_perm.
  pose proof (sort_by_score_sorted out0) as Hsorted. fold out in Hsorted.
  assert (length out0 = length U) as Hlen0.
  { unfold out0. rewrite length_zip_with, length_fmap. lia. }
  assert (forall s d, (s, d) ∈ out0 ->
            exists x, x ∈ pi /\ s = Py.float (n - dense_rank pi x)) as Hentry.
  { intros s d [i Hi]%list_elem_of_lookup. unfold out0 in Hi.
    apply lookup_zip_with_Some in Hi as (r & d' & [= -> ->] & Hr & _).
    rewrite list_lookup_fmap in Hr. destruct (pi !! i) as [x|] eqn:Hx; [|done].
    injection Hr as <-. exists x. split; [by eapply list_elem_of_lookup_2|done]. }
  assert (Py.len pi = n) as Hpin by (unfold Py.len, n, Py.len; by rewrite Hpi).
  assert (forall i s d, out !! i = Some (s, d) ->
            exists r, 1 <= r <= n /\ s = Py.float (n - r)) as Hscore.
  { intros i s d Hi. apply list_elem_of_lookup_2 in Hi. rewrite Hperm in Hi.
    destruct (Hentry s d Hi) as (x & Hx & ->). exists (dense_rank pi x). split; [|done].
    rewrite <-Hpin. by apply dense_rank_bounds. }
  assert (forall i j si di sj dj,
            (i < j)%nat -> out !! i = Some (si, di) -> out !! j = Some (sj, dj) -> (sj <= si)%Qc)
    as Horder.
  { intros i j si di sj dj Hij Hi Hj.
    exact (StronglySorted_lookup_1 _ out i j (si, di) (sj, dj) Hsorted Hij Hi Hj). }
  exists out. split_and!; [exact Hrun| |exact Hscore|exact Horder|].
  - unfold Py.len. rewrite Hperm, Hlen0. done.
  - (* the best entry *)
    assert (pi <> []) as Hpi_ne.
    { intros ->. cbn in Hpi. destruct U; [done|]. cbn in Hpi. lia. }
    destruct (list_max_exists pi Hpi_ne) as (x & [k Hk]%list_elem_of_lookup & Hmax).
    assert (dense_rank pi x = 1) as Hone.
    { unfold dense_rank.
      assert (filter (fun z => x < z)%Qc pi = []) as ->; [|done].
      apply elem_of_nil_inv. intros z [Hz Hin]%list_elem_of_filter.
      by apply Hmax, Qcle_not_lt in Hin. }
    destruct (lookup_lt_is_Some_2 U k) as [d Hd]; [apply lookup_lt_Some in Hk; lia|].
    assert ((Py.float (n - 1), d) ∈ out) as [i Hi]%list_elem_of_lookup.
    { rewrite Hperm. apply list_elem_of_lookup. exists k. unfold out0.
      apply lookup_zip_with_Some. exists 1, d. split_and!; [done| |done].
      by rewrite list_lookup_fmap, Hk, <-Hone. }
    destruct (lookup_lt_is_Some_2 out 0) as [[s0 d0] Hout0]; [apply lookup_lt_Some in Hi; lia|].
    exists d0. rewrite Hout0. do 2 f_equal.
    destruct (Hscore 0%nat s0 d0 Hout0) as (r & Hr & ->).
    destruct i as [|i]; [by rewrite Hout0 in Hi; injection Hi as -> _|].
    pose proof (Horder 0%nat (S i) _ _ _ _ ltac:(lia) Hout0 Hi) as Hle.
    rewrite float_le in Hle. f_equal. lia.
Qed.

End markov_scores.


(** * Facts about the aggregation step of a search *)

Section search_aggregation.
Context `{PySet Z} `{Argsort} `{!PySetLaws Z} `{!ArgsortLaws}.

(** X24.  A search over several weightings accepts the aggregation
    methods ["borda_count"] and ["markov_chain"], spelled exactly so, and
    raises [ValueError] for any other name.  With either method, result
    lists that do not repeat a document, and at least one hit, the fused
    list holds every document that some weighting returned, once. *)
Theorem rank_aggregation_covers_hits aggr results :
  results <> [] -> Forall (fun rank => NoDup (docnum <$> rank)) results ->
  concat results <> [] ->
  (aggr <> "borda_count"%string -> aggr <> "markov_chain"%string ->
   ASearcher._get_aggregation_method aggr = Raise (ValueError "Invalid aggregation method")) /\
  (aggr = "borda_count"%string \/ aggr = "markov_chain"%string ->
   exists a new_rank,
     ASearcher._get_aggregation_method aggr = Ok a /\
     ASearcher._rank_aggregation results a = Ok new_rank /\
     NoDup new_rank.*2 /\
     forall d, d ∈ new_rank.*2 <->
               exists rank hit, rank ∈ results /\ hit ∈ rank /\ docnum hit = d).
Proof.
  intros Hne Hnd Hhits. split.
  - intros Hb Hm. unfold ASearcher._get_aggregation_method. by rewrite !decide_False.
  - intros Haggr.
    set (rankings := (fun rank : list RankedHit => docnum <$> rank) <$> results).
    assert (rankings <> []) as Hne' by (unfold rankings; by destruct results).
    assert (Forall NoDup rankings) as Hnd' by (unfold rankings; by apply Forall_fmap).
    assert (forall d, d ∈ universe rankings <->
              exists rank hit, rank ∈ results /\ hit ∈ rank /\ docnum hit = d) as Helem.
    { intros d. unfold universe, Aggregator.get_unique_doc_ids.
      rewrite set_iter_elem, list_elem_of_In, in_concat. split.
      - intros (ids & Hids & Hd). apply list_elem_of_In in Hids, Hd.
        apply list_elem_of_fmap in Hids as (rank & -> & Hrank).
        apply list_elem_of_fmap in Hd as (hit & -> & Hhit). by exists rank, hit.
      - intros (rank & hit & Hrank & Hhit & <-). exists (docnum <$> rank).
        rewrite <-!list_elem_of_In. split.
        + apply list_elem_of_fmap. by exists rank.
        + apply list_elem_of_fmap. by exists hit. }
    assert (universe rankings <> []) as HU.
    { destruct (concat results) as [|hit hits] eqn:Hc; [done|].
      assert (hit ∈ concat results) as Hin by (rewrite Hc; apply list_elem_of_here).
      apply list_elem_of_In, in_concat in Hin as (rank & Hrank & Hhit).
      apply list_elem_of_In in Hrank, Hhit.
      apply (elem_of_not_nil (docnum hit)), Helem. by exists rank, hit. }
    destruct (aggregators_cover_universe rankings Hne' Hnd' HU)
      as [(out1 & Hrun1 & Hperm1) (out2 & Hrun2 & Hperm2)].
    unfold ASearcher._get_aggregation_method, ASearcher._rank_aggregation.
    fold rankings.
    destruct Haggr as [-> | ->].
    + exists ASearcher.a_BordaCount, out1. rewrite decide_True by done.
      split_and!; [done|exact Hrun1| |].
      * rewrite Hperm1. apply universe_NoDup.
      * intros d. by rewrite Hperm1.
    + exists ASearcher.a_MarkovChain, out2. rewrite decide_False, decide_True by done.
      split_and!; [done|exact Hrun2| |].
      * rewrite Hperm2. apply universe_NoDup.
      * intros d. by rewrite Hperm2.
Qed.

End search_aggregation.


(** * Runs of the model with the reference runtime *)

Section reference_runs.
#[local] Existing Instance list_set_ops.
#[local] Existing Instance insertion_argsort.
#[local] Existing Instance list_set_ops_laws.
#[local] Existing Instance insertion_argsort_laws.
#[local] Existing Instance insertion_argsort_stable.

(** C4, counterexample.  The rankings [A, B] and [B, A] give both
    documents the total score 1; with a stable [argsort] the fused ranking
    starts with [A], whose index is 2, and ends with [B], whose index
    is 1. *)
Lemma borda_tie_counterexample :
  BordaCount.rank_by_id [["A"; "B"]; ["B"; "A"]]%string
    = Ok [(Py.float 1, "A"%string); (Py.float 1, "B"%string)] /\
  doc_id (universe [["A"; "B"]; ["B"; "A"]]%string) "A"%string = 2 /\
  doc_id (universe [["A"; "B"]; ["B"; "A"]]%string) "B"%string = 1.
Proof. split_and!; by vm_compute. Qed.

(** The example of the repository: Borda Count puts B and A, with total
    score 5 each, before C with total score 2; MarkovChain ranks A and B
    first, with equal score, before C. *)
Lemma repository_example :
  BordaCount.rank_by_id [["A"; "C"; "B"]; ["B"; "A"; "C"]; ["B"; "C"; "A"]; ["A"; "B"; "C"]]%string
    = Ok [(Py.float 5, "B"%string); (Py.float 5, "A"%string); (Py.float 2, "C"%string)] /\
  MarkovChain.rank_by_id [["A"; "C"; "B"]; ["B"; "A"; "C"]; ["B"; "C"; "A"]; ["A"; "B"; "C"]]%string
    = Ok [(Py.float 2, "A"%string); (Py.float 2, "B"%string); (Py.float 1, "C"%string)].
Proof. split; by vm_compute. Qed.

(** A single ranking of four documents comes back unchanged from both
    strategies. *)
Lemma single_ranking_example :
  BordaCount.rank_by_id [["x"; "y"; "z"; "w"]]%string
    = Ok [(Py.float 3, "x"%string); (Py.float 2, "y"%string);
          (Py.float 1, "z"%string); (Py.float 0, "w"%string)] /\
  MarkovChain.rank_by_id [["x"; "y"; "z"; "w"]]%string
    = Ok [(Py.float 3, "x"%string); (Py.float 2, "y"%string);
          (Py.float 1, "z"%string); (Py.float 0, "w"%string)].
Proof. split; by vm_compute. Qed.

Lemma borda_order_ties_by_larger_index_witness :
  exists out,
    BordaCount.rank_by_id [["A"; "B"]; ["B"; "A"]]%string = Ok out /\
    out.*2 ≡ₚ universe [["A"; "B"]; ["B"; "A"]]%string /\
    (forall s d, (s, d) ∈ out ->
       s = Py.float (borda_total (universe [["A"; "B"]; ["B"; "A"]]%string)
                       [["A"; "B"]; ["B"; "A"]]%string
                       (doc_id (universe [["A"; "B"]; ["B"; "A"]]%string) d))) /\
    (forall i j si di sj dj,
       (i < j)%nat -> out !! i = Some (si, di) -> out !! j = Some (sj, dj) ->
       (sj <= si)%Qc /\
       (si = sj -> doc_id (universe [["A"; "B"]; ["B"; "A"]]%string) dj
                   < doc_id (universe [["A"; "B"]; ["B"; "A"]]%string) di)).
Proof.
  destruct (borda_order_ties_by_larger_index [["A"; "B"]; ["B"; "A"]]%string)
    as (out & Hrun & Hperm & Hscore & Horder).
  - done.
  - apply (bool_decide_unpack _). vm_compute. exact I.
  - exists out. split; [exact Hrun|]. split; [exact Hperm|]. split; [exact Hscore|].
    intros i j si di sj dj Hij Hi Hj.
    destruct (Horder i j si di sj dj Hij Hi Hj) as [Hle Htie].
    split; [exact Hle|]. exact (Htie insertion_argsort_stable).
Defined.

Lemma single_empty_ranking_diverges_witness :
  BordaCount.rank_by_id [@nil string] = Ok [] /\
  MarkovChain.rank_by_id [@nil string] = Raise ZeroDivisionError.
Proof. apply (single_empty_ranking_diverges (DocId := string)). Defined.

Lemma empty_rankings_diverge_witness :
  universe (replicate 2 (@nil string)) = [] /\
  BordaCount.rank_by_id (replicate 2 (@nil string)) = Ok [] /\
  MarkovChain.rank_by_id (replicate 2 (@nil string)) = Raise ZeroDivisionError.
Proof. apply (empty_rankings_diverge (DocId := string) 1). Defined.

End reference_runs.


(** * More runs of the model with the reference runtime *)

Section more_reference_runs.
#[local] Existing Instance list_set_ops.
#[local] Existing Instance insertion_argsort.
#[local] Existing Instance list_set_ops_laws.
#[local] Existing Instance insertion_argsort_laws.

Lemma borda_single_ranking_witness :
  exists out,
    BordaCount.rank_by_id [["x"; "y"; "z"]%string] = Ok out /\
    out.*2 = ["x"; "y"; "z"]%string /\
    (forall i s d, out !! i = Some (s, d) ->
       s = Py.float (Py.len ["x"; "y"; "z"]%string - (Z.of_nat i + 1))).
Proof.
  apply (borda_single_ranking ["x"; "y"; "z"]%string).
  apply (bool_decide_unpack _). by vm_compute.
Defined.

Lemma borda_unanimous_preference_witness :
  exists out i j sa sb,
    BordaCount.rank_by_id [["A"; "B"; "C"]; ["A"; "C"]]%string = Ok out /\
    out !! i = Some (sa, "A"%string) /\ out !! j = Some (sb, "C"%string) /\
    (i < j)%nat /\ (sb < sa)%Qc.
Proof.
  apply (borda_unanimous_preference [["A"; "B"; "C"]; ["A"; "C"]]%string "A"%string "C"%string).
  - done.
  - apply (bool_decide_unpack _). by vm_compute.
  - repeat constructor.
    + exists 0%nat. split; [done|]. intros [|j] Hj; [done|lia].
    + exists 0%nat. split; [done|]. intros [|j] Hj; [done|lia].
  - apply (bool_decide_unpack _). by vm_compute.
Defined.

Lemma borda_scores_sum_witness :
  exists out,
    BordaCount.rank_by_id [["A"; "B"; "C"]; ["C"; "A"]]%string = Ok out /\
    (2 * foldr Qcplus 0 out.*1)%Qc
    = Py.float (Py.len [["A"; "B"; "C"]; ["C"; "A"]]%string
                * (Py.len (universe [["A"; "B"; "C"]; ["C"; "A"]]%string)
                   * (Py.len (universe [["A"; "B"; "C"]; ["C"; "A"]]%string) - 1))).
Proof.
  apply (borda_scores_sum [["A"; "B"; "C"]; ["C"; "A"]]%string).
  - done.
  - apply (bool_decide_unpack _). by vm_compute.
Defined.

Lemma duplicate_in_ranking_raises_witness :
  BordaCount.rank_by_id [["A"; "B"]; ["B"; "B"]]%string
    = Raise (ValueError "could not broadcast input array") /\
  MarkovChain.rank_by_id [["A"; "B"]; ["B"; "B"]]%string
    = Raise (ValueError "could not broadcast input array").
Proof.
  apply (duplicate_in_ranking_raises [["A"; "B"]; ["B"; "B"]]%string).
  apply Exists_cons_tl, Exists_cons_hd. intros Hnd.
  apply NoDup_cons in Hnd as [Hnot _]. apply Hnot, list_elem_of_here.
Defined.

Lemma markov_chain_scores_witness :
  exists out,
    MarkovChain.rank_by_id [["A"; "B"]; ["A"; "C"]]%string = Ok out /\
    Py.len out = Py.len (universe [["A"; "B"]; ["A"; "C"]]%string) /\
    (forall i s d, out !! i = Some (s, d) ->
       exists r, 1 <= r <= Py.len (universe [["A"; "B"]; ["A"; "C"]]%string) /\
                 s = Py.float (Py.len (universe [["A"; "B"]; ["A"; "C"]]%string) - r)) /\
    (forall i j si di sj dj,
       (i < j)%nat -> out !! i = Some (si, di) -> out !! j = Some (sj, dj) -> (sj <= si)%Qc) /\
    (exists d, out !! 0%nat
               = Some (Py.float (Py.len (universe [["A"; "B"]; ["A"; "C"]]%string) - 1), d)).
Proof.
  apply (markov_chain_scores [["A"; "B"]; ["A"; "C"]]%string).
  - done.
  - apply (bool_decide_unpack _). by vm_compute.
  - by vm_compute.
Defined.

Lemma rank_aggregation_covers_hits_witness :
  (("markov_chain" : string) <> "borda_count"%string ->
   ("markov_chain" : string) <> "markov_chain"%string ->
   ASearcher._get_aggregation_method "markov_chain"
     = Raise (ValueError "Invalid aggregation method")) /\
  (("markov_chain" : string) = "borda_count"%string
   \/ ("markov_chain" : string) = "markov_chain"%string ->
   exists a new_rank,
     ASearcher._get_aggregation_method "markov_chain" = Ok a /\
     ASearcher._rank_aggregation
       [[ {| docnum := 4; score := Py.float 2 |}; {| docnum := 7; score := Py.float 1 |} ];
        [ {| docnum := 7; score := Py.float 5 |} ]] a = Ok new_rank /\
     NoDup new_rank.*2 /\
     forall d, d ∈ new_rank.*2 <->
               exists rank hit,
                 rank ∈ [[ {| docnum := 4; score := Py.float 2 |};
                           {| docnum := 7; score := Py.float 1 |} ];
                         [ {| docnum := 7; score := Py.float 5 |} ]]
                 /\ hit ∈ rank /\ docnum hit = d).
Proof.
  apply (rank_aggregation_covers_hits "markov_chain"
           [[ {| docnum := 4; score := Py.float 2 |}; {| docnum := 7; score := Py.float 1 |} ];
            [ {| docnum := 7; score := Py.float 5 |} ]]).
  - done.
  - repeat constructor; cbn; apply (bool_decide_unpack _); by vm_compute.
  - done.
Defined.

End more_reference_runs.
